(** * codex_verifier: policy-gated remote verification engine

    A shallow embedding of the Python package [codex_verifier]
    (models.py, preflight.py, exec_pool.py, parsers.py, validators.py,
    runner.py), the properties its specification states about it, and
    further properties of the code.

    Conventions of the embedding.
    - A Python [str] is a [string]; its characters are read as code points
      below 256, so [len] counts them.
    - A Python [float] is an IEEE 754 binary64 number, [spec_float] at
      precision 53 and maximal exponent 1024.
    - A dynamically typed value ([Any], the values of a [dict]) is a [pyval].
    - A function that can raise returns a [res]: [Ok v] or [Raise e].
    - The remote host is an oracle [remote] that answers each call of
      [run_cmd]; wall-clock durations are part of the oracle's answer. *)

From Stdlib Require Import ZArith NArith String Ascii List Bool Lia.
From Stdlib Require Import Floats.SpecFloat.
From stdpp Require Import base option gmap strings list.

Local Open Scope string_scope.
Local Open Scope Z_scope.

(* ===================================================================== *)
(** * Part I. Definitions                                                 *)
(* ===================================================================== *)

(** ** Exceptions and results *)

Inductive exn :=
| ValueError (msg : string)
| KeyError (key : string)
| IndexError
| TypeError
| AttributeError
| OverflowError
| ZeroDivisionError.

Inductive res (A : Type) :=
| Ok (a : A)
| Raise (e : exn).
Arguments Ok {A} a.
Arguments Raise {A} e.

Definition bind {A B} (r : res A) (k : A -> res B) : res B :=
  match r with
  | Ok a => k a
  | Raise e => Raise e
  end.

Notation "x <~ c1 ;; c2" := (bind c1 (fun x => c2))
  (at level 100, c1 at next level, right associativity).

Definition is_ok {A} (r : res A) : bool :=
  match r with Ok _ => true | Raise _ => false end.

(** ** Python strings *)

(** [str.isspace] on one character, for code points below 256:
    U+0009..U+000D, U+001C..U+0020, U+0085 and U+00A0. *)
Definition is_space (c : ascii) : bool :=
  let n := N_of_ascii c in
  (((9 <=? n) && (n <=? 13)) || ((28 <=? n) && (n <=? 32))
   || (n =? 133) || (n =? 160))%N.

(** [str.lower] on one character: A..Z and the Latin-1 capitals
    U+00C0..U+00DE (but not the multiplication sign U+00D7). *)
Definition lower_char (c : ascii) : ascii :=
  let n := N_of_ascii c in
  if (((65 <=? n) && (n <=? 90))
      || ((192 <=? n) && (n <=? 222) && negb (n =? 215)))%N
  then ascii_of_N (n + 32) else c.

Fixpoint lower (s : string) : string :=
  match s with
  | EmptyString => EmptyString
  | String c s' => String (lower_char c) (lower s')
  end.

(** [s.startswith(p)]. *)
Fixpoint startswith (s p : string) {struct p} : bool :=
  match p with
  | EmptyString => true
  | String a p' =>
      match s with
      | EmptyString => false
      | String b s' => Ascii.eqb a b && startswith s' p'
      end
  end.

(** [p in s] on strings: [p] occurs in [s] as a contiguous substring. *)
Fixpoint contains (p s : string) : bool :=
  startswith s p ||
  match s with
  | EmptyString => false
  | String _ s' => contains p s'
  end.

(** [s.split()]: the maximal runs of non-whitespace characters.
    [cur] is the run being read. *)
Fixpoint split_ws_from (cur : string) (s : string) : list string :=
  match s with
  | EmptyString => if String.eqb cur "" then [] else [cur]
  | String c s' =>
      if is_space c
      then (if String.eqb cur "" then split_ws_from "" s'
            else cur :: split_ws_from "" s')
      else split_ws_from (cur ++ String c "") s'
  end.

Definition split_ws (s : string) : list string := split_ws_from "" s.

Fixpoint lstrip (s : string) : string :=
  match s with
  | EmptyString => EmptyString
  | String c s' => if is_space c then lstrip s' else s
  end.

(** [s.rstrip()] generalised to a set of characters given by [drop]. *)
Fixpoint rstrip_by (drop : ascii -> bool) (s : string) : string :=
  match s with
  | EmptyString => EmptyString
  | String c s' =>
      match rstrip_by drop s' with
      | EmptyString => if drop c then EmptyString else String c EmptyString
      | r => String c r
      end
  end.

(** [s.strip()]. *)
Definition strip (s : string) : string := rstrip_by is_space (lstrip s).

(** [len(s)]. *)
Fixpoint len (s : string) : N :=
  match s with
  | EmptyString => 0%N
  | String _ s' => N.succ (len s')
  end.

(** [len(s.encode("utf-8"))], the number of bytes of the text in the
    encoding in which the output of a remote command is received: one
    byte for a code point below U+0080, two for the others below 256. *)
Fixpoint utf8_len (s : string) : N :=
  match s with
  | EmptyString => 0%N
  | String c s' =>
      ((if N_of_ascii c <? 128 then 1 else 2) + utf8_len s')%N
  end.

(** [s[:n]] for [n >= 0]. *)
Fixpoint take_str (n : N) (s : string) : string :=
  match s with
  | EmptyString => EmptyString
  | String c s' =>
      if (n =? 0)%N then EmptyString else String c (take_str (N.pred n) s')
  end.

(** [x in l] for a list of strings. *)
Definition str_in (x : string) (l : list string) : bool :=
  existsb (String.eqb x) l.

(** ** Dynamically typed values *)

Definition float := spec_float.
Definition prec : Z := 53.
Definition emax : Z := 1024.

#[warnings="-register-all"]
Inductive pyval :=
| PNone
| PBool (b : bool)
| PInt (z : Z)
| PFloat (f : float)
| PStr (s : string)
| PList (l : list pyval)
| PDict (d : gmap string pyval).

(** ** models.py *)

Record Target := { host : string }.

Module ToDoStep.
Record t := {
  id : string;
  action : string;
  args : gmap string pyval;
  timeout_s : Z;
  parser : option string;
  validator : option string
}.
End ToDoStep.

Module ToDoDSL.
Record t := {
  job_id : string;
  profile : string;
  target : Target;
  context : gmap string pyval;
  prechecks : list (gmap string pyval);
  steps : list ToDoStep.t;
  postchecks : list (gmap string pyval);
  success_criteria : list string
}.
End ToDoDSL.

Module ExecStep.
Record t := {
  id : string;
  cmd : string;
  timeout_s : Z;
  parser : option string;
  validator : option string
}.
End ExecStep.

Module ExecPlan.
Record t := { steps : list ExecStep.t }.
End ExecPlan.

Module RawResult.
Record t := {
  step_id : string;
  exit_code : Z;
  stdout : string;
  stderr : string;
  duration_ms : Z;
  truncated : bool
}.
End RawResult.

(** ** preflight.py *)

(** One entry of [catalog.actions]: a mapping whose declared keys are
    [cmd], [read_only], [requires_sudo] and [parser]; [None] is an absent
    key. *)
Module CatalogEntry.
Record t := {
  cmd : option string;
  read_only : option bool;
  requires_sudo : option bool;
  parser : option string
}.
End CatalogEntry.

(** One entry of [catalog.profiles]. *)
Module Profile.
Record t := {
  max_timeout_s : option Z;
  allow_sudo : option (list string)
}.
End Profile.

Module Catalog.
Record t := {
  actions : gmap string CatalogEntry.t;
  profiles : gmap string Profile.t
}.
End Catalog.

(** [key in d] for one declared key of a mapping. *)
Definition present {A} (o : option A) : bool :=
  match o with Some _ => true | None => false end.

(** Truth value of a catalog entry: an empty mapping is falsy. *)
Definition entry_truthy (a : CatalogEntry.t) : bool :=
  present (CatalogEntry.cmd a) || present (CatalogEntry.read_only a)
  || present (CatalogEntry.requires_sudo a) || present (CatalogEntry.parser a).

Definition DENY_PATTERNS : list string :=
  [ " rm "; " mkfs"; " dd "; " :(){:|:&};:"; "shutdown"; "reboot";
    "iptables"; "sysctl -w "; "chown "; "chmod " ].

(** [a["cmd"].split()[2] if a["cmd"].startswith("sudo") else ""]. *)
Definition sudo_bin_path (cmd : string) : res string :=
  if startswith cmd "sudo"
  then match nth_error (split_ws cmd) 2 with
       | Some b => Ok b
       | None => Raise IndexError
       end
  else Ok "".

(** The body of the loop of [policy_gate], for one step. *)
Definition policy_gate_step (prof : Profile.t) (catalog : Catalog.t)
    (s : ToDoStep.t) : res unit :=
  let name := ToDoStep.action s in
  match Catalog.actions catalog !! name with
  | None => Raise (ValueError ("Unknown action " ++ name))
  | Some a =>
      if negb (entry_truthy a)
      then Raise (ValueError ("Unknown action " ++ name))
      else if negb (default false (CatalogEntry.read_only a))
      then Raise (ValueError ("Action " ++ name ++ " is not read-only"))
      else if default false (CatalogEntry.requires_sudo a)
      then
        let allowed := default [] (Profile.allow_sudo prof) in
        match CatalogEntry.cmd a with
        | None => Raise (KeyError "cmd")
        | Some cmd =>
            bin_path <~ sudo_bin_path cmd ;;
            if negb (str_in bin_path allowed)
            then Raise (ValueError ("sudo binary not allowed for action "
                                    ++ name ++ ": " ++ bin_path))
            else Ok tt
        end
      else Ok tt
  end.

Fixpoint policy_gate_steps (prof : Profile.t) (catalog : Catalog.t)
    (l : list ToDoStep.t) : res unit :=
  match l with
  | [] => Ok tt
  | s :: l' =>
      _ <~ policy_gate_step prof catalog s ;;
      policy_gate_steps prof catalog l'
  end.

Definition policy_gate (dsl : ToDoDSL.t) (catalog : Catalog.t) : res unit :=
  match Catalog.profiles catalog !! ToDoDSL.profile dsl with
  | None => Raise (ValueError ("Unknown profile " ++ ToDoDSL.profile dsl))
  | Some prof => policy_gate_steps prof catalog (ToDoDSL.steps dsl)
  end.

(** The loop of [static_audit] over the patterns still to try. *)
Fixpoint static_audit_loop (low : string) (ps : list string) : res unit :=
  match ps with
  | [] => Ok tt
  | p :: ps' =>
      if contains p low
      then Raise (ValueError ("Denied pattern in cmd: " ++ strip p))
      else static_audit_loop low ps'
  end.

Definition static_audit (exec_cmd : string) : res unit :=
  let low := lower (" " ++ exec_cmd ++ " ") in
  static_audit_loop low DENY_PATTERNS.

(** ** Python numbers *)

(** [int] to [float] as arithmetic does it: round to nearest even, and
    [OverflowError] when the result is not finite. *)
Definition float_of_Z (z : Z) : res float :=
  match binary_normalize prec emax z 0 false with
  | S754_infinity _ => Raise OverflowError
  | f => Ok f
  end.

Definition float_is_zero (f : float) : bool :=
  match f with S754_zero _ => true | _ => false end.

(** The float written [100.0] and the default arguments [16.0], [2.0]. *)
Definition f100 : float := S754_finite false 7036874417766400 (-46).
Definition f16 : float := S754_finite false 4503599627370496 (-48).
Definition f2 : float := S754_finite false 4503599627370496 (-51).

(** [x / y] on two [int]s: the correctly rounded quotient. *)
Definition int_truediv (x y : Z) : res float :=
  match y with
  | Z0 => Raise ZeroDivisionError
  | _ =>
      match x with
      | Z0 => Ok (S754_zero (y <? 0))
      | _ =>
          match SFdiv prec emax
                  (S754_finite (x <? 0) (Z.to_pos (Z.abs x)) 0)
                  (S754_finite (y <? 0) (Z.to_pos (Z.abs y)) 0) with
          | S754_infinity _ => Raise OverflowError
          | f => Ok f
          end
      end
  end.

(** Exact comparison of an [int] with a [float], as [==] and [<=] do it. *)
Definition Z_compare_float (z : Z) (f : float) : option comparison :=
  match f with
  | S754_nan => None
  | S754_infinity s => Some (if s then Gt else Lt)
  | S754_zero _ => Some (z ?= 0)
  | S754_finite s m e =>
      let sm := if s then Zneg m else Zpos m in
      match e with
      | Zneg p => Some (z * 2 ^ (Zpos p) ?= sm)
      | _ => Some (z ?= sm * 2 ^ e)
      end
  end.

Inductive num :=
| NInt (z : Z)
| NFloat (f : float).

(** [bool] is a subclass of [int]. *)
Definition as_num (v : pyval) : option num :=
  match v with
  | PBool b => Some (NInt (if b then 1 else 0))
  | PInt z => Some (NInt z)
  | PFloat f => Some (NFloat f)
  | _ => None
  end.

Definition num_to_float (n : num) : res float :=
  match n with
  | NInt z => float_of_Z z
  | NFloat f => Ok f
  end.

Definition num_compare (a b : num) : option comparison :=
  match a, b with
  | NInt x, NInt y => Some (x ?= y)
  | NFloat x, NFloat y => SFcompare x y
  | NInt x, NFloat y => Z_compare_float x y
  | NFloat x, NInt y => CompOpp <$> Z_compare_float y x
  end.

Definition num_eqb (a b : num) : bool :=
  match num_compare a b with Some Eq => true | _ => false end.

Definition num_leb (a b : num) : bool :=
  match num_compare a b with Some (Lt | Eq) => true | _ => false end.

(** [a - b]. *)
Definition py_sub (a b : pyval) : res pyval :=
  match as_num a, as_num b with
  | Some (NInt x), Some (NInt y) => Ok (PInt (x - y))
  | Some na, Some nb =>
      fa <~ num_to_float na ;;
      fb <~ num_to_float nb ;;
      Ok (PFloat (SFsub prec emax fa fb))
  | _, _ => Raise TypeError
  end.

(** [a * b] on numbers (the source multiplies by a [float] only). *)
Definition py_mul (a b : pyval) : res pyval :=
  match as_num a, as_num b with
  | Some (NInt x), Some (NInt y) => Ok (PInt (x * y))
  | Some na, Some nb =>
      fa <~ num_to_float na ;;
      fb <~ num_to_float nb ;;
      Ok (PFloat (SFmul prec emax fa fb))
  | _, _ => Raise TypeError
  end.

(** [a / b]. *)
Definition py_truediv (a b : pyval) : res pyval :=
  match as_num a, as_num b with
  | Some (NInt x), Some (NInt y) => f <~ int_truediv x y ;; Ok (PFloat f)
  | Some na, Some nb =>
      fa <~ num_to_float na ;;
      fb <~ num_to_float nb ;;
      if float_is_zero fb then Raise ZeroDivisionError
      else Ok (PFloat (SFdiv prec emax fa fb))
  | _, _ => Raise TypeError
  end.

(** [abs(a)]. *)
Definition py_abs (a : pyval) : res pyval :=
  match as_num a with
  | Some (NInt x) => Ok (PInt (Z.abs x))
  | Some (NFloat f) => Ok (PFloat (SFabs f))
  | None => Raise TypeError
  end.

(** [a <= b] on numbers. *)
Definition py_le (a b : pyval) : res bool :=
  match as_num a, as_num b with
  | Some na, Some nb => Ok (num_leb na nb)
  | _, _ => Raise TypeError
  end.

(** [m * 2^e * 100] rounded to the nearest integer, ties to even. *)
Definition hundredths (m : positive) (e : Z) : Z :=
  match e with
  | Zneg p =>
      let d := 2 ^ (Zpos p) in
      let q := (Zpos m * 100) / d in
      let r := (Zpos m * 100) mod d in
      match 2 * r ?= d with
      | Lt => q
      | Gt => q + 1
      | Eq => if Z.even q then q else q + 1
      end
  | _ => Zpos m * 2 ^ e * 100
  end.

(** [round(x, 2)] on a [float]: the decimal with two places nearest to
    the exact value of [x] (ties to even), converted back to the nearest
    [float]; zeros, infinities and NaN round to themselves. *)
Definition float_round2 (x : float) : float :=
  match x with
  | S754_finite s m e =>
      match hundredths m e with
      | Zpos k => SFdiv prec emax (S754_finite s k 0) f100
      | _ => S754_zero s
      end
  | _ => x
  end.

(** [round(v, 2)]: an [int] rounds to itself. *)
Definition py_round2 (v : pyval) : res pyval :=
  match as_num v with
  | Some (NInt z) => Ok (PInt z)
  | Some (NFloat f) => Ok (PFloat (float_round2 f))
  | None => Raise TypeError
  end.

(** [bool(v)]. *)
Definition truthy (v : pyval) : bool :=
  match v with
  | PNone => false
  | PBool b => b
  | PInt z => negb (z =? 0)
  | PFloat f => negb (float_is_zero f)
  | PStr s => negb (String.eqb s "")
  | PList l => match l with [] => false | _ => true end
  | PDict d => match map_to_list d with [] => false | _ => true end
  end.

(** [a or b]. *)
Definition py_or (a b : pyval) : pyval := if truthy a then a else b.

(** Lists and mappings cannot be hashed. *)
Definition hashable (v : pyval) : bool :=
  match v with
  | PList _ | PDict _ => false
  | _ => true
  end.

(** [a == b] on hashable values, as membership in a set decides it. *)
Definition py_eqb (a b : pyval) : bool :=
  match a, b with
  | PNone, PNone => true
  | PStr s, PStr s' => String.eqb s s'
  | _, _ =>
      match as_num a, as_num b with
      | Some na, Some nb => num_eqb na nb
      | _, _ => false
      end
  end.

(** [for x in v]: the elements of a list, the characters of a string,
    the keys of a mapping. *)
Definition py_iter (v : pyval) : res (list pyval) :=
  match v with
  | PList l => Ok l
  | PStr s => Ok ((fun c => PStr (String c "")) <$> list_ascii_of_string s)
  | PDict d => Ok ((fun kv => PStr (fst kv)) <$> map_to_list d)
  | _ => Raise TypeError
  end.

(** [v[key]] for a string key. *)
Definition py_getitem (v : pyval) (key : string) : res pyval :=
  match v with
  | PDict d =>
      match d !! key with
      | Some x => Ok x
      | None => Raise (KeyError key)
      end
  | _ => Raise TypeError
  end.

(** [v.get(key, dflt)]. *)
Definition py_get (v : pyval) (key : string) (dflt : pyval) : res pyval :=
  match v with
  | PDict d => Ok (default dflt (d !! key))
  | _ => Raise AttributeError
  end.

(** ** parsers.py *)

Definition is_digit (c : ascii) : bool :=
  let n := N_of_ascii c in ((48 <=? n) && (n <=? 57))%N.

(** Skip a maximal run of characters satisfying [p]; the run and the rest. *)
Fixpoint span (p : ascii -> bool) (s : string) : string * string :=
  match s with
  | EmptyString => (EmptyString, EmptyString)
  | String c s' =>
      if p c then let '(a, b) := span p s' in (String c a, b)
      else (EmptyString, s)
  end.

(** [s[n:]]. *)
Fixpoint drop_str (n : nat) (s : string) : string :=
  match n, s with
  | O, _ => s
  | S _, EmptyString => EmptyString
  | S n', String _ s' => drop_str n' s'
  end.

(** [int(s)] for a string of the digits 0..9. *)
Definition int_of_digits (s : string) : Z :=
  fold_left (fun acc c => acc * 10 + Z.of_N (N_of_ascii c - 48))
            (list_ascii_of_string s) 0.

(** The pattern [MemTotal:\s+(\d+)\s+kB] anchored at the start of [s];
    the captured group. Each repetition is followed by a character
    outside its class, so only the maximal runs can match. *)
Definition match_memtotal_here (s : string) : option string :=
  if startswith s "MemTotal:" then
    let '(ws1, r1) := span is_space (drop_str 9 s) in
    let '(digits, r2) := span is_digit r1 in
    let '(ws2, r3) := span is_space r2 in
    if negb (String.eqb ws1 "") && negb (String.eqb digits "")
       && negb (String.eqb ws2 "") && startswith r3 "kB"
    then Some digits else None
  else None.

(** [re.search]: the leftmost position where the pattern matches. *)
Fixpoint search_memtotal (text : string) : option string :=
  match match_memtotal_here text with
  | Some g => Some g
  | None =>
      match text with
      | EmptyString => None
      | String _ text' => search_memtotal text'
      end
  end.

Definition parse_meminfo (text : string) : res (gmap string pyval) :=
  gib <~ match search_memtotal text with
         | Some g => int_truediv (int_of_digits g) (1024 ^ 2)
         | None => Ok (S754_zero false)
         end ;;
  rounded <~ py_round2 (PFloat gib) ;;
  Ok {[ "total_gib" := rounded ]}.

(** ** validators.py *)

(** The note of a validator, before it is formatted into a string. *)
Inductive note :=
| NoteEmpty
| NoteMemTotal (actual expected_gib pct : pyval)
| NoteAllDimmsPresent
| NoteMissingMismatch (missing : list pyval)
| NoteUnknownValidator (v_name : string)
| NoteText (s : string).

Definition ok_note (ok : bool) (n : note) : bool * note := (ok, n).

Definition total_mem_within_pct (parsed : gmap string pyval)
    (expected_gib pct : pyval) : res (bool * note) :=
  let actual := py_or (default (PInt 0) (parsed !! "total_gib")) (PInt 0) in
  diff <~ py_sub actual expected_gib ;;
  lhs <~ py_abs diff ;;
  frac <~ py_truediv pct (PFloat f100) ;;
  rhs <~ py_mul expected_gib frac ;;
  ok <~ py_le lhs rhs ;;
  Ok (ok_note ok (NoteMemTotal actual expected_gib pct)).

(** The key under which a DIMM is compared:
    (slot, rounded size, speed, ECC). *)
Definition dimm_key : Type := pyval * pyval * pyval * bool.

Definition dimm_key_eqb (a b : dimm_key) : bool :=
  let '(s1, z1, p1, e1) := a in
  let '(s2, z2, p2, e2) := b in
  py_eqb s1 s2 && py_eqb z1 z2 && py_eqb p1 p2 && Bool.eqb e1 e2.

(** Hashing a key fails on an unhashable component. *)
Definition hash_key (k : dimm_key) : res dimm_key :=
  let '(s, z, p, e) := k in
  if hashable s && hashable z && hashable p then Ok k else Raise TypeError.

(** The key of one parsed DIMM. *)
Definition have_key (d : pyval) : res dimm_key :=
  slot <~ py_getitem d "slot" ;;
  size <~ py_get d "size_gib" PNone ;;
  rsize <~ py_round2 (py_or size (PInt 0)) ;;
  speed <~ py_get d "speed_mt" PNone ;;
  ecc <~ py_get d "ecc" PNone ;;
  hash_key (slot, rsize, speed, truthy ecc).

(** The set comprehension [have], element by element. *)
Fixpoint have_keys (ds : list pyval) : res (list dimm_key) :=
  match ds with
  | [] => Ok []
  | d :: ds' =>
      if truthy d
      then k <~ have_key d ;; ks <~ have_keys ds' ;; Ok (k :: ks)
      else have_keys ds'
  end.

(** The key of one expected DIMM. *)
Definition expected_key (e : pyval) : res dimm_key :=
  slot <~ py_getitem e "slot" ;;
  size <~ py_getitem e "size_gib" ;;
  rsize <~ py_round2 size ;;
  speed <~ py_get e "speed_mt" PNone ;;
  ecc <~ py_get e "ecc" (PBool true) ;;
  hash_key (slot, rsize, speed, truthy ecc).

(** The loop that collects [missing]. *)
Fixpoint missing_slots (have : list dimm_key) (es : list pyval)
    : res (list pyval) :=
  match es with
  | [] => Ok []
  | e :: es' =>
      tup <~ expected_key e ;;
      if negb (existsb (dimm_key_eqb tup) have)
      then slot <~ py_getitem e "slot" ;;
           rest <~ missing_slots have es' ;;
           Ok (slot :: rest)
      else missing_slots have es'
  end.

Definition all_expected_dimms (parsed : gmap string pyval)
    (expected_dimms : pyval) : res (bool * note) :=
  ds <~ py_iter (default (PList []) (parsed !! "dimms")) ;;
  have <~ have_keys ds ;;
  es <~ py_iter expected_dimms ;;
  missing <~ missing_slots have es ;;
  let ok := (length missing =? 0)%nat in
  Ok (ok_note ok (if ok then NoteAllDimmsPresent
                  else NoteMissingMismatch missing)).

(** ** exec_pool.py *)

Definition OUTPUT_CAP : N := 262144.
Definition ERR_CAP : N := 131072.

(** What one secure-shell session does: the command completes with an exit
    status and its two captured streams ([None] when a stream is absent),
    [asyncio.wait_for] raises [TimeoutError], or connecting or running
    raises another exception with the given text. *)
Inductive remote_reply :=
| Completed (exit_status : Z) (out err : option string)
| TimedOut
| Failed (text : string).

(** A session together with the wall-clock time it took. *)
Record session := { reply : remote_reply; elapsed_ms : Z }.

(** The remote side: the answer to the [n]-th call of [run_cmd], given
    the host, the command and the timeout. *)
Definition remote : Type := nat -> string -> string -> Z -> session.

Definition run_cmd (w : session) : RawResult.t :=
  match reply w with
  | Completed exit_status res_stdout res_stderr =>
      let out := take_str OUTPUT_CAP (default "" res_stdout) in
      let err := take_str ERR_CAP (default "" res_stderr) in
      {| RawResult.step_id := "";
         RawResult.exit_code := exit_status;
         RawResult.stdout := out;
         RawResult.stderr := err;
         RawResult.duration_ms := elapsed_ms w;
         RawResult.truncated :=
           (OUTPUT_CAP <? len (default "" res_stdout))%N
           || (ERR_CAP <? len (default "" res_stderr))%N |}
  | TimedOut =>
      {| RawResult.step_id := "";
         RawResult.exit_code := 124;
         RawResult.stdout := "";
         RawResult.stderr := "TIMEOUT";
         RawResult.duration_ms := elapsed_ms w;
         RawResult.truncated := false |}
  | Failed text =>
      {| RawResult.step_id := "";
         RawResult.exit_code := 255;
         RawResult.stdout := "";
         RawResult.stderr := text;
         RawResult.duration_ms := elapsed_ms w;
         RawResult.truncated := false |}
  end.

(** The events of a job; the constructor is the value of the key ["t"]. *)
Inductive event :=
| plan_preview (steps : list ExecStep.t)
| step_start (id cmd : string)
| step_result (id : string) (exit ms : Z)
| verdict (status summary : string).

(** [rr.step_id = s.id]. *)
Definition set_step_id (rr : RawResult.t) (i : string) : RawResult.t :=
  {| RawResult.step_id := i;
     RawResult.exit_code := RawResult.exit_code rr;
     RawResult.stdout := RawResult.stdout rr;
     RawResult.stderr := RawResult.stderr rr;
     RawResult.duration_ms := RawResult.duration_ms rr;
     RawResult.truncated := RawResult.truncated rr |}.

(** The loop of [execute_plan] from call number [n] on. [on_event] tells
    whether a sink is given; the events are returned in emission order. *)
Fixpoint execute_steps (env : remote) (host : string) (on_event : bool)
    (n : nat) (l : list ExecStep.t) : list RawResult.t * list event :=
  match l with
  | [] => ([], [])
  | s :: l' =>
      let ev1 :=
        if on_event then [step_start (ExecStep.id s) (ExecStep.cmd s)]
        else [] in
      let rr :=
        set_step_id
          (run_cmd (env n host (ExecStep.cmd s) (ExecStep.timeout_s s)))
          (ExecStep.id s) in
      let ev2 :=
        if on_event
        then [step_result (ExecStep.id s) (RawResult.exit_code rr)
                          (RawResult.duration_ms rr)]
        else [] in
      let '(results, evs) := execute_steps env host on_event (S n) l' in
      (rr :: results, (ev1 ++ ev2 ++ evs)%list)
  end.

Definition execute_plan (env : remote) (host : string) (plan : ExecPlan.t)
    (on_event : bool) : list RawResult.t * list event :=
  execute_steps env host on_event 0 (ExecPlan.steps plan).

(** [next((s.args.get("iface") for s in steps if
    s.action.startswith("read_nic")), "eth0")]. *)
Fixpoint first_nic_iface (l : list ToDoStep.t) : pyval :=
  match l with
  | [] => PStr "eth0"
  | s :: l' =>
      if startswith (ToDoStep.action s) "read_nic"
      then default PNone (ToDoStep.args s !! "iface")
      else first_nic_iface l'
  end.

(** [v == s] for a value and a string. *)
Definition py_is_str (v : option pyval) (s : string) : bool :=
  match v with
  | Some (PStr s') => String.eqb s' s
  | _ => false
  end.

Definition with_steps (dsl : ToDoDSL.t) (l : list ToDoStep.t) : ToDoDSL.t :=
  {| ToDoDSL.job_id := ToDoDSL.job_id dsl;
     ToDoDSL.profile := ToDoDSL.profile dsl;
     ToDoDSL.target := ToDoDSL.target dsl;
     ToDoDSL.context := ToDoDSL.context dsl;
     ToDoDSL.prechecks := ToDoDSL.prechecks dsl;
     ToDoDSL.steps := l;
     ToDoDSL.postchecks := ToDoDSL.postchecks dsl;
     ToDoDSL.success_criteria := ToDoDSL.success_criteria dsl |}.

Definition critic_propose_patch (dsl : ToDoDSL.t)
    (failure : gmap string pyval) : option ToDoDSL.t :=
  let comp := ToDoDSL.context dsl !! "component" in
  if py_is_str comp "nic" && py_is_str (failure !! "parser") "parse_ethtool"
  then
    let iface := first_nic_iface (ToDoDSL.steps dsl) in
    let patch :=
      {| ToDoStep.id := "s_fallback_sysfs";
         ToDoStep.action := "read_sysfs_nic";
         ToDoStep.args := {[ "iface" := iface ]};
         ToDoStep.timeout_s := 5;
         ToDoStep.parser := Some "parse_sysfs_nic";
         ToDoStep.validator := None |} in
    if negb (existsb (fun s => String.eqb (ToDoStep.id s) (ToDoStep.id patch))
                     (ToDoDSL.steps dsl))
    then Some (with_steps dsl (ToDoDSL.steps dsl ++ [patch])%list)
    else None
  else None.

(** ** runner.py *)

Module PerStep.
Record t := { id : string; ok : bool; notes : note }.
End PerStep.

Module VerificationResult.
Record t := {
  status : string;
  summary : string;
  per_step : list PerStep.t;
  evidence : list (gmap string string)
}.
End VerificationResult.

(** One entry of [JOBS]. [events] is the content of the job's queue,
    oldest event first: [put] appends, [get] removes the head. *)
Module Job.
Record t := {
  dsl : ToDoDSL.t;
  plan : ExecPlan.t;
  events : list event;
  result : option VerificationResult.t
}.
End Job.

(** [s.split(sep)], with [cur] the piece being read. *)
Fixpoint split_on (sep : ascii) (cur : string) (s : string) : list string :=
  match s with
  | EmptyString => [cur]
  | String c s' =>
      if Ascii.eqb c sep then cur :: split_on sep "" s'
      else split_on sep (cur ++ String c "") s'
  end.

(** [s.split(sep, 1)] when [sep] occurs in [s]: before and after the
    first occurrence. *)
Fixpoint split_first (sep : ascii) (s : string) : string * string :=
  match s with
  | EmptyString => (EmptyString, EmptyString)
  | String c s' =>
      if Ascii.eqb c sep then (EmptyString, s')
      else let '(a, b) := split_first sep s' in (String c a, b)
  end.

(** [str.isdigit] on one character, for code points below 256: the
    digits 0..9 and the superscripts U+00B2, U+00B3, U+00B9. *)
Definition is_digit_char (c : ascii) : bool :=
  let n := N_of_ascii c in
  (is_digit c || (n =? 178) || (n =? 179) || (n =? 185))%N.

Fixpoint all_chars (p : ascii -> bool) (s : string) : bool :=
  match s with
  | EmptyString => true
  | String c s' => p c && all_chars p s'
  end.

(** [s.isdigit()]. *)
Definition isdigit (s : string) : bool :=
  negb (String.eqb s "") && all_chars is_digit_char s.

(** [int(s)] on a string for which [isdigit] holds: a superscript digit
    is no decimal literal. *)
Definition py_int (s : string) : res Z :=
  if all_chars is_digit s then Ok (int_of_digits s)
  else Raise (ValueError ("invalid literal for int() with base 10: " ++ s)).

Section Runner.

(** The callables of the two registries that are not modelled here, by
    registry name, and the constructor [float(s)] ([None] when it raises
    [ValueError]). *)
Variable other_parser : string -> string -> res (gmap string pyval).
Variable other_validator :
  string -> gmap string pyval -> list pyval -> res (bool * note).
Variable py_float : string -> option float.

Definition OTHER_PARSERS : list string :=
  [ "parse_dmidecode"; "parse_ethtool"; "parse_ethtool_stats";
    "parse_sysfs_nic"; "parse_smart"; "parse_ipmi_psu"; "parse_ipmi_fans";
    "parse_ipmi_thermal"; "parse_dmesg"; "parse_os_release" ].

Definition OTHER_VALIDATORS : list string :=
  [ "nic_link_up"; "nic_speed_at_least"; "nic_no_errors"; "disk_smart_pass";
    "no_critical_logs" ].

(** [PARSERS.get(name)]. *)
Definition PARSERS (name : string)
    : option (string -> res (gmap string pyval)) :=
  if String.eqb name "parse_meminfo" then Some parse_meminfo
  else if str_in name OTHER_PARSERS then Some (other_parser name)
  else None.

(** Calling [total_mem_within_pct(parsed, *args)]: two optional
    positional parameters with the defaults 16.0 and 2.0. *)
Definition call_total_mem_within_pct (parsed : gmap string pyval)
    (args : list pyval) : res (bool * note) :=
  match args with
  | [] => total_mem_within_pct parsed (PFloat f16) (PFloat f2)
  | [e] => total_mem_within_pct parsed e (PFloat f2)
  | [e; p] => total_mem_within_pct parsed e p
  | _ => Raise TypeError
  end.

(** Calling [all_expected_dimms(parsed, *args)]: one required parameter. *)
Definition call_all_expected_dimms (parsed : gmap string pyval)
    (args : list pyval) : res (bool * note) :=
  match args with
  | [e] => all_expected_dimms parsed e
  | _ => Raise TypeError
  end.

(** [VALIDATORS.get(name)]. *)
Definition VALIDATORS (name : string)
    : option (gmap string pyval -> list pyval -> res (bool * note)) :=
  if String.eqb name "total_mem_within_pct" then Some call_total_mem_within_pct
  else if String.eqb name "all_expected_dimms" then Some call_all_expected_dimms
  else if str_in name OTHER_VALIDATORS then Some (other_validator name)
  else None.

(** The best-effort cast of one argument: [int], then [float], then the
    string itself. *)
Definition cast_arg (a : string) : res pyval :=
  if isdigit a then z <~ py_int a ;; Ok (PInt z)
  else match py_float a with
       | Some f => Ok (PFloat f)
       | None => Ok (PStr a)
       end.

Fixpoint cast_args (l : list string) : res (list pyval) :=
  match l with
  | [] => Ok []
  | a :: l' => v <~ cast_arg a ;; vs <~ cast_args l' ;; Ok (v :: vs)
  end.

Definition _parse_validator_spec (spec : string)
    : res (string * list pyval) :=
  if negb (contains "(" spec) then Ok (spec, [])
  else
    let '(name, rest) := split_first "(" spec in
    let rest := rstrip_by (Ascii.eqb ")") rest in
    let raw_args :=
      List.filter (fun a => negb (String.eqb a ""))
                  (List.map strip (split_on "," "" rest)) in
    args <~ cast_args raw_args ;;
    Ok (name, args).

(** [ctx.get("expected_total_gib") or
     ctx.get("expected", {}).get("total_gib")]. *)
Definition ctx_expected_total_gib (ctx : gmap string pyval) : res pyval :=
  let first := default PNone (ctx !! "expected_total_gib") in
  if truthy first then Ok first
  else py_get (default (PDict ∅) (ctx !! "expected")) "total_gib" PNone.

(** The context-driven defaults of the arguments. *)
Definition default_args (ctx : gmap string pyval) (v_name : string)
    (args : list pyval) : res (list pyval) :=
  args1 <~ (if String.eqb v_name "total_mem_within_pct"
               && (length args =? 0)%nat
            then exp <~ ctx_expected_total_gib ctx ;;
                 Ok [exp; default (PInt 2) (ctx !! "pct")]
            else Ok args) ;;
  if String.eqb v_name "all_expected_dimms" && (length args1 =? 0)%nat
  then Ok [default (PList []) (ctx !! "expected_dimms")]
  else Ok args1.

(** The first half of the body of the judging loop: parse the stdout of
    the step's raw result. *)
Definition run_parser (step : ExecStep.t) (rr : RawResult.t)
    : res (gmap string pyval) :=
  let parser_fn :=
    match ExecStep.parser step with
    | Some p => if String.eqb p "" then None else PARSERS p
    | None => None
    end in
  match parser_fn with
  | Some fn => fn (RawResult.stdout rr)
  | None => Ok {[ "raw_len" := PInt (Z.of_N (len (RawResult.stdout rr))) ]}
  end.

(** The second half: validate what was parsed. *)
Definition run_validator (ctx : gmap string pyval) (step : ExecStep.t)
    (parsed : gmap string pyval) : res PerStep.t :=
  let spec := default "" (ExecStep.validator step) in
  if String.eqb spec ""
  then Ok {| PerStep.id := ExecStep.id step; PerStep.ok := true;
             PerStep.notes := NoteEmpty |}
  else
    parsed_spec <~ _parse_validator_spec spec ;;
    let '(v_name, args) := parsed_spec in
    match VALIDATORS v_name with
    | Some vfn =>
        args <~ default_args ctx v_name args ;;
        verdict_of_step <~ vfn parsed args ;;
        let '(ok, n) := verdict_of_step in
        Ok {| PerStep.id := ExecStep.id step; PerStep.ok := ok;
              PerStep.notes := n |}
    | None =>
        Ok {| PerStep.id := ExecStep.id step; PerStep.ok := false;
              PerStep.notes := NoteUnknownValidator v_name |}
    end.

(** The body of the judging loop for one step and its raw result. *)
Definition judge_step (ctx : gmap string pyval) (step : ExecStep.t)
    (rr : RawResult.t) : res PerStep.t :=
  parsed <~ run_parser step rr ;;
  run_validator ctx step parsed.

(** The judging loop over [zip(plan.steps, raw)]. *)
Fixpoint judge (ctx : gmap string pyval) (steps : list ExecStep.t)
    (raw : list RawResult.t) : res (list PerStep.t) :=
  match steps, raw with
  | step :: steps', rr :: raw' =>
      p <~ judge_step ctx step rr ;;
      ps <~ judge ctx steps' raw' ;;
      Ok (p :: ps)
  | _, _ => Ok []
  end.

(** The bundle that [submit_job] stores for an accepted job: an empty
    queue and no result. *)
Definition new_job (dsl : ToDoDSL.t) (plan : ExecPlan.t) : Job.t :=
  {| Job.dsl := dsl; Job.plan := plan; Job.events := [];
     Job.result := None |}.

Definition with_events (b : Job.t) (evs : list event) : Job.t :=
  {| Job.dsl := Job.dsl b; Job.plan := Job.plan b;
     Job.events := evs; Job.result := Job.result b |}.

Definition with_result (b : Job.t) (r : VerificationResult.t) : Job.t :=
  {| Job.dsl := Job.dsl b; Job.plan := Job.plan b;
     Job.events := Job.events b; Job.result := Some r |}.

(** The pipeline of [_run_job_thread] on the job's bundle: the bundle
    when the thread ends, and the exception that ended it, if any. *)
Definition run_job (env : remote) (bundle : Job.t) : Job.t * option exn :=
  let dsl := Job.dsl bundle in
  let plan := Job.plan bundle in
  let '(raw, evs) :=
    execute_plan env (host (ToDoDSL.target dsl)) plan true in
  let bundle := with_events bundle (Job.events bundle ++ evs)%list in
  match judge (ToDoDSL.context dsl) (ExecPlan.steps plan) raw with
  | Raise e => (bundle, Some e)
  | Ok per_step =>
      let ok_all := forallb PerStep.ok per_step in
      let status := if ok_all then "SUCCESS" else "FAILED" in
      let summary := if ok_all then "All criteria passed."
                     else "One or more criteria failed." in
      let result :=
        {| VerificationResult.status := status;
           VerificationResult.summary := summary;
           VerificationResult.per_step := per_step;
           VerificationResult.evidence := [] |} in
      let bundle := with_result bundle result in
      (with_events bundle (Job.events bundle ++ [verdict status summary])%list,
       None)
  end.

Definition _run_job_thread (env : remote) (JOBS : gmap string Job.t)
    (job_id : string) : gmap string Job.t * option exn :=
  match JOBS !! job_id with
  | None => (JOBS, Some (KeyError job_id))
  | Some bundle =>
      let '(bundle', e) := run_job env bundle in
      (<[job_id := bundle']> JOBS, e)
  end.

End Runner.

Definition is_verdict (ev : event) : bool :=
  match ev with verdict _ _ => true | _ => false end.

(** No event of [evs] is a verdict. *)
Definition no_verdict (evs : list event) : Prop :=
  Forall (fun ev => is_verdict ev = false) evs.

(** How the generator of [stream_events] ends on a queue that receives
    nothing more: it disconnects after a verdict, or blocks in [get]. *)
Inductive stream_end := Disconnected | Blocked.

(** The loop of the generator: what it yields, and what it leaves in the
    queue. *)
Fixpoint drain (q : list event) : list event * list event * stream_end :=
  match q with
  | [] => ([], [], Blocked)
  | ev :: q' =>
      if is_verdict ev then ([ev], q', Disconnected)
      else let '(ys, rest, st) := drain q' in (ev :: ys, rest, st)
  end.

(** [stream_events] on the job's bundle: the events yielded (as values,
    before [sse_fmt] serialises them), the bundle afterwards and how the
    stream ended. *)
Definition stream_job (bundle : Job.t) : list event * Job.t * stream_end :=
  let '(ys, rest, st) := drain (Job.events bundle) in
  (plan_preview (ExecPlan.steps (Job.plan bundle)) :: ys,
   {| Job.dsl := Job.dsl bundle; Job.plan := Job.plan bundle;
      Job.events := rest; Job.result := Job.result bundle |},
   st).

(** [None] is the 404 answer for an unknown job. *)
Definition stream_events (JOBS : gmap string Job.t) (job_id : string)
    : option (list event * gmap string Job.t * stream_end) :=
  match JOBS !! job_id with
  | None => None
  | Some bundle =>
      let '(ys, bundle', st) := stream_job bundle in
      Some (ys, <[job_id := bundle']> JOBS, st)
  end.

(** ** The specification's reading of the policy *)

(** The token following ["sudo"] among the tokens of a command template. *)
Fixpoint token_after_sudo (toks : list string) : option string :=
  match toks with
  | [] => None
  | t :: rest =>
      if String.eqb t "sudo" then head rest else token_after_sudo rest
  end.

(** A step as the specification allows it: its action exists and is
    read-only, and when the action requires sudo the token following
    ["sudo"] in its template is allow-listed for the profile. *)
Definition spec_step_allowed (prof : Profile.t) (catalog : Catalog.t)
    (s : ToDoStep.t) : bool :=
  match Catalog.actions catalog !! ToDoStep.action s with
  | None => false
  | Some a =>
      default false (CatalogEntry.read_only a)
      && (if default false (CatalogEntry.requires_sudo a)
          then match CatalogEntry.cmd a with
               | Some cmd =>
                   match token_after_sudo (split_ws cmd) with
                   | Some b => str_in b (default [] (Profile.allow_sudo prof))
                   | None => false
                   end
               | None => false
               end
          else true)
  end.

(** A step as the code allows it: the action has a non-empty entry that
    is read-only, and when it requires sudo, either its template starts
    with ["sudo"] and the third whitespace-separated word of the template
    is allow-listed for the profile, or its template does not start with
    ["sudo"] and the empty string is allow-listed. *)
Definition step_allowed (prof : Profile.t) (catalog : Catalog.t)
    (s : ToDoStep.t) : Prop :=
  exists a,
    Catalog.actions catalog !! ToDoStep.action s = Some a
    /\ entry_truthy a = true
    /\ CatalogEntry.read_only a = Some true
    /\ (CatalogEntry.requires_sudo a = Some true ->
        exists cmd,
          CatalogEntry.cmd a = Some cmd
          /\ ((startswith cmd "sudo" = true
               /\ exists w1 w2 w3 rest,
                    split_ws cmd = w1 :: w2 :: w3 :: rest
                    /\ In w3 (default [] (Profile.allow_sudo prof)))
              \/ (startswith cmd "sudo" = false
                  /\ In "" (default [] (Profile.allow_sudo prof))))).

(** ** DIMM inventories, typed *)

(** One DIMM as [parse_dmidecode] reports it (the mapping that
    [_parse_memdev_block] returns). *)
Module ParsedDimm.
Record t := {
  slot : string;
  size_gib : option float;
  speed_mt : option Z;
  type : string;
  ecc : bool
}.
End ParsedDimm.

(** One expected DIMM: [slot] and [size_gib] are required, [speed_mt] and
    [ecc] are optional keys. *)
Module ExpectedDimm.
Record t := {
  slot : string;
  size_gib : num;
  speed_mt : option Z;
  ecc : option bool
}.
End ExpectedDimm.

Definition opt_val {A} (f : A -> pyval) (o : option A) : pyval :=
  match o with Some a => f a | None => PNone end.

Definition num_val (n : num) : pyval :=
  match n with NInt z => PInt z | NFloat f => PFloat f end.

(** A mapping with the five keys of a parsed DIMM. *)
Definition dimm_dict (slot size speed type ecc : pyval) : pyval :=
  PDict {[ "slot" := slot; "size_gib" := size; "speed_mt" := speed;
           "type" := type; "ecc" := ecc ]}.

Definition parsed_dimm_val (d : ParsedDimm.t) : pyval :=
  dimm_dict (PStr (ParsedDimm.slot d))
            (opt_val PFloat (ParsedDimm.size_gib d))
            (opt_val PInt (ParsedDimm.speed_mt d))
            (PStr (ParsedDimm.type d))
            (PBool (ParsedDimm.ecc d)).

(** The parsed record [{"dimms": [...]}]. *)
Definition inventory (ds : list ParsedDimm.t) : gmap string pyval :=
  {[ "dimms" := PList (List.map parsed_dimm_val ds) ]}.

(** A mapping with the keys of an expected DIMM; an optional key is left
    out when its value is [None]. *)
Definition expected_dict (slot size : pyval) (speed ecc : option pyval)
    : pyval :=
  let m : gmap string pyval := {[ "slot" := slot; "size_gib" := size ]} in
  let m := match speed with Some v => <["speed_mt" := v]> m | None => m end in
  let m := match ecc with Some v => <["ecc" := v]> m | None => m end in
  PDict m.

Definition expected_dimm_val (e : ExpectedDimm.t) : pyval :=
  expected_dict (PStr (ExpectedDimm.slot e))
                (num_val (ExpectedDimm.size_gib e))
                (PInt <$> ExpectedDimm.speed_mt e)
                (PBool <$> ExpectedDimm.ecc e).

(** The size of a parsed DIMM as it is compared: an absent or zero size
    counts as the integer 0, any other size is rounded to two places. *)
Definition parsed_size (d : ParsedDimm.t) : num :=
  match ParsedDimm.size_gib d with
  | Some f => if float_is_zero f then NInt 0 else NFloat (float_round2 f)
  | None => NInt 0
  end.

(** The size of an expected DIMM as it is compared. *)
Definition expected_size (e : ExpectedDimm.t) : num :=
  match ExpectedDimm.size_gib e with
  | NInt z => NInt z
  | NFloat f => NFloat (float_round2 f)
  end.

Definition opt_Z_eqb (a b : option Z) : bool :=
  match a, b with
  | Some x, Some y => x =? y
  | None, None => true
  | _, _ => false
  end.

(** The exact match of the specification: an expected DIMM is matched by
    a parsed DIMM with the same slot, the same rounded size, the same
    speed and the same ECC flag (ECC is expected unless stated). *)
Definition dimm_matches (e : ExpectedDimm.t) (d : ParsedDimm.t) : bool :=
  String.eqb (ExpectedDimm.slot e) (ParsedDimm.slot d)
  && num_eqb (expected_size e) (parsed_size d)
  && opt_Z_eqb (ExpectedDimm.speed_mt e) (ParsedDimm.speed_mt d)
  && Bool.eqb (default true (ExpectedDimm.ecc e)) (ParsedDimm.ecc d).

(** The expected DIMMs that no parsed DIMM matches. *)
Definition absent_dimms (ds : list ParsedDimm.t) (es : list ExpectedDimm.t)
    : list ExpectedDimm.t :=
  List.filter (fun e => negb (existsb (dimm_matches e) ds)) es.

(** The keys under which the typed DIMMs are compared. *)
Definition parsed_key (d : ParsedDimm.t) : dimm_key :=
  (PStr (ParsedDimm.slot d), num_val (parsed_size d),
   opt_val PInt (ParsedDimm.speed_mt d), ParsedDimm.ecc d).

Definition wanted_key (e : ExpectedDimm.t) : dimm_key :=
  (PStr (ExpectedDimm.slot e), num_val (expected_size e),
   opt_val PInt (ExpectedDimm.speed_mt e), default true (ExpectedDimm.ecc e)).


(** ** The tolerance check of [total_mem_within_pct(parsed, 16.0, 2.0)] *)

(** The number of binary digits of a mantissa. *)
Definition digits2 (p : positive) : Z := Zpos (digits2_pos p).

(** A result that is an infinity or a finite number of exponent at least
    [-49]: its magnitude is at least 8. *)
Definition is_large (x : float) : Prop :=
  match x with
  | S754_infinity _ => True
  | S754_finite _ _ e => -49 <= e
  | _ => False
  end.

(** The tolerance [16.0 * (2.0 / 100.0)], which is the float nearest
    to 0.32. *)
Definition tol_16_2 : float := S754_finite false 5764607523034235 (-54).

(** The floats written [15.68], [16.32] and [15.0]. *)
Definition f1568 : float := S754_finite false 8827055269646172 (-49).
Definition f1632 : float := S754_finite false 4593671619917906 (-48).
Definition f15 : float := S754_finite false 8444249301319680 (-49).

(** The float next above 15.68 and the float next below 16.32. *)
Definition mem_lo : float := S754_finite false 8827055269646173 (-49).
Definition mem_hi : float := S754_finite false 4593671619917905 (-48).

(** The largest mantissa of a difference at exponent [ez] (one of -49
    and -48) that is within the tolerance. *)
Definition tol_bound (ez : Z) : Z :=
  if ez =? -49 then 180143985094819 else 90071992547409.

(** ** Sample data *)

(** A catalog with one sudo action whose template names the binary right
    after ["sudo"], and one with a flag in between. *)
Definition sample_profile : Profile.t :=
  {| Profile.max_timeout_s := Some 30;
     Profile.allow_sudo := Some ["dmidecode"; "/usr/sbin/ethtool"] |}.

Definition sample_catalog : Catalog.t :=
  {| Catalog.actions :=
       {[ "read_meminfo" :=
            {| CatalogEntry.cmd := Some "cat /proc/meminfo";
               CatalogEntry.read_only := Some true;
               CatalogEntry.requires_sudo := None;
               CatalogEntry.parser := Some "parse_meminfo" |};
          "read_dimms" :=
            {| CatalogEntry.cmd := Some "sudo dmidecode -t memory";
               CatalogEntry.read_only := Some true;
               CatalogEntry.requires_sudo := Some true;
               CatalogEntry.parser := Some "parse_dmidecode" |};
          "read_nic" :=
            {| CatalogEntry.cmd := Some "sudo -n /usr/sbin/ethtool {iface}";
               CatalogEntry.read_only := Some true;
               CatalogEntry.requires_sudo := Some true;
               CatalogEntry.parser := Some "parse_ethtool" |} ]};
     Catalog.profiles := {[ "verify_readonly" := sample_profile ]} |}.

Definition sample_step (i a : string) (p v : option string) : ToDoStep.t :=
  {| ToDoStep.id := i; ToDoStep.action := a; ToDoStep.args := ∅;
     ToDoStep.timeout_s := 10; ToDoStep.parser := p;
     ToDoStep.validator := v |}.

Definition sample_dsl (ctx : gmap string pyval) (l : list ToDoStep.t)
    : ToDoDSL.t :=
  {| ToDoDSL.job_id := "j1"; ToDoDSL.profile := "verify_readonly";
     ToDoDSL.target := {| host := "h" |}; ToDoDSL.context := ctx;
     ToDoDSL.prechecks := []; ToDoDSL.steps := l;
     ToDoDSL.postchecks := []; ToDoDSL.success_criteria := [] |}.

(** Stand-ins for the callables that are not modelled, and a remote side
    that answers every command with the same output. *)
Definition sample_parser : string -> string -> res (gmap string pyval) :=
  fun _ _ => Ok ∅.

Definition sample_validator
    : string -> gmap string pyval -> list pyval -> res (bool * note) :=
  fun _ _ _ => Ok (true, NoteText "").

Definition sample_float : string -> option float := fun _ => None.

Definition sample_remote (out : string) : remote :=
  fun _ _ _ _ =>
    {| reply := Completed 0 (Some out) (Some ""); elapsed_ms := 12 |}.

(** An output of 262144 characters U+00E9. *)
Definition sample_wide_output : string :=
  Pos.iter (String "233") "" 262144.

Definition sample_exec_step (v : option string) : ExecStep.t :=
  {| ExecStep.id := "s1"; ExecStep.cmd := "cat /proc/meminfo";
     ExecStep.timeout_s := 10; ExecStep.parser := Some "parse_meminfo";
     ExecStep.validator := v |}.

(* ===================================================================== *)
(** * Part I, continued. The rest of the package                          *)
(* ===================================================================== *)

(** ** preflight.py: [compile_plan] *)

Section Compile.

(** [cmd_tpl.format] called with the keywords [fmt_vars], the formatting
    of the standard library, and [str(e)] for the [KeyError] it raises on
    an absent field. *)
Variable str_format : string -> gmap string pyval -> res string.
Variable py_repr : string -> string.

(** [step.parser or entry.get("parser")]. *)
Definition parser_or_default (p d : option string) : option string :=
  match p with
  | Some s => if String.eqb s "" then d else Some s
  | None => d
  end.

(** [catalog.profiles[dsl.profile]["max_timeout_s"]]. *)
Definition profile_max_timeout (dsl : ToDoDSL.t) (catalog : Catalog.t)
    : res Z :=
  match Catalog.profiles catalog !! ToDoDSL.profile dsl with
  | None => Raise (KeyError (ToDoDSL.profile dsl))
  | Some prof =>
      match Profile.max_timeout_s prof with
      | None => Raise (KeyError "max_timeout_s")
      | Some m => Ok m
      end
  end.

(** The body of the loop of [compile_plan], for one step. *)
Definition compile_step (dsl : ToDoDSL.t) (catalog : Catalog.t)
    (step : ToDoStep.t) : res ExecStep.t :=
  let name := ToDoStep.action step in
  match Catalog.actions catalog !! name with
  | None => Raise (ValueError ("Unknown action: " ++ name))
  | Some entry =>
      match CatalogEntry.cmd entry with
      | None => Raise (KeyError "cmd")
      | Some cmd_tpl =>
          let fmt_vars :=
            <["host" := PStr (host (ToDoDSL.target dsl))]>
              (ToDoStep.args step) in
          cmd <~ match str_format cmd_tpl fmt_vars with
                 | Raise (KeyError k) =>
                     Raise (ValueError ("Missing arg " ++ py_repr k
                                        ++ " for action " ++ name))
                 | r => r
                 end ;;
          max <~ profile_max_timeout dsl catalog ;;
          Ok {| ExecStep.id := ToDoStep.id step;
                ExecStep.cmd := cmd;
                ExecStep.timeout_s := Z.min (ToDoStep.timeout_s step) max;
                ExecStep.parser :=
                  parser_or_default (ToDoStep.parser step)
                                    (CatalogEntry.parser entry);
                ExecStep.validator := ToDoStep.validator step |}
      end
  end.

Fixpoint compile_steps (dsl : ToDoDSL.t) (catalog : Catalog.t)
    (l : list ToDoStep.t) : res (list ExecStep.t) :=
  match l with
  | [] => Ok []
  | step :: l' =>
      s <~ compile_step dsl catalog step ;;
      rest <~ compile_steps dsl catalog l' ;;
      Ok (s :: rest)
  end.

Definition compile_plan (dsl : ToDoDSL.t) (catalog : Catalog.t)
    : res ExecPlan.t :=
  steps <~ compile_steps dsl catalog (ToDoDSL.steps dsl) ;;
  Ok {| ExecPlan.steps := steps |}.

(** ** runner.py: [submit_job] and [get_result] *)

(** The answer to a submission: 202 with the job id, or [abort] with a
    status code, the stage that failed and the exception it raised. *)
Inductive submit_reply :=
| Accepted (job_id : string)
| Aborted (code : Z) (stage : string) (e : option exn).

(** The loop [for s in plan.steps: static_audit(s.cmd)]. *)
Fixpoint audit_steps (l : list ExecStep.t) : res unit :=
  match l with
  | [] => Ok tt
  | s :: l' => _ <~ static_audit (ExecStep.cmd s) ;; audit_steps l'
  end.

(** [submit_job] from the validated DSL on: the reply and the job store
    afterwards. The worker thread it starts is [_run_job_thread]. *)
Definition submit_job (catalog : Catalog.t) (JOBS : gmap string Job.t)
    (dsl : ToDoDSL.t) : submit_reply * gmap string Job.t :=
  match policy_gate dsl catalog with
  | Raise e => (Aborted 400 "Policy gate failed" (Some e), JOBS)
  | Ok _ =>
      match compile_plan dsl catalog with
      | Raise e => (Aborted 400 "Compile error" (Some e), JOBS)
      | Ok plan =>
          match audit_steps (ExecPlan.steps plan) with
          | Raise e => (Aborted 400 "Safety audit failed" (Some e), JOBS)
          | Ok _ =>
              let job_id := ToDoDSL.job_id dsl in
              match JOBS !! job_id with
              | Some _ => (Aborted 409 "job_id already exists" None, JOBS)
              | None => (Accepted job_id, <[job_id := new_job dsl plan]> JOBS)
              end
          end
      end
  end.

End Compile.

(** The answer of [get_result]. *)
Inductive result_reply :=
| UnknownJob
| NotReady
| Ready (r : VerificationResult.t).

Definition get_result (JOBS : gmap string Job.t) (job_id : string)
    : result_reply :=
  match JOBS !! job_id with
  | None => UnknownJob
  | Some bundle =>
      match Job.result bundle with
      | None => NotReady
      | Some r => Ready r
      end
  end.

(** ** exec_pool.py: the events of one step *)

(** What [execute_plan] hands to [on_event] around one step. *)
Definition step_events (s : ExecStep.t) (rr : RawResult.t) : list event :=
  [step_start (ExecStep.id s) (ExecStep.cmd s);
   step_result (ExecStep.id s) (RawResult.exit_code rr)
               (RawResult.duration_ms rr)].

(** ** exec_pool.py: the step of the patch *)

(** The step [patch] that [critic_propose_patch] builds for the
    interface [iface]. *)
Definition fallback_patch (iface : pyval) : ToDoStep.t :=
  {| ToDoStep.id := "s_fallback_sysfs";
     ToDoStep.action := "read_sysfs_nic";
     ToDoStep.args := {[ "iface" := iface ]};
     ToDoStep.timeout_s := 5;
     ToDoStep.parser := Some "parse_sysfs_nic";
     ToDoStep.validator := None |}.

(** ** parsers.py: the line-oriented parsers *)

(** A line boundary of [str.splitlines], for code points below 256:
    U+000A..U+000D, U+001C..U+001E and U+0085. *)
Definition is_linebreak (c : ascii) : bool :=
  let n := N_of_ascii c in
  (((10 <=? n) && (n <=? 13)) || ((28 <=? n) && (n <=? 30)) || (n =? 133))%N.

(** [s.splitlines()], with [cur] the line being read: a carriage return
    followed by a line feed is one boundary, and a boundary at the very
    end opens no further line. *)
Fixpoint splitlines_from (cur : string) (s : string) : list string :=
  match s with
  | EmptyString => if String.eqb cur "" then [] else [cur]
  | String c s' =>
      if is_linebreak c then
        cur :: match s' with
               | EmptyString => []
               | String c' s'' =>
                   if Ascii.eqb c "013" && Ascii.eqb c' "010"
                   then splitlines_from "" s''
                   else splitlines_from "" s'
               end
      else splitlines_from (cur ++ String c "") s'
  end.

Definition splitlines (s : string) : list string := splitlines_from "" s.

(** The alternatives of the pattern [(fatal|panic|mce|uncorrected)]. *)
Definition CRITICAL_WORDS : list string :=
  [ "fatal"; "panic"; "mce"; "uncorrected" ].

(** [re.search(r"(fatal|panic|mce|uncorrected)", l, re.I)]: one of the
    words occurs in [l], letter case ignored. Below code point 256 only
    the letters A..Z fold to the letters of the pattern. *)
Definition search_critical (l : string) : bool :=
  existsb (fun w => contains w (lower l)) CRITICAL_WORDS.

Definition parse_dmesg (text : string) : res (gmap string pyval) :=
  let crit := List.filter search_critical (splitlines text) in
  Ok {[ "critical" := PList (PStr <$> crit) ]}.

Definition parse_ipmi_psu (text : string) : res (gmap string pyval) :=
  let ok := negb (existsb (fun l => contains "fail" (lower l))
                          (splitlines text)) in
  Ok {[ "psu_ok" := PBool ok ]}.

(** ** validators.py: [no_critical_logs] *)

(** [len(v)]. *)
Definition py_len (v : pyval) : res nat :=
  match v with
  | PStr s => Ok (N.to_nat (len s))
  | PList l => Ok (length l)
  | PDict d => Ok (size d)
  | _ => Raise TypeError
  end.

(** The note of [no_critical_logs], before it is formatted. *)
Inductive log_note :=
| NoteNoCritical
| NoteCriticalLines (n : nat).

Definition no_critical_logs (parsed : gmap string pyval)
    : res (bool * log_note) :=
  let crit := default (PList []) (parsed !! "critical") in
  n <~ py_len crit ;;
  let ok := (n =? 0)%nat in
  Ok (ok, if ok then NoteNoCritical else NoteCriticalLines n).

(** ** Sample data, continued *)

(** Stand-ins for [str.format] and [str(e)]: a formatter that returns the
    template unchanged, and the quoted key. *)
Definition sample_format : string -> gmap string pyval -> res string :=
  fun tpl _ => Ok tpl.

Definition sample_repr : string -> string := fun k => "'" ++ k ++ "'".

(* ===================================================================== *)
(** * Part II. Properties                                                 *)
(* ===================================================================== *)

(** ** Strings *)

Lemma startswith_app (s p t : string) :
  startswith s p = true -> startswith (s ++ t) p = true.
Proof.
  revert s; induction p as [|a p IH]; intros s H; [reflexivity|].
  destruct s as [|b s]; simpl in *; [discriminate|].
  apply andb_true_iff in H as [H1 H2].
  rewrite H1; simpl; auto.
Qed.

Lemma startswith_self_app (p t : string) : startswith (p ++ t) p = true.
Proof.
  induction p as [|a p IH]; simpl; [reflexivity|].
  rewrite Ascii.eqb_refl; exact IH.
Qed.

Lemma contains_cons (p s : string) (c : ascii) :
  contains p s = true -> contains p (String c s) = true.
Proof.
  intros H. cbn [contains]. rewrite H. apply orb_true_r.
Qed.

Lemma contains_app_l (p s t : string) :
  contains p s = true -> contains p (t ++ s) = true.
Proof.
  intros H; induction t as [|c t IH]; simpl; [exact H|].
  rewrite IH. apply orb_true_r.
Qed.

Lemma contains_app_r (p s t : string) :
  contains p s = true -> contains p (s ++ t) = true.
Proof.
  induction s as [|c s IH]; intros H.
  - destruct p; [destruct t; reflexivity | discriminate].
  - cbn [contains] in H. apply orb_true_iff in H as [H|H].
    + change (String c s ++ t) with (String c (s ++ t)).
      cbn [contains].
      change (String c (s ++ t)) with (String c s ++ t).
      rewrite (startswith_app _ _ t H). reflexivity.
    + change (String c s ++ t) with (String c (s ++ t)).
      apply contains_cons; auto.
Qed.

Lemma contains_middle (a p q : string) : contains a (p ++ a ++ q) = true.
Proof.
  apply contains_app_l.
  destruct (a ++ q) eqn:E; cbn [contains]; rewrite <- E;
    rewrite startswith_self_app; reflexivity.
Qed.

Lemma startswith_refl (s : string) : startswith s s = true.
Proof.
  induction s as [|c s IH]; simpl; [reflexivity|].
  now rewrite Ascii.eqb_refl.
Qed.

Lemma contains_suffix (a p : string) : contains a (p ++ a) = true.
Proof.
  apply contains_app_l.
  destruct a; cbn [contains]; rewrite startswith_refl; reflexivity.
Qed.

Lemma lower_app (s t : string) : lower (s ++ t) = lower s ++ lower t.
Proof. induction s as [|c s IH]; simpl; [reflexivity | now rewrite IH]. Qed.

Lemma startswith_lower (s p : string) :
  startswith s p = true -> startswith (lower s) (lower p) = true.
Proof.
  revert s; induction p as [|a p IH]; intros s H; [reflexivity|].
  destruct s as [|b s]; simpl in *; [discriminate|].
  apply andb_true_iff in H as [H1 H2].
  apply Ascii.eqb_eq in H1; subst b.
  rewrite Ascii.eqb_refl; simpl; auto.
Qed.

Lemma contains_lower (s p : string) :
  contains p s = true -> contains (lower p) (lower s) = true.
Proof.
  induction s as [|c s IH]; intros H.
  - destruct p; [reflexivity | discriminate].
  - cbn [contains] in H. apply orb_true_iff in H as [H|H].
    + cbn [lower contains].
      change (String (lower_char c) (lower s)) with (lower (String c s)).
      rewrite (startswith_lower _ _ H). reflexivity.
    + cbn [lower]. apply contains_cons; auto.
Qed.

Lemma str_in_In (x : string) (l : list string) : str_in x l = true <-> In x l.
Proof.
  unfold str_in. rewrite existsb_exists. split.
  - intros (y & Hy & E). apply String.eqb_eq in E. now subst.
  - intros H. exists x. split; [exact H | apply String.eqb_refl].
Qed.

(** ** preflight.py: [static_audit] *)

Lemma deny_patterns_lower (p : string) : In p DENY_PATTERNS -> lower p = p.
Proof.
  unfold DENY_PATTERNS; simpl.
  intros H; repeat (destruct H as [<-|H]; [reflexivity|]); destruct H.
Qed.

Lemma static_audit_loop_ok (low : string) (ps : list string) :
  static_audit_loop low ps = Ok tt <->
  forall p, In p ps -> contains p low = false.
Proof.
  induction ps as [|p ps IH]; simpl.
  - split; [intros _ p [] | reflexivity].
  - destruct (contains p low) eqn:E.
    + split; [discriminate|]. intros H. rewrite (H p) in E; [discriminate|auto].
    + rewrite IH. split.
      * intros H q [<-|Hq]; auto.
      * intros H q Hq; auto.
Qed.

Lemma static_audit_loop_raise (low : string) (ps : list string) :
  static_audit_loop low ps <> Ok tt ->
  exists q, In q ps /\ contains q low = true
            /\ static_audit_loop low ps
               = Raise (ValueError ("Denied pattern in cmd: " ++ strip q)).
Proof.
  induction ps as [|p ps IH]; simpl; [congruence|].
  destruct (contains p low) eqn:E.
  - intros _. exists p. auto.
  - intros H. destruct (IH H) as (q & Hq & Hc & Hr). exists q. auto.
Qed.

Lemma contains_padded_lower (cmd p : string) :
  In p DENY_PATTERNS -> contains p cmd = true ->
  contains p (lower (" " ++ cmd ++ " ")) = true.
Proof.
  intros Hp Hc. rewrite <- (deny_patterns_lower p Hp).
  apply contains_lower. apply contains_app_l, contains_app_r, Hc.
Qed.

(** C2, as the specification states it, fails: the command
    [rm -rf /tmp/x] contains none of the deny-listed substrings (the
    pattern is [" rm "], with a space on each side), and [static_audit]
    rejects it all the same, because it pads the command with spaces. *)
Lemma static_audit_claim_counterexample :
  forallb (fun p => negb (contains p "rm -rf /tmp/x")) DENY_PATTERNS = true
  /\ static_audit "rm -rf /tmp/x"
     = Raise (ValueError "Denied pattern in cmd: rm").
Proof. split; reflexivity. Qed.

(** C2 (amended). [static_audit] succeeds exactly when the command, padded
    with one space on each side and lower-cased, contains no deny-listed
    substring. Otherwise it raises, naming (stripped of its spaces) a
    pattern that the padded lower-cased command contains. In particular
    every command that itself contains a deny-listed substring is
    rejected, whatever action produced it. *)
Theorem static_audit_padded_lower (cmd : string) :
  let low := lower (" " ++ cmd ++ " ") in
  (static_audit cmd = Ok tt <->
   forall p, In p DENY_PATTERNS -> contains p low = false)
  /\ (static_audit cmd <> Ok tt ->
      exists q, In q DENY_PATTERNS /\ contains q low = true
                /\ static_audit cmd
                   = Raise (ValueError ("Denied pattern in cmd: " ++ strip q)))
  /\ (forall p, In p DENY_PATTERNS -> contains p cmd = true ->
      static_audit cmd <> Ok tt).
Proof.
  intros low. split; [apply static_audit_loop_ok|].
  split; [apply static_audit_loop_raise|].
  intros p Hp Hc Hok.
  apply static_audit_loop_ok with (p := p) in Hok; [|exact Hp].
  fold low in Hok. unfold low in Hok.
  rewrite (contains_padded_lower cmd p Hp Hc) in Hok. discriminate.
Qed.

Lemma static_audit_padded_lower_witness :
  static_audit "sudo shutdown -h now" <> Ok tt.
Proof.
  refine (proj2 (proj2 (static_audit_padded_lower "sudo shutdown -h now"))
            "shutdown" _ _).
  - simpl. tauto.
  - reflexivity.
Defined.

(** ** preflight.py: [policy_gate] *)

(** The word that the gate compares with [allow_sudo]: the third word of
    a template that starts with ["sudo"], the empty string for any other
    template. *)
Lemma sudo_bin_path_third_word (cmd bin : string) :
  sudo_bin_path cmd = Ok bin <->
  (startswith cmd "sudo" = true
   /\ exists w1 w2 rest, split_ws cmd = w1 :: w2 :: bin :: rest)
  \/ (startswith cmd "sudo" = false /\ bin = "").
Proof.
  unfold sudo_bin_path. destruct (startswith cmd "sudo").
  - destruct (split_ws cmd) as [|w1 [|w2 [|w3 rest]]]; cbn [nth_error].
    + split; [discriminate|].
      intros [(_ & ? & ? & ? & [=])|[[=] _]].
    + split; [discriminate|].
      intros [(_ & ? & ? & ? & [=])|[[=] _]].
    + split; [discriminate|].
      intros [(_ & ? & ? & ? & [=])|[[=] _]].
    + split.
      * intros [= <-]. left. split; [reflexivity|]. eauto.
      * intros [(_ & ? & ? & ? & [= _ _ -> _])|[[=] _]]. reflexivity.
  - split.
    + intros [= <-]. right. split; reflexivity.
    + intros [([=] & _)|(_ & ->)]. reflexivity.
Qed.

Lemma policy_gate_step_ok (prof : Profile.t) (catalog : Catalog.t)
    (s : ToDoStep.t) :
  policy_gate_step prof catalog s = Ok tt <-> step_allowed prof catalog s.
Proof.
  unfold policy_gate_step, step_allowed.
  destruct (Catalog.actions catalog !! ToDoStep.action s) as [a|] eqn:Ha.
  2:{ split; [discriminate | intros (a & Hx & _); discriminate]. }
  destruct (entry_truthy a) eqn:Ht; simpl.
  2:{ split; [discriminate|]. intros (a' & Hx & Ht' & _).
      injection Hx as <-. congruence. }
  destruct (CatalogEntry.read_only a) as [[|]|] eqn:Hr; simpl;
    try (split; [discriminate|]; intros (a' & Hx & _ & Hr' & _);
         injection Hx as <-; congruence).
  destruct (CatalogEntry.requires_sudo a) as [[|]|] eqn:Hs; simpl;
    try (split; [|reflexivity]; intros _; exists a;
         repeat split; auto; intros; congruence).
  destruct (CatalogEntry.cmd a) as [cmd|] eqn:Hc.
  2:{ split; [discriminate|]. intros (a' & Hx & _ & _ & Hsudo).
      injection Hx as <-. destruct (Hsudo Hs) as (c & Hc' & _).
      congruence. }
  destruct (sudo_bin_path cmd) as [bin|e] eqn:Hb; simpl.
  2:{ split; [discriminate|]. intros (a' & Hx & _ & _ & Hsudo).
      injection Hx as <-. destruct (Hsudo Hs) as (c & Hc' & Hw).
      assert (c = cmd) by congruence; subst c.
      assert (exists b, sudo_bin_path cmd = Ok b) as (b & Hb').
      { destruct Hw as [(Hst & w1 & w2 & w3 & rest & Hsp & _)|(Hst & _)].
        - change (startswith cmd "sudo" = true) in Hst.
          exists w3. apply sudo_bin_path_third_word. left. eauto 6.
        - change (startswith cmd "sudo" = false) in Hst.
          exists "". apply sudo_bin_path_third_word. right. auto. }
      congruence. }
  pose proof (proj1 (sudo_bin_path_third_word cmd bin) Hb) as Hw.
  destruct (str_in bin (default [] (Profile.allow_sudo prof))) eqn:Hin; simpl.
  - split; [|reflexivity]. intros _. exists a. repeat split; auto.
    intros _. exists cmd. split; [exact Hc|]. apply str_in_In in Hin.
    destruct Hw as [(Hst & w1 & w2 & rest & Hsp)|(Hst & ->)].
    + left. split; [exact Hst|]. exists w1, w2, bin, rest. auto.
    + right. auto.
  - split; [discriminate|]. intros (a' & Hx & _ & _ & Hsudo).
    injection Hx as <-. destruct (Hsudo Hs) as (c & Hc' & Hw').
    assert (c = cmd) by congruence; subst c.
    assert (In bin (default [] (Profile.allow_sudo prof))) as Hin'.
    { destruct Hw as [(Hst & w1 & w2 & rest & Hsp)|(Hst & ->)];
        destruct Hw' as [(Hst' & v1 & v2 & v3 & rest' & Hsp' & Hi)
                        |(Hst' & Hi)].
      - rewrite Hsp in Hsp'. injection Hsp' as _ _ -> _. exact Hi.
      - change (startswith cmd "sudo" = false) in Hst'. congruence.
      - change (startswith cmd "sudo" = true) in Hst'. congruence.
      - exact Hi. }
    apply str_in_In in Hin'. congruence.
Qed.

Lemma policy_gate_steps_ok (prof : Profile.t) (catalog : Catalog.t)
    (l : list ToDoStep.t) :
  policy_gate_steps prof catalog l = Ok tt <->
  Forall (step_allowed prof catalog) l.
Proof.
  induction l as [|s l IH]; simpl.
  - split; [constructor | reflexivity].
  - destruct (policy_gate_step prof catalog s) as [[]|e] eqn:Hs; simpl.
    + rewrite IH. split.
      * intros H. constructor; [now apply policy_gate_step_ok | exact H].
      * intros H. now inversion H.
    + split; [discriminate|]. intros H. inversion H as [|? ? H1 H2]; subst.
      apply policy_gate_step_ok in H1. congruence.
Qed.

Lemma policy_gate_steps_first (prof : Profile.t) (catalog : Catalog.t)
    (l1 l2 : list ToDoStep.t) (s : ToDoStep.t) :
  Forall (step_allowed prof catalog) l1 ->
  ~ step_allowed prof catalog s ->
  policy_gate_steps prof catalog (l1 ++ s :: l2)
  = policy_gate_step prof catalog s
  /\ is_ok (policy_gate_step prof catalog s) = false.
Proof.
  intros H1 Hs. induction H1 as [|x l1 Hx H1 IH]; simpl.
  - destruct (policy_gate_step prof catalog s) as [[]|e] eqn:E; simpl.
    + exfalso. apply Hs. now apply policy_gate_step_ok.
    + split; reflexivity.
  - apply policy_gate_step_ok in Hx. rewrite Hx. simpl. exact IH.
Qed.

(** A step that raises ends the loop with its error. *)
Lemma policy_gate_steps_raise (prof : Profile.t) (catalog : Catalog.t)
    (l1 l2 : list ToDoStep.t) (s : ToDoStep.t) (e : exn) :
  Forall (step_allowed prof catalog) l1 ->
  policy_gate_step prof catalog s = Raise e ->
  policy_gate_steps prof catalog (l1 ++ s :: l2) = Raise e.
Proof.
  intros H1 Hs. induction H1 as [|x l1 Hx H1 IH]; simpl.
  - now rewrite Hs.
  - apply policy_gate_step_ok in Hx. rewrite Hx. simpl. exact IH.
Qed.

Lemma policy_gate_step_names_action (prof : Profile.t) (catalog : Catalog.t)
    (s : ToDoStep.t) (msg : string) :
  policy_gate_step prof catalog s = Raise (ValueError msg) ->
  contains (ToDoStep.action s) msg = true.
Proof.
  unfold policy_gate_step.
  pose proof (contains_suffix (ToDoStep.action s) "Unknown action ") as N1.
  pose proof (contains_middle (ToDoStep.action s) "Action " " is not read-only")
    as N2.
  destruct (Catalog.actions catalog !! ToDoStep.action s) as [a|].
  2:{ intros [= <-]. exact N1. }
  destruct (negb (entry_truthy a)); [intros [= <-]; exact N1|].
  destruct (negb (default false (CatalogEntry.read_only a)));
    [intros [= <-]; exact N2|].
  destruct (default false (CatalogEntry.requires_sudo a)); [|discriminate].
  destruct (CatalogEntry.cmd a) as [cmd|]; [|discriminate].
  destruct (sudo_bin_path cmd) as [bin|e] eqn:Hb; simpl.
  - destruct (negb (str_in bin _)); [|discriminate].
    intros [= <-].
    apply (contains_middle (ToDoStep.action s)
             "sudo binary not allowed for action " (": " ++ bin)).
  - unfold sudo_bin_path in Hb.
    destruct (startswith cmd "sudo"); [|discriminate].
    destruct (nth_error (split_ws cmd) 2); [discriminate|].
    injection Hb as <-. discriminate.
Qed.

(** The error of a step that requires sudo and whose compared word is not
    allow-listed. *)
Lemma policy_gate_step_sudo_denied (prof : Profile.t) (catalog : Catalog.t)
    (s : ToDoStep.t) (a : CatalogEntry.t) (cmd bin : string) :
  Catalog.actions catalog !! ToDoStep.action s = Some a ->
  entry_truthy a = true ->
  CatalogEntry.read_only a = Some true ->
  CatalogEntry.requires_sudo a = Some true ->
  CatalogEntry.cmd a = Some cmd ->
  sudo_bin_path cmd = Ok bin ->
  ~ In bin (default [] (Profile.allow_sudo prof)) ->
  policy_gate_step prof catalog s
  = Raise (ValueError ("sudo binary not allowed for action "
                       ++ ToDoStep.action s ++ ": " ++ bin)).
Proof.
  intros Ha Ht Hr Hs Hc Hb Hin. unfold policy_gate_step.
  rewrite Ha, Ht, Hr, Hs, Hc, Hb. cbn [negb default bind].
  replace (str_in bin (default [] (Profile.allow_sudo prof))) with false;
    [reflexivity|].
  symmetry. apply not_true_is_false. intros H. apply Hin.
  now apply str_in_In.
Qed.

(** C1, as the specification states it, fails: in [sample_catalog] the
    action [read_dimms] is read-only, its template is
    [sudo dmidecode -t memory] and [dmidecode], the token following
    ["sudo"], is allow-listed; [policy_gate] checks the third word of the
    template instead, here [-t], and rejects the step. *)
Lemma policy_gate_claim_counterexample :
  let dsl := sample_dsl ∅ [sample_step "s1" "read_dimms" None None] in
  Catalog.profiles sample_catalog !! ToDoDSL.profile dsl = Some sample_profile
  /\ forallb (spec_step_allowed sample_profile sample_catalog)
             (ToDoDSL.steps dsl) = true
  /\ policy_gate dsl sample_catalog
     = Raise (ValueError "sudo binary not allowed for action read_dimms: -t").
Proof. vm_compute. repeat split. Qed.

(** C1 (amended). [policy_gate] raises no error exactly when the profile
    exists in the catalog and every step references an action with a
    non-empty, read-only catalog entry such that, when the action requires
    sudo, either its command template starts with ["sudo"] and the third
    whitespace-separated word of the template (the word after
    [sudo <flag>]) is in the profile's [allow_sudo] list, or the template
    does not start with ["sudo"] and the empty string is in [allow_sudo].
    When the profile exists and some step is not of this kind,
    [policy_gate] raises the error of the first such step: a [ValueError]
    whose message names the step's action, which is
    ["Unknown action <action>"] for an action without a non-empty entry,
    ["Action <action> is not read-only"] for one that is not read-only,
    and ["sudo binary not allowed for action <action>: <word>"], with the
    word that was compared, for one whose third word (or the empty string,
    for a template that does not start with ["sudo"]) is not
    allow-listed. *)
Theorem policy_gate_third_word (dsl : ToDoDSL.t) (catalog : Catalog.t) :
  (policy_gate dsl catalog = Ok tt <->
   exists prof,
     Catalog.profiles catalog !! ToDoDSL.profile dsl = Some prof
     /\ Forall (step_allowed prof catalog) (ToDoDSL.steps dsl))
  /\ (forall prof l1 s l2,
        Catalog.profiles catalog !! ToDoDSL.profile dsl = Some prof ->
        ToDoDSL.steps dsl = (l1 ++ s :: l2)%list ->
        Forall (step_allowed prof catalog) l1 ->
        let name := ToDoStep.action s in
        let allowed := default [] (Profile.allow_sudo prof) in
        (~ step_allowed prof catalog s ->
         policy_gate dsl catalog = policy_gate_step prof catalog s
         /\ is_ok (policy_gate dsl catalog) = false
         /\ forall msg, policy_gate dsl catalog = Raise (ValueError msg) ->
                        contains name msg = true)
        /\ ((Catalog.actions catalog !! name = None
             \/ exists a, Catalog.actions catalog !! name = Some a
                          /\ entry_truthy a = false) ->
            policy_gate dsl catalog
            = Raise (ValueError ("Unknown action " ++ name)))
        /\ (forall a,
              Catalog.actions catalog !! name = Some a ->
              entry_truthy a = true ->
              CatalogEntry.read_only a <> Some true ->
              policy_gate dsl catalog
              = Raise (ValueError ("Action " ++ name ++ " is not read-only")))
        /\ (forall a cmd,
              Catalog.actions catalog !! name = Some a ->
              entry_truthy a = true ->
              CatalogEntry.read_only a = Some true ->
              CatalogEntry.requires_sudo a = Some true ->
              CatalogEntry.cmd a = Some cmd ->
              (forall w1 w2 w3 rest,
                 startswith cmd "sudo" = true ->
                 split_ws cmd = w1 :: w2 :: w3 :: rest ->
                 ~ In w3 allowed ->
                 policy_gate dsl catalog
                 = Raise (ValueError ("sudo binary not allowed for action "
                                      ++ name ++ ": " ++ w3)))
              /\ (startswith cmd "sudo" = false ->
                  ~ In "" allowed ->
                  policy_gate dsl catalog
                  = Raise (ValueError ("sudo binary not allowed for action "
                                       ++ name ++ ": "))))).
Proof.
  unfold policy_gate. split.
  - destruct (Catalog.profiles catalog !! ToDoDSL.profile dsl) as [prof|].
    + rewrite policy_gate_steps_ok. split.
      * intros H. exists prof. auto.
      * intros (p & [= <-] & H). exact H.
    + split; [discriminate | intros (p & Hp & _); discriminate].
  - intros prof l1 s l2 Hp Hl H1. cbv zeta. rewrite Hp, Hl.
    split; [|split; [|split]].
    + intros Hs.
      destruct (policy_gate_steps_first prof catalog l1 l2 s H1 Hs) as [E F].
      rewrite E. repeat split; auto.
      apply policy_gate_step_names_action.
    + intros H. apply policy_gate_steps_raise; [exact H1|].
      unfold policy_gate_step.
      destruct H as [-> | (a & -> & Ht)]; [reflexivity|].
      now rewrite Ht.
    + intros a Ha Ht Hr. apply policy_gate_steps_raise; [exact H1|].
      unfold policy_gate_step. rewrite Ha, Ht. cbn [negb].
      destruct (CatalogEntry.read_only a) as [[|]|]; [congruence| |];
        reflexivity.
    + intros a cmd Ha Ht Hr Hs Hc. split.
      * intros w1 w2 w3 rest Hst Hsp Hin.
        apply policy_gate_steps_raise; [exact H1|].
        apply (policy_gate_step_sudo_denied prof catalog s a cmd w3);
          auto.
        apply sudo_bin_path_third_word. left. eauto.
      * intros Hst Hin.
        apply policy_gate_steps_raise; [exact H1|].
        apply (policy_gate_step_sudo_denied prof catalog s a cmd "");
          auto.
        apply sudo_bin_path_third_word. right. auto.
Qed.

Lemma policy_gate_third_word_witness :
  policy_gate (sample_dsl ∅ [sample_step "s1" "read_meminfo" None None;
                             sample_step "s2" "read_nic" None None])
              sample_catalog = Ok tt.
Proof.
  apply (proj1 (policy_gate_third_word _ sample_catalog)).
  exists sample_profile. split; [reflexivity|].
  repeat constructor.
  - eexists. split; [reflexivity|]. repeat split; discriminate.
  - eexists. split; [reflexivity|]. repeat split.
    intros _. exists "sudo -n /usr/sbin/ethtool {iface}".
    split; [reflexivity|]. left. split; [reflexivity|].
    exists "sudo", "-n", "/usr/sbin/ethtool", ["{iface}"].
    split; [reflexivity|]. simpl. tauto.
Defined.

(** ** exec_pool.py: [run_cmd] *)

Lemma len_take_str (n : N) (s : string) :
  len (take_str n s) = N.min n (len s).
Proof.
  revert n; induction s as [|c s IH]; intros n; simpl.
  - now rewrite N.min_0_r.
  - destruct (N.eqb_spec n 0) as [->|Hn]; cbn [len]; [lia|].
    rewrite IH. lia.
Qed.

(** What [run_cmd] bounds is the number of characters: a result built
    from the output of a completed command stores at most 262144
    characters of stdout and at most 131072 of stderr, and [truncated] is
    set exactly when the captured stdout or the captured stderr had more
    characters than its cap. (Absent streams count as empty.) *)
Lemma run_cmd_output_caps (exit_status ms : Z) (out err : option string) :
  let rr := run_cmd {| reply := Completed exit_status out err;
                       elapsed_ms := ms |} in
  (len (RawResult.stdout rr) <= 262144)%N
  /\ (len (RawResult.stderr rr) <= 131072)%N
  /\ (RawResult.truncated rr = true <->
      (262144 < len (default "" out))%N \/ (131072 < len (default "" err))%N).
Proof.
  cbn [run_cmd reply elapsed_ms RawResult.stdout RawResult.stderr
       RawResult.truncated].
  rewrite !len_take_str. unfold OUTPUT_CAP, ERR_CAP.
  split; [lia|]. split; [lia|].
  rewrite orb_true_iff, !N.ltb_lt. reflexivity.
Qed.

(** The bytes of a text are at least its characters, and exactly its
    characters when every code point is below U+0080. *)
Lemma utf8_len_ge (s : string) : (len s <= utf8_len s)%N.
Proof.
  induction s as [|c s IH]; cbn [len utf8_len]; [lia|].
  destruct (N_of_ascii c <? 128)%N; lia.
Qed.

Lemma utf8_len_ascii (s : string) :
  all_chars (fun c => (N_of_ascii c <? 128)%N) s = true ->
  utf8_len s = len s.
Proof.
  induction s as [|c s IH]; cbn [len utf8_len all_chars]; [reflexivity|].
  intros H. apply andb_true_iff in H as [-> H]. rewrite (IH H). lia.
Qed.

(** A text within the cap is stored whole. *)
Lemma take_str_whole (n : N) (s : string) :
  (len s <= n)%N -> take_str n s = s.
Proof.
  revert n; induction s as [|c s IH]; intros n H; [reflexivity|].
  cbn [len] in H. cbn [take_str].
  destruct (N.eqb_spec n 0) as [->|Hn]; [lia|].
  rewrite IH by lia. reflexivity.
Qed.

(** Lengths of a text made of one repeated character. *)
Lemma len_iter (c : ascii) (p : positive) :
  len (Pos.iter (String c) "" p) = Npos p.
Proof.
  induction p as [|p IH] using Pos.peano_ind; [reflexivity|].
  rewrite Pos.iter_succ. cbn [len]. rewrite IH. lia.
Qed.

Lemma utf8_len_iter (c : ascii) (p : positive) :
  (N_of_ascii c <? 128)%N = false ->
  utf8_len (Pos.iter (String c) "" p) = (2 * Npos p)%N.
Proof.
  intros Hc. induction p as [|p IH] using Pos.peano_ind.
  - cbn [Pos.iter utf8_len]. now rewrite Hc.
  - rewrite Pos.iter_succ. cbn [utf8_len]. rewrite Hc, IH. lia.
Qed.

(** C5 (failing input). The caps of [run_cmd] count characters, not
    bytes. On a command that completes with a stdout of 262144 characters
    U+00E9, which is 524288 bytes, [run_cmd] stores the text whole, so
    the stored stdout is 524288 bytes long, above the cap of 262144
    bytes, and [truncated] is false although the untruncated stdout
    exceeded the cap. *)
Theorem run_cmd_caps_count_characters :
  let out := sample_wide_output in
  let rr := run_cmd {| reply := Completed 0 (Some out) (Some "");
                       elapsed_ms := 40 |} in
  len out = 262144%N
  /\ utf8_len out = 524288%N
  /\ RawResult.stdout rr = out
  /\ utf8_len (RawResult.stdout rr) = 524288%N
  /\ (OUTPUT_CAP < utf8_len (RawResult.stdout rr))%N
  /\ RawResult.truncated rr = false.
Proof.
  intros out rr.
  assert (L : len out = 262144%N) by apply len_iter.
  assert (U : utf8_len out = 524288%N)
    by (unfold out, sample_wide_output; now rewrite utf8_len_iter).
  assert (E : RawResult.stdout rr = out).
  { unfold rr. cbn [run_cmd reply RawResult.stdout].
    change (default "" (Some out)) with out.
    apply take_str_whole. rewrite L. unfold OUTPUT_CAP. lia. }
  split; [exact L|]. split; [exact U|]. split; [exact E|].
  rewrite E, U. split; [reflexivity|]. split; [reflexivity|].
  unfold rr. cbn [run_cmd reply RawResult.truncated].
  change (default "" (Some out)) with out.
  change (default "" (Some "")) with "".
  rewrite L. reflexivity.
Qed.

(** ** exec_pool.py: [execute_plan] *)

Lemma execute_steps_length (env : remote) (host : string) (on_event : bool)
    (l : list ExecStep.t) (n : nat) :
  length (fst (execute_steps env host on_event n l)) = length l.
Proof.
  revert n; induction l as [|s l IH]; intros n; simpl; [reflexivity|].
  specialize (IH (S n)).
  destruct (execute_steps env host on_event (S n) l) as [results evs].
  simpl in *. now rewrite IH.
Qed.

Lemma execute_steps_lookup (env : remote) (host : string) (on_event : bool)
    (l : list ExecStep.t) (n i : nat) (s : ExecStep.t) :
  l !! i = Some s ->
  fst (execute_steps env host on_event n l) !! i
  = Some (set_step_id
            (run_cmd (env (n + i)%nat host (ExecStep.cmd s)
                          (ExecStep.timeout_s s)))
            (ExecStep.id s)).
Proof.
  revert n i; induction l as [|x l IH]; intros n i H; [discriminate|].
  simpl. specialize (IH (S n)).
  destruct (execute_steps env host on_event (S n) l) as [results evs].
  destruct i as [|i]; simpl in *.
  - injection H as ->. now rewrite Nat.add_0_r.
  - rewrite (IH i H). now rewrite Nat.add_succ_r.
Qed.

Lemma execute_steps_events (env : remote) (host : string)
    (l : list ExecStep.t) (n i : nat) (s : ExecStep.t) :
  l !! i = Some s ->
  let rr := run_cmd (env (n + i)%nat host (ExecStep.cmd s)
                         (ExecStep.timeout_s s)) in
  exists before between after,
    snd (execute_steps env host true n l)
    = (before ++ step_start (ExecStep.id s) (ExecStep.cmd s) :: between
         ++ step_result (ExecStep.id s) (RawResult.exit_code rr)
                        (RawResult.duration_ms rr) :: after)%list.
Proof.
  revert n i; induction l as [|x l IH]; intros n i H; [discriminate|].
  simpl. specialize (IH (S n)).
  destruct (execute_steps env host true (S n) l) as [results evs].
  destruct i as [|i]; simpl in *.
  - injection H as ->. rewrite Nat.add_0_r. exists [], [], evs. reflexivity.
  - destruct (IH i H) as (b & m & a & E). rewrite Nat.add_succ_r.
    eexists (_ :: _ :: b), m, a. rewrite E. reflexivity.
Qed.

(** C4. When the remote command of a step exceeds its timeout, the step's
    result has exit code 124 and stderr ["TIMEOUT"], the plan still yields
    one result per step, and every later step is run: its result is what
    [run_cmd] returns for it, and (when a sink is given) its [step_start]
    and [step_result] events are emitted. *)
Theorem execute_plan_timeout_continues (env : remote) (host : string)
    (plan : ExecPlan.t) (i : nat) (s : ExecStep.t) :
  ExecPlan.steps plan !! i = Some s ->
  reply (env i host (ExecStep.cmd s) (ExecStep.timeout_s s)) = TimedOut ->
  forall on_event,
  let results := fst (execute_plan env host plan on_event) in
  length results = length (ExecPlan.steps plan)
  /\ (exists rr, results !! i = Some rr
                 /\ RawResult.step_id rr = ExecStep.id s
                 /\ RawResult.exit_code rr = 124
                 /\ RawResult.stderr rr = "TIMEOUT")
  /\ forall j s', (i < j)%nat -> ExecPlan.steps plan !! j = Some s' ->
       let rr' := run_cmd (env j host (ExecStep.cmd s')
                               (ExecStep.timeout_s s')) in
       results !! j = Some (set_step_id rr' (ExecStep.id s'))
       /\ exists before between after,
            snd (execute_plan env host plan true)
            = (before ++ step_start (ExecStep.id s') (ExecStep.cmd s')
                 :: between
                 ++ step_result (ExecStep.id s') (RawResult.exit_code rr')
                                (RawResult.duration_ms rr') :: after)%list.
Proof.
  intros Hs Ht on_event results. unfold results, execute_plan.
  split; [apply execute_steps_length|]. split.
  - eexists. split; [apply (execute_steps_lookup _ _ _ _ 0 i s Hs)|].
    simpl. unfold run_cmd. rewrite Ht. simpl. auto.
  - intros j s' _ Hj. split.
    + apply (execute_steps_lookup _ _ _ _ 0 j s' Hj).
    + apply (execute_steps_events env host _ 0 j s' Hj).
Qed.

Lemma execute_plan_timeout_continues_witness :
  let env : remote := fun n _ _ _ =>
    {| reply := if (n =? 0)%nat then TimedOut
                else Completed 0 (Some "up") None;
       elapsed_ms := 5 |} in
  let s1 := {| ExecStep.id := "s1"; ExecStep.cmd := "sleep 60";
               ExecStep.timeout_s := 1; ExecStep.parser := None;
               ExecStep.validator := None |} in
  let s2 := {| ExecStep.id := "s2";
               ExecStep.cmd := "cat /sys/class/net/eth0/operstate";
               ExecStep.timeout_s := 5; ExecStep.parser := None;
               ExecStep.validator := None |} in
  let results :=
    fst (execute_plan env "h" {| ExecPlan.steps := [s1; s2] |} true) in
  length results = 2%nat
  /\ (exists rr, results !! 0%nat = Some rr
                 /\ RawResult.step_id rr = "s1"
                 /\ RawResult.exit_code rr = 124
                 /\ RawResult.stderr rr = "TIMEOUT").
Proof.
  intros env s1 s2 results.
  pose proof (execute_plan_timeout_continues env "h"
                {| ExecPlan.steps := [s1; s2] |} 0 s1
                eq_refl eq_refl true) as H.
  split; [exact (proj1 H) | exact (proj1 (proj2 H))].
Defined.

(** ** exec_pool.py: [critic_propose_patch] *)

Lemma has_fallback_after_patch (l : list ToDoStep.t) (p : ToDoStep.t) :
  ToDoStep.id p = "s_fallback_sysfs" ->
  existsb (fun s => String.eqb (ToDoStep.id s) "s_fallback_sysfs")
          (l ++ [p]) = true.
Proof.
  intros H. rewrite existsb_app. simpl. rewrite H. simpl.
  now rewrite orb_true_r.
Qed.

(** C9. [critic_propose_patch] never removes steps: a DSL it returns is
    the given DSL with exactly one step, the fallback step
    [s_fallback_sysfs], appended at the end. It returns nothing for a DSL
    that already has a step with that id; so applied to a DSL it has
    patched, it returns nothing and no second step is added. *)
Theorem critic_propose_patch_appends_once (dsl : ToDoDSL.t)
    (failure : gmap string pyval) :
  (forall dsl', critic_propose_patch dsl failure = Some dsl' ->
     (exists patch,
        ToDoStep.id patch = "s_fallback_sysfs"
        /\ ToDoDSL.steps dsl' = (ToDoDSL.steps dsl ++ [patch])%list
        /\ dsl' = with_steps dsl (ToDoDSL.steps dsl'))
     /\ forall failure', critic_propose_patch dsl' failure' = None)
  /\ ((exists s, In s (ToDoDSL.steps dsl)
                 /\ ToDoStep.id s = "s_fallback_sysfs") ->
      critic_propose_patch dsl failure = None).
Proof.
  split.
  - intros dsl' H. unfold critic_propose_patch in H.
    destruct (_ && _); [|discriminate].
    destruct (negb _); [|discriminate].
    injection H as <-. split.
    + eexists. split; [|split]; [| reflexivity | reflexivity]. reflexivity.
    + intros failure'. unfold critic_propose_patch.
      destruct (_ && _); [|reflexivity].
      cbn [with_steps ToDoDSL.steps ToDoStep.id].
      rewrite has_fallback_after_patch by reflexivity. reflexivity.
  - intros (s & Hin & Hid). unfold critic_propose_patch.
    destruct (_ && _); [|reflexivity].
    cbn [ToDoStep.id].
    replace (existsb _ (ToDoDSL.steps dsl)) with true; [reflexivity|].
    symmetry. apply existsb_exists. exists s. split; [exact Hin|].
    rewrite Hid. reflexivity.
Qed.

Lemma critic_propose_patch_appends_once_witness :
  let dsl := sample_dsl {[ "component" := PStr "nic" ]}
               [sample_step "s1" "read_nic_link" (Some "parse_ethtool") None] in
  let failure : gmap string pyval := {[ "parser" := PStr "parse_ethtool" ]} in
  exists dsl', critic_propose_patch dsl failure = Some dsl'
               /\ length (ToDoDSL.steps dsl') = 2%nat
               /\ critic_propose_patch dsl' failure = None.
Proof.
  intros dsl failure.
  destruct (critic_propose_patch dsl failure) as [dsl'|] eqn:E;
    [|vm_compute in E; discriminate].
  exists dsl'.
  destruct (proj1 (critic_propose_patch_appends_once dsl failure) dsl' E)
    as ((patch & _ & Hsteps & _) & Hidem).
  split; [reflexivity|]. split; [|apply Hidem].
  rewrite Hsteps. reflexivity.
Defined.

(** ** runner.py: the event stream *)

Lemma execute_steps_no_verdict (env : remote) (host : string)
    (on_event : bool) (l : list ExecStep.t) (n : nat) :
  no_verdict (snd (execute_steps env host on_event n l)).
Proof.
  revert n; induction l as [|s l IH]; intros n; simpl; [constructor|].
  specialize (IH (S n)).
  destruct (execute_steps env host on_event (S n) l) as [results evs].
  simpl in *. destruct on_event; simpl; repeat constructor; exact IH.
Qed.


Lemma drain_until_verdict (evs rest : list event) (st su : string) :
  no_verdict evs ->
  drain (evs ++ verdict st su :: rest)
  = ((evs ++ [verdict st su])%list, rest, Disconnected).
Proof.
  induction 1 as [|ev evs H _ IH]; simpl; [reflexivity|].
  now rewrite H, IH.
Qed.

Lemma drain_no_verdict (evs : list event) :
  no_verdict evs -> drain evs = (evs, [], Blocked).
Proof.
  induction 1 as [|ev evs H _ IH]; simpl; [reflexivity|].
  now rewrite H, IH.
Qed.

(** A consumer that attaches to a queue already read to its end receives
    the plan preview and then waits: reading an event removes it. *)
Lemma stream_job_drained (b : Job.t) :
  no_verdict (Job.events b) ->
  fst (fst (stream_job b))
  = plan_preview (ExecPlan.steps (Job.plan b)) :: Job.events b
  /\ snd (stream_job b) = Blocked.
Proof.
  intros H. unfold stream_job. rewrite (drain_no_verdict _ H).
  split; reflexivity.
Qed.

Section RunnerFacts.

Variable other_parser : string -> string -> res (gmap string pyval).
Variable other_validator :
  string -> gmap string pyval -> list pyval -> res (bool * note).
Variable py_float : string -> option float.

Local Abbreviation run_job' := (run_job other_parser other_validator py_float).
Local Abbreviation judge' := (judge other_parser other_validator py_float).
Local Abbreviation judge_step' :=
  (judge_step other_parser other_validator py_float).

(** What [run_job] leaves behind, by the outcome of the judging loop. *)
Lemma run_job_cases (env : remote) (dsl : ToDoDSL.t) (plan : ExecPlan.t) :
  let raw := fst (execute_plan env (host (ToDoDSL.target dsl)) plan true) in
  let evs := snd (execute_plan env (host (ToDoDSL.target dsl)) plan true) in
  match judge' (ToDoDSL.context dsl) (ExecPlan.steps plan) raw with
  | Raise e =>
      run_job' env (new_job dsl plan)
      = ({| Job.dsl := dsl; Job.plan := plan; Job.events := evs;
            Job.result := None |}, Some e)
  | Ok per_step =>
      exists st su r,
        run_job' env (new_job dsl plan)
        = ({| Job.dsl := dsl; Job.plan := plan;
              Job.events := (evs ++ [verdict st su])%list;
              Job.result := Some r |}, None)
        /\ VerificationResult.per_step r = per_step
        /\ VerificationResult.status r = st
        /\ st = (if forallb PerStep.ok per_step then "SUCCESS" else "FAILED")
  end.
Proof.
  intros raw evs. unfold run_job.
  cbn [new_job Job.dsl Job.plan Job.events].
  subst raw evs.
  destruct (execute_plan env (host (ToDoDSL.target dsl)) plan true)
    as [raw evs].
  cbn [fst snd].
  destruct (judge _ _ _ _ _ raw) as [per_step|e]; [|reflexivity].
  eexists _, _, _. split; [reflexivity|]. repeat split.
Qed.


(** ** runner.py: the judging phase *)

Lemma judge_raises_at (ctx : gmap string pyval) (steps : list ExecStep.t)
    (raw : list RawResult.t) (i : nat) (step : ExecStep.t) :
  steps !! i = Some step ->
  length raw = length steps ->
  (forall rr, is_ok (judge_step' ctx step rr) = false) ->
  is_ok (judge' ctx steps raw) = false.
Proof.
  revert raw i; induction steps as [|x steps IH]; intros raw i Hi Hl Hs;
    [discriminate|].
  destruct raw as [|rr raw]; [discriminate|]. simpl.
  destruct i as [|i]; simpl in Hi.
  - injection Hi as ->. specialize (Hs rr).
    destruct (judge_step' ctx step rr); [discriminate | reflexivity].
  - destruct (judge_step' ctx x rr); [|reflexivity]. simpl.
    specialize (IH raw i Hi (eq_add_S _ _ Hl) Hs).
    destruct (judge' ctx steps raw); [discriminate | reflexivity].
Qed.

Lemma total_mem_within_pct_none (parsed : gmap string pyval) (pct : pyval) :
  total_mem_within_pct parsed PNone pct = Raise TypeError.
Proof.
  unfold total_mem_within_pct, py_sub.
  destruct (as_num _) as [[z|f]|]; reflexivity.
Qed.

Lemma ctx_expected_total_gib_none (ctx : gmap string pyval) :
  ctx !! "expected_total_gib" = None ->
  (ctx !! "expected" = None
   \/ exists d, ctx !! "expected" = Some (PDict d)
                /\ d !! "total_gib" = None) ->
  ctx_expected_total_gib ctx = Ok PNone.
Proof.
  intros H1 H2. unfold ctx_expected_total_gib. rewrite H1. simpl.
  destruct H2 as [->|(d & -> & Hd)]; simpl; [reflexivity|].
  now rewrite Hd.
Qed.

Lemma run_validator_bare_total_mem (ctx : gmap string pyval)
    (step : ExecStep.t) (parsed : gmap string pyval) :
  ExecStep.validator step = Some "total_mem_within_pct" ->
  ctx_expected_total_gib ctx = Ok PNone ->
  run_validator other_validator py_float ctx step parsed = Raise TypeError.
Proof.
  intros Hv Hc. unfold run_validator. rewrite Hv.
  change (default "" (Some "total_mem_within_pct"))
    with "total_mem_within_pct".
  change (String.eqb "total_mem_within_pct" "") with false.
  cbv iota.
  change (_parse_validator_spec py_float "total_mem_within_pct")
    with (Ok ("total_mem_within_pct", @nil pyval)).
  cbn [bind]. cbv beta iota.
  change (VALIDATORS other_validator "total_mem_within_pct")
    with (Some call_total_mem_within_pct).
  cbv iota.
  assert (Hd : default_args ctx "total_mem_within_pct" []
               = Ok [PNone; default (PInt 2) (ctx !! "pct")]).
  { unfold default_args. cbn [length Nat.eqb].
    change (String.eqb "total_mem_within_pct" "total_mem_within_pct")
      with true.
    cbn [andb]. rewrite Hc. reflexivity. }
  rewrite Hd. cbn [bind call_total_mem_within_pct].
  now rewrite total_mem_within_pct_none.
Qed.

Lemma judge_step_bare_total_mem (ctx : gmap string pyval) (step : ExecStep.t)
    (rr : RawResult.t) :
  ExecStep.validator step = Some "total_mem_within_pct" ->
  ctx_expected_total_gib ctx = Ok PNone ->
  is_ok (judge_step' ctx step rr) = false.
Proof.
  intros Hv Hc. unfold judge_step.
  destruct (run_parser other_parser step rr) as [parsed|e]; [|reflexivity].
  cbn [bind]. now rewrite run_validator_bare_total_mem.
Qed.

(** C10. A step whose validator is the bare name [total_mem_within_pct],
    in a job whose context has neither the key [expected_total_gib] nor a
    mapping [expected] with the key [total_gib], cannot be judged: the
    validator is called with [expected_gib = None] and raises
    [TypeError]. The exception ends the job's thread: no verdict event is
    put in the queue and the job's result stays unset. *)
Theorem bare_total_mem_without_expectation_kills_job (env : remote)
    (dsl : ToDoDSL.t) (plan : ExecPlan.t) (i : nat) (step : ExecStep.t) :
  ExecPlan.steps plan !! i = Some step ->
  ExecStep.validator step = Some "total_mem_within_pct" ->
  ToDoDSL.context dsl !! "expected_total_gib" = None ->
  (ToDoDSL.context dsl !! "expected" = None
   \/ exists d, ToDoDSL.context dsl !! "expected" = Some (PDict d)
                /\ d !! "total_gib" = None) ->
  (forall parsed,
     run_validator other_validator py_float (ToDoDSL.context dsl) step parsed
     = Raise TypeError)
  /\ exists e b',
       run_job' env (new_job dsl plan) = (b', Some e)
       /\ Job.result b' = None
       /\ no_verdict (Job.events b').
Proof.
  intros Hs Hv H1 H2.
  pose proof (ctx_expected_total_gib_none _ H1 H2) as Hc.
  split; [intros; now apply run_validator_bare_total_mem|].
  pose proof (run_job_cases env dsl plan) as C. cbv zeta in C.
  pose proof (execute_steps_no_verdict env (host (ToDoDSL.target dsl)) true
                (ExecPlan.steps plan) 0) as NV.
  fold (execute_plan env (host (ToDoDSL.target dsl)) plan true) in NV.
  assert (J : is_ok (judge' (ToDoDSL.context dsl) (ExecPlan.steps plan)
                       (fst (execute_plan env (host (ToDoDSL.target dsl))
                                          plan true))) = false).
  { apply (judge_raises_at _ _ _ i step Hs).
    - apply execute_steps_length.
    - intros rr. now apply judge_step_bare_total_mem. }
  destruct (judge' _ _ _) as [per_step|e]; [discriminate|].
  eexists e, _. split; [exact C|]. split; [reflexivity | exact NV].
Qed.

Lemma judge_step_meminfo_scenario (ctx : gmap string pyval)
    (cmd : string) (timeout : Z) (rr : RawResult.t) :
  RawResult.stdout rr = "MemTotal: 16384000 kB" ->
  judge_step' ctx
    {| ExecStep.id := "s1"; ExecStep.cmd := cmd;
       ExecStep.timeout_s := timeout;
       ExecStep.parser := Some "parse_meminfo";
       ExecStep.validator := Some "total_mem_within_pct(16,2)" |} rr
  = Ok {| PerStep.id := "s1"; PerStep.ok := false;
          PerStep.notes :=
            NoteMemTotal (PFloat (S754_finite false 8793278272440893 (-49)))
                         (PInt 16) (PInt 2) |}.
Proof.
  intros H. unfold judge_step, run_parser. cbn [ExecStep.parser].
  rewrite H. vm_compute. reflexivity.
Qed.

(** C3 (amended). For the single-step job whose step [s1] uses the parser
    [parse_meminfo] and the validator [total_mem_within_pct(16,2)], a
    command whose stdout is exactly [MemTotal: 16384000 kB] is judged
    [ok = false] and the job's status is ["FAILED"]: 16384000 kB are
    15.625 GiB, parsed as 15.62, which is more than 2 per cent away
    from 16. *)
Theorem meminfo_scenario_fails (env : remote) (dsl : ToDoDSL.t)
    (cmd : string) (timeout exit_status ms : Z) (err : option string) :
  let step := {| ExecStep.id := "s1"; ExecStep.cmd := cmd;
                 ExecStep.timeout_s := timeout;
                 ExecStep.parser := Some "parse_meminfo";
                 ExecStep.validator := Some "total_mem_within_pct(16,2)" |} in
  env 0%nat (host (ToDoDSL.target dsl)) cmd timeout
  = {| reply := Completed exit_status (Some "MemTotal: 16384000 kB") err;
       elapsed_ms := ms |} ->
  exists b' r,
    run_job' env (new_job dsl {| ExecPlan.steps := [step] |}) = (b', None)
    /\ Job.result b' = Some r
    /\ List.map (fun p => (PerStep.id p, PerStep.ok p))
                (VerificationResult.per_step r) = [("s1", false)]
    /\ VerificationResult.status r = "FAILED".
Proof.
  intros step Henv. subst step.
  pose proof (run_job_cases env dsl
    {| ExecPlan.steps :=
         [{| ExecStep.id := "s1"; ExecStep.cmd := cmd;
             ExecStep.timeout_s := timeout;
             ExecStep.parser := Some "parse_meminfo";
             ExecStep.validator := Some "total_mem_within_pct(16,2)" |}] |})
    as C.
  cbv zeta in C. unfold execute_plan in C.
  cbn [ExecPlan.steps execute_steps ExecStep.cmd ExecStep.timeout_s
       ExecStep.id fst snd judge] in C.
  rewrite Henv in C.
  rewrite judge_step_meminfo_scenario in C by reflexivity.
  cbn [bind] in C.
  destruct C as (st & su & r & E & Hp & Hst & Hst').
  eexists _, r. split; [exact E|]. split; [reflexivity|].
  rewrite Hp. split; [reflexivity|]. rewrite Hst, Hst'. reflexivity.
Qed.

End RunnerFacts.

Lemma bare_total_mem_without_expectation_kills_job_witness :
  exists e b',
    run_job sample_parser sample_validator sample_float
      (sample_remote "MemTotal: 16777216 kB")
      (new_job (sample_dsl ∅ [])
         {| ExecPlan.steps :=
              [sample_exec_step (Some "total_mem_within_pct")] |})
    = (b', Some e)
    /\ Job.result b' = None
    /\ no_verdict (Job.events b').
Proof.
  refine (proj2 (bare_total_mem_without_expectation_kills_job
                   sample_parser sample_validator sample_float
                   (sample_remote "MemTotal: 16777216 kB")
                   (sample_dsl ∅ [])
                   {| ExecPlan.steps :=
                        [sample_exec_step (Some "total_mem_within_pct")] |}
                   0 (sample_exec_step (Some "total_mem_within_pct"))
                   eq_refl eq_refl eq_refl (or_introl eq_refl))).
Defined.

(** C3, as the specification states it, fails: on the job of the scenario
    and the output [MemTotal: 16384000 kB] the step [s1] is judged
    [ok = false] and the status is ["FAILED"], not ["SUCCESS"]. *)
Lemma meminfo_scenario_claim_counterexample :
  let dsl :=
    sample_dsl ∅ [sample_step "s1" "read_meminfo" (Some "parse_meminfo")
                              (Some "total_mem_within_pct(16,2)")] in
  let plan :=
    {| ExecPlan.steps :=
         [sample_exec_step (Some "total_mem_within_pct(16,2)")] |} in
  let b' := fst (run_job sample_parser sample_validator sample_float
                   (sample_remote "MemTotal: 16384000 kB")
                   (new_job dsl plan)) in
  (VerificationResult.status <$> Job.result b') = Some "FAILED"
  /\ (List.map (fun p => (PerStep.id p, PerStep.ok p))
        <$> (VerificationResult.per_step <$> Job.result b'))
     = Some [("s1", false)]
  /\ (VerificationResult.status <$> Job.result b') <> Some "SUCCESS".
Proof. vm_compute. repeat split. discriminate. Qed.

Lemma meminfo_scenario_fails_witness :
  exists b' r,
    run_job sample_parser sample_validator sample_float
      (sample_remote "MemTotal: 16384000 kB")
      (new_job (sample_dsl ∅ [])
         {| ExecPlan.steps :=
              [sample_exec_step (Some "total_mem_within_pct(16,2)")] |})
    = (b', None)
    /\ Job.result b' = Some r
    /\ List.map (fun p => (PerStep.id p, PerStep.ok p))
                (VerificationResult.per_step r) = [("s1", false)]
    /\ VerificationResult.status r = "FAILED".
Proof.
  exact (meminfo_scenario_fails sample_parser sample_validator sample_float
           (sample_remote "MemTotal: 16384000 kB") (sample_dsl ∅ [])
           "cat /proc/meminfo" 10 0 12 (Some "") eq_refl).
Defined.


(** ** validators.py: [all_expected_dimms] *)

Lemma dimm_dict_lookups (a b c t e : pyval) :
  py_getitem (dimm_dict a b c t e) "slot" = Ok a
  /\ py_get (dimm_dict a b c t e) "size_gib" PNone = Ok b
  /\ py_get (dimm_dict a b c t e) "speed_mt" PNone = Ok c
  /\ py_get (dimm_dict a b c t e) "ecc" PNone = Ok e
  /\ truthy (dimm_dict a b c t e) = true.
Proof. vm_compute. repeat split. Qed.

Lemma expected_dict_lookups (a b : pyval) (c e : option pyval) :
  py_getitem (expected_dict a b c e) "slot" = Ok a
  /\ py_getitem (expected_dict a b c e) "size_gib" = Ok b
  /\ py_get (expected_dict a b c e) "speed_mt" PNone = Ok (default PNone c)
  /\ py_get (expected_dict a b c e) "ecc" (PBool true)
     = Ok (default (PBool true) e).
Proof. destruct c, e; vm_compute; repeat split. Qed.

Lemma have_key_parsed (d : ParsedDimm.t) :
  have_key (parsed_dimm_val d) = Ok (parsed_key d).
Proof.
  unfold have_key, parsed_dimm_val, parsed_key, parsed_size.
  destruct (dimm_dict_lookups (PStr (ParsedDimm.slot d))
              (opt_val PFloat (ParsedDimm.size_gib d))
              (opt_val PInt (ParsedDimm.speed_mt d))
              (PStr (ParsedDimm.type d)) (PBool (ParsedDimm.ecc d)))
    as (-> & -> & -> & -> & _).
  cbn [bind].
  destruct (ParsedDimm.size_gib d) as [f|]; cbn [opt_val].
  - unfold py_or. cbn [truthy]. destruct (float_is_zero f); cbn [negb];
      cbn [py_round2 as_num bind num_val];
      destruct (ParsedDimm.speed_mt d); reflexivity.
  - destruct (ParsedDimm.speed_mt d); reflexivity.
Qed.

Lemma have_keys_parsed (ds : list ParsedDimm.t) :
  have_keys (List.map parsed_dimm_val ds) = Ok (List.map parsed_key ds).
Proof.
  induction ds as [|d ds IH]; [reflexivity|].
  cbn [List.map have_keys].
  unfold parsed_dimm_val at 1.
  rewrite (proj2 (proj2 (proj2 (proj2 (dimm_dict_lookups _ _ _ _ _))))).
  fold (parsed_dimm_val d).
  rewrite have_key_parsed, IH. reflexivity.
Qed.

Lemma expected_key_wanted (e : ExpectedDimm.t) :
  expected_key (expected_dimm_val e) = Ok (wanted_key e).
Proof.
  unfold expected_key, expected_dimm_val, wanted_key, expected_size.
  destruct (expected_dict_lookups (PStr (ExpectedDimm.slot e))
              (num_val (ExpectedDimm.size_gib e))
              (PInt <$> ExpectedDimm.speed_mt e)
              (PBool <$> ExpectedDimm.ecc e))
    as (-> & -> & -> & ->).
  cbn [bind].
  destruct (ExpectedDimm.size_gib e) as [z|f],
           (ExpectedDimm.speed_mt e) as [sp|],
           (ExpectedDimm.ecc e) as [b|]; reflexivity.
Qed.

Lemma py_eqb_num_val (x y : num) : py_eqb (num_val x) (num_val y) = num_eqb x y.
Proof. destruct x, y; reflexivity. Qed.

Lemma py_eqb_opt_int (a b : option Z) :
  py_eqb (opt_val PInt a) (opt_val PInt b) = opt_Z_eqb a b.
Proof.
  destruct a as [x|], b as [y|]; try reflexivity.
  cbn. unfold num_eqb, num_compare. rewrite Z.eqb_compare. reflexivity.
Qed.

Lemma dimm_key_eqb_matches (e : ExpectedDimm.t) (d : ParsedDimm.t) :
  dimm_key_eqb (wanted_key e) (parsed_key d) = dimm_matches e d.
Proof.
  unfold dimm_key_eqb, wanted_key, parsed_key, dimm_matches.
  rewrite py_eqb_num_val, py_eqb_opt_int. reflexivity.
Qed.

Lemma existsb_matches (e : ExpectedDimm.t) (ds : list ParsedDimm.t) :
  existsb (dimm_key_eqb (wanted_key e)) (List.map parsed_key ds)
  = existsb (dimm_matches e) ds.
Proof.
  induction ds as [|d ds IH]; [reflexivity|].
  cbn [List.map existsb]. now rewrite dimm_key_eqb_matches, IH.
Qed.

Lemma missing_slots_absent (ds : list ParsedDimm.t)
    (es : list ExpectedDimm.t) :
  missing_slots (List.map parsed_key ds) (List.map expected_dimm_val es)
  = Ok (List.map (fun e => PStr (ExpectedDimm.slot e)) (absent_dimms ds es)).
Proof.
  induction es as [|e es IH]; [reflexivity|].
  cbn [List.map missing_slots absent_dimms List.filter].
  rewrite expected_key_wanted. cbn [bind].
  rewrite existsb_matches. fold (absent_dimms ds es).
  destruct (existsb (dimm_matches e) ds); cbn [negb].
  - exact IH.
  - rewrite IH.
    unfold expected_dimm_val at 1.
    rewrite (proj1 (expected_dict_lookups _ _ _ _)). reflexivity.
Qed.

Lemma absent_dimms_nil (ds : list ParsedDimm.t) (es : list ExpectedDimm.t) :
  absent_dimms ds es = [] <->
  forall e, In e es -> exists d, In d ds /\ dimm_matches e d = true.
Proof.
  unfold absent_dimms. induction es as [|e es IH]; cbn [List.filter].
  - split; [intros _ e [] | reflexivity].
  - destruct (existsb (dimm_matches e) ds) eqn:E; cbn [negb].
    + rewrite IH. apply existsb_exists in E. split.
      * intros H x [<-|Hx]; auto.
      * intros H x Hx. apply H. now right.
    + split; [discriminate|]. intros H.
      destruct (H e (or_introl eq_refl)) as (d & Hd & Hm).
      assert (existsb (dimm_matches e) ds = true)
        by (apply existsb_exists; eauto).
      congruence.
Qed.

(** C8. On a parsed DIMM inventory and a list of expected DIMMs,
    [all_expected_dimms] returns [ok = true] exactly when every expected
    DIMM is matched by a parsed DIMM (same slot, rounded size, speed and
    ECC flag); otherwise it returns [ok = false] with a note that lists,
    in order, exactly the slot names of the expected DIMMs that no parsed
    DIMM matches. *)
Theorem all_expected_dimms_lists_absent (ds : list ParsedDimm.t)
    (es : list ExpectedDimm.t) :
  all_expected_dimms (inventory ds) (PList (List.map expected_dimm_val es))
  = Ok (match absent_dimms ds es with
        | [] => (true, NoteAllDimmsPresent)
        | absent =>
            (false,
             NoteMissingMismatch
               (List.map (fun e => PStr (ExpectedDimm.slot e)) absent))
        end)
  /\ (absent_dimms ds es = [] <->
      forall e, In e es -> exists d, In d ds /\ dimm_matches e d = true).
Proof.
  split; [|apply absent_dimms_nil].
  unfold all_expected_dimms.
  replace (default (PList []) (inventory ds !! "dimms"))
    with (PList (List.map parsed_dimm_val ds)) by reflexivity.
  cbn [py_iter bind]. rewrite have_keys_parsed. cbn [bind].
  rewrite missing_slots_absent. cbn [bind].
  destruct (absent_dimms ds es); reflexivity.
Qed.

Lemma all_expected_dimms_lists_absent_witness :
  let have := {| ParsedDimm.slot := "DIMM_A1";
                 ParsedDimm.size_gib := Some f16;
                 ParsedDimm.speed_mt := Some 3200;
                 ParsedDimm.type := "DDR4"; ParsedDimm.ecc := true |} in
  let want slot := {| ExpectedDimm.slot := slot;
                      ExpectedDimm.size_gib := NInt 16;
                      ExpectedDimm.speed_mt := Some 3200;
                      ExpectedDimm.ecc := None |} in
  all_expected_dimms (inventory [have])
    (PList (List.map expected_dimm_val [want "DIMM_A1"; want "DIMM_B1"]))
  = Ok (false, NoteMissingMismatch [PStr "DIMM_B1"]).
Proof.
  intros have want.
  rewrite (proj1 (all_expected_dimms_lists_absent
                    [have] [want "DIMM_A1"; want "DIMM_B1"])).
  vm_compute. reflexivity.
Defined.

(** ** validators.py: [total_mem_within_pct] *)

Lemma digits2_ge_1 p : 1 <= digits2 p.
Proof. unfold digits2. lia. Qed.

Lemma digits2_bounds (p : positive) :
  2 ^ (digits2 p - 1) <= Zpos p < 2 ^ digits2 p.
Proof.
  unfold digits2. induction p as [p IH|p IH|]; cbn [digits2_pos].
  - rewrite Pos2Z.inj_succ.
    replace (Z.succ (Zpos (digits2_pos p)) - 1)
      with (Z.succ (Zpos (digits2_pos p) - 1)) by lia.
    rewrite !Z.pow_succ_r by lia. lia.
  - rewrite Pos2Z.inj_succ.
    replace (Z.succ (Zpos (digits2_pos p)) - 1)
      with (Z.succ (Zpos (digits2_pos p) - 1)) by lia.
    rewrite !Z.pow_succ_r by lia. lia.
  - simpl. lia.
Qed.

Lemma digits2_ge (p : positive) (k : Z) :
  2 ^ (k - 1) <= Zpos p -> k <= digits2 p.
Proof.
  intros H. pose proof (digits2_bounds p) as [_ B]. pose proof (digits2_ge_1 p).
  destruct (Z.le_gt_cases k (digits2 p)) as [|G]; [assumption|].
  assert (2 ^ digits2 p <= 2 ^ (k - 1)) by (apply Z.pow_le_mono_r; lia). lia.
Qed.

Lemma digits2_le (p : positive) (k : Z) :
  Zpos p < 2 ^ k -> 0 <= k -> digits2 p <= k.
Proof.
  intros H Hk. pose proof (digits2_bounds p) as [B _].
  pose proof (digits2_ge_1 p).
  destruct (Z.le_gt_cases (digits2 p) k) as [|G]; [assumption|].
  assert (2 ^ k <= 2 ^ (digits2 p - 1)) by (apply Z.pow_le_mono_r; lia). lia.
Qed.

Lemma iter_xO_val (m d : positive) :
  Zpos (Pos.iter xO m d) = Zpos m * 2 ^ Zpos d.
Proof.
  induction d as [|d IH] using Pos.peano_ind.
  - simpl. lia.
  - rewrite Pos.iter_succ, Pos2Z.inj_succ, Z.pow_succ_r by lia.
    replace (Zpos (Pos.iter xO m d)~0) with (2 * Zpos (Pos.iter xO m d)) by lia.
    rewrite IH. lia.
Qed.

Lemma iter_xO_digits2 (m d : positive) :
  digits2 (Pos.iter xO m d) = digits2 m + Zpos d.
Proof.
  unfold digits2. induction d as [|d IH] using Pos.peano_ind.
  - simpl. lia.
  - rewrite Pos.iter_succ. cbn [digits2_pos]. lia.
Qed.

Lemma shr_1_m (r : shr_record) :
  0 <= shr_m r -> shr_m (shr_1 r) = shr_m r / 2.
Proof.
  destruct r as [m b s]. cbn [shr_m]. intros H.
  destruct m as [|[p|p|]|p]; cbn [shr_1 shr_m]; try reflexivity; try lia.
  - rewrite Pos2Z.inj_xI. apply Z.div_unique with 1; lia.
  - rewrite Pos2Z.inj_xO. apply Z.div_unique with 0; lia.
Qed.

Lemma shr_1_nonneg (r : shr_record) : 0 <= shr_m r -> 0 <= shr_m (shr_1 r).
Proof.
  intros H. rewrite shr_1_m by assumption. apply Z.div_pos; lia.
Qed.

Lemma pow2_double (n : positive) : 2 ^ Zpos n~0 = 2 ^ Zpos n * 2 ^ Zpos n.
Proof.
  replace (Zpos n~0) with (Zpos n + Zpos n) by lia.
  apply Z.pow_add_r; lia.
Qed.

Lemma pow2_double_succ (n : positive) :
  2 ^ Zpos n~1 = 2 * (2 ^ Zpos n * 2 ^ Zpos n).
Proof.
  replace (Zpos n~1) with (Z.succ (Zpos n + Zpos n)) by lia.
  rewrite Z.pow_succ_r, Z.pow_add_r by lia. reflexivity.
Qed.

Lemma iter_shr_m (n : positive) (r : shr_record) :
  0 <= shr_m r ->
  shr_m (SpecFloat.iter_pos shr_1 n r) = shr_m r / 2 ^ Zpos n.
Proof.
  revert r. induction n as [n IH|n IH|]; intros r H; cbn [SpecFloat.iter_pos].
  - assert (H1 : 0 <= shr_m (shr_1 r)) by now apply shr_1_nonneg.
    assert (H2 : 0 <= shr_m (SpecFloat.iter_pos shr_1 n (shr_1 r))).
    { rewrite IH by assumption. apply Z.div_pos; lia. }
    rewrite IH, IH, shr_1_m by assumption.
    rewrite pow2_double_succ.
    rewrite !Z.div_div by lia. reflexivity.
  - assert (H2 : 0 <= shr_m (SpecFloat.iter_pos shr_1 n r)).
    { rewrite IH by assumption. apply Z.div_pos; lia. }
    rewrite IH, IH by assumption.
    rewrite pow2_double.
    rewrite !Z.div_div by lia. reflexivity.
  - rewrite shr_1_m by assumption. reflexivity.
Qed.

Lemma shr_spec (r : shr_record) (e n : Z) :
  0 <= shr_m r -> 0 <= n ->
  shr_m (fst (shr r e n)) = shr_m r / 2 ^ n /\ snd (shr r e n) = e + n.
Proof.
  intros H Hn. destruct n as [|n|n]; cbn [shr fst snd]; [| |lia].
  - rewrite Z.div_1_r. lia.
  - split; [now apply iter_shr_m | reflexivity].
Qed.

Lemma round_nearest_even_bounds (m : Z) (l : location) :
  m <= round_nearest_even m l <= m + 1.
Proof.
  destruct l as [|[| |]]; cbn [round_nearest_even]; try lia.
  destruct (Z.even m); lia.
Qed.

Lemma fexp_normal (z : Z) : -1021 <= z -> fexp prec emax z = z - 53.
Proof. intros H. unfold fexp, emin, prec, emax. lia. Qed.

Lemma div_pow2_ge (m a b : Z) :
  0 <= b <= a -> 2 ^ a <= m -> 2 ^ (a - b) <= m / 2 ^ b.
Proof.
  intros Hab H.
  apply Z.div_le_lower_bound; [lia|].
  rewrite <- Z.pow_add_r by lia. replace (b + (a - b)) with a by lia.
  exact H.
Qed.

Lemma binary_round_aux_large (s : bool) (mz : positive) (ez : Z)
    (l : location) :
  -49 <= digits2 mz + ez - 53 -> ez <= digits2 mz + ez - 53 ->
  is_large (binary_round_aux prec emax s (Zpos mz) ez l).
Proof.
  intros HE Hn. set (E := digits2 mz + ez - 53) in *.
  unfold binary_round_aux, shr_fexp.
  change (Zdigits2 (Zpos mz)) with (digits2 mz).
  rewrite (fexp_normal (digits2 mz + ez)) by lia. fold E.
  assert (Hr0 : 0 <= shr_m (shr_record_of_loc (Zpos mz) l)).
  { destruct l as [|[| |]]; cbn; lia. }
  assert (Hm0 : shr_m (shr_record_of_loc (Zpos mz) l) = Zpos mz).
  { destruct l as [|[| |]]; reflexivity. }
  destruct (shr_spec (shr_record_of_loc (Zpos mz) l) ez (E - ez) Hr0
              ltac:(lia)) as [S1 S2].
  destruct (shr (shr_record_of_loc (Zpos mz) l) ez (E - ez)) as [mrs' e'].
  cbn [fst snd] in S1, S2. rewrite Hm0 in S1.
  assert (He' : e' = E) by lia. clear S2. subst e'. cbv iota beta.
  assert (Hm1 : 2 ^ 52 <= shr_m mrs').
  { rewrite S1.
    replace 52 with ((digits2 mz - 1) - (E - ez)) by (unfold E; lia).
    apply div_pow2_ge; [unfold E; pose proof (digits2_ge_1 mz); lia|].
    apply digits2_bounds. }
  pose proof (round_nearest_even_bounds (shr_m mrs')
                (loc_of_shr_record mrs')) as [R1 _].
  set (m2 := round_nearest_even (shr_m mrs') (loc_of_shr_record mrs')) in *.
  assert (Hm2 : 2 ^ 52 <= m2) by lia.
  destruct m2 as [|q2|q2] eqn:Eq2; [lia| |lia].
  change (Zdigits2 (Zpos q2)) with (digits2 q2).
  assert (Hd2 : 53 <= digits2 q2) by (apply digits2_ge; exact Hm2).
  rewrite (fexp_normal (digits2 q2 + E)) by lia.
  destruct (shr_spec (shr_record_of_loc (Zpos q2) loc_Exact) E
              (digits2 q2 + E - 53 - E) ltac:(cbn; lia) ltac:(lia)) as [T1 T2].
  destruct (shr (shr_record_of_loc (Zpos q2) loc_Exact) E
              (digits2 q2 + E - 53 - E)) as [mrs'' e''].
  cbn [fst snd shr_record_of_loc shr_m] in T1, T2. cbv iota beta.
  assert (Hm3 : 1 <= shr_m mrs'').
  { rewrite T1. change 1 with (2 ^ 0).
    replace 0 with ((digits2 q2 - 1) - (digits2 q2 - 1)) at 1 by lia.
    transitivity (Zpos q2 / 2 ^ (digits2 q2 - 1)).
    - apply div_pow2_ge; [lia | apply digits2_bounds].
    - apply Z.div_le_compat_l; [lia|]. split; [lia|].
      apply Z.pow_le_mono_r; lia. }
  destruct (shr_m mrs'') as [|m3|m3]; [lia| |lia].
  destruct (e'' <=? emax - prec); cbn; lia.
Qed.

Lemma shl_align_spec (p : positive) (ez E : Z) :
  let mz := fst (shl_align p ez E) in
  let ez' := snd (shl_align p ez E) in
  digits2 mz + ez' = digits2 p + ez /\ ez' <= E /\ ez' <= ez
  /\ Zpos mz = Zpos p * 2 ^ (ez - ez').
Proof.
  unfold shl_align. destruct (E - ez) as [|k|k] eqn:Ek; cbn [fst snd].
  - rewrite Z.sub_diag. lia.
  - rewrite Z.sub_diag. lia.
  - rewrite iter_xO_digits2, iter_xO_val.
    replace (ez - E) with (Zpos k) by lia. lia.
Qed.

Lemma binary_round_large (s : bool) (p : positive) (ez : Z) :
  4 <= digits2 p + ez -> is_large (binary_round prec emax s p ez).
Proof.
  intros H. unfold binary_round.
  change (Zpos (digits2_pos p)) with (digits2 p).
  rewrite (fexp_normal (digits2 p + ez)) by lia.
  destruct (shl_align_spec p ez (digits2 p + ez - 53)) as (A1 & A2 & A3 & _).
  destruct (shl_align p ez (digits2 p + ez - 53)) as [mz ez'].
  cbn [fst snd] in A1, A2, A3.
  apply binary_round_aux_large; lia.
Qed.

Lemma binary_round_exact (s : bool) (p : positive) (ez : Z) :
  digits2 p <= 53 -> -1021 <= digits2 p + ez -> digits2 p + ez - 53 <= 971 ->
  exists mz,
    binary_round prec emax s p ez = S754_finite s mz (digits2 p + ez - 53)
    /\ Zpos mz = Zpos p * 2 ^ (53 - digits2 p)
    /\ digits2 mz = 53.
Proof.
  intros Hd Hlo Hhi. unfold binary_round.
  change (Zpos (digits2_pos p)) with (digits2 p).
  rewrite (fexp_normal (digits2 p + ez)) by lia.
  destruct (shl_align_spec p ez (digits2 p + ez - 53)) as (A1 & A2 & A3 & A4).
  assert (A5 : snd (shl_align p ez (digits2 p + ez - 53))
               = digits2 p + ez - 53).
  { unfold shl_align in *. destruct (digits2 p + ez - 53 - ez) eqn:Ek;
      cbn [fst snd] in *; lia. }
  destruct (shl_align p ez (digits2 p + ez - 53)) as [mz ez'].
  cbn [fst snd] in A1, A2, A3, A4, A5. subst ez'.
  exists mz. assert (Dz : digits2 mz = 53) by lia.
  replace (ez - (digits2 p + ez - 53)) with (53 - digits2 p) in A4 by lia.
  split; [|split; [exact A4 | exact Dz]].
  unfold binary_round_aux, shr_fexp.
  change (Zdigits2 (Zpos mz)) with (digits2 mz). rewrite Dz.
  rewrite (fexp_normal (53 + (digits2 p + ez - 53))) by lia.
  replace (53 + (digits2 p + ez - 53) - 53 - (digits2 p + ez - 53)) with 0
    by lia.
  cbn [shr shr_record_of_loc shr_m loc_of_shr_record round_nearest_even].
  change (Zdigits2 (Zpos mz)) with (digits2 mz). rewrite Dz.
  rewrite (fexp_normal (53 + (digits2 p + ez - 53))) by lia.
  replace (53 + (digits2 p + ez - 53) - 53 - (digits2 p + ez - 53)) with 0
    by lia.
  cbn [shr shr_record_of_loc shr_m].
  replace (digits2 p + ez - 53 <=? emax - prec) with true; [reflexivity|].
  symmetry. apply Z.leb_le. unfold emax, prec. lia.
Qed.

Lemma tol_16_2_eq :
  SFmul prec emax f16 (SFdiv prec emax f2 f100) = tol_16_2.
Proof. vm_compute. reflexivity. Qed.

Lemma large_not_within (r : float) :
  is_large r -> SFleb (SFabs r) tol_16_2 = false.
Proof.
  destruct r as [s|s| |s m e]; cbn [is_large]; intros H.
  - destruct H.
  - reflexivity.
  - destruct H.
  - unfold SFleb, SFabs, SFcompare, tol_16_2.
    destruct (Z.compare_spec e (-54)); try lia; reflexivity.
Qed.

Lemma bounded_facts (m : positive) (e : Z) :
  bounded prec emax m e = true ->
  digits2 m <= 53 /\ -1074 <= e <= 971 /\ (-1074 < e -> digits2 m = 53).
Proof.
  unfold bounded, canonical_mantissa, fexp, emin, prec, emax.
  change (Zpos (digits2_pos m)) with (digits2 m).
  intros H. apply andb_true_iff in H as [H1 H2].
  apply Z.eqb_eq in H1. apply Z.leb_le in H2. lia.
Qed.

Lemma shl_align_down (m : positive) (e E : Z) :
  E <= e -> Zpos (fst (shl_align m e E)) = Zpos m * 2 ^ (e - E).
Proof.
  intros H. unfold shl_align. destruct (E - e) as [|k|k] eqn:Ek; cbn [fst].
  - replace (e - E) with 0 by lia. lia.
  - lia.
  - rewrite iter_xO_val. f_equal. f_equal. lia.
Qed.

Lemma binary_normalize_large (M ez : Z) (k : Z) :
  0 <= k -> 2 ^ k <= Z.abs M -> 3 <= k + ez ->
  is_large (binary_normalize prec emax M ez false).
Proof.
  intros H0 H Hk. pose proof (Z.pow_pos_nonneg 2 k ltac:(lia) H0) as Hp.
  destruct M as [|p|p]; cbn [binary_normalize Z.abs] in *; [lia| |].
  - apply binary_round_large.
    pose proof (digits2_ge p (k + 1)).
    replace (k + 1 - 1) with k in * by lia. lia.
  - apply binary_round_large.
    pose proof (digits2_ge p (k + 1)).
    replace (k + 1 - 1) with k in * by lia. lia.
Qed.

Lemma pos_leb_compare (a b : positive) :
  match Pos.compare_cont Eq a b with Lt | Eq => true | Gt => false end
  = (Zpos a <=? Zpos b).
Proof.
  unfold Z.leb. cbn [Z.compare]. unfold Pos.compare.
  destruct (Pos.compare_cont Eq a b); reflexivity.
Qed.

Lemma finite_leb_tol (mz p : positive) (ez : Z) :
  (ez = -49 \/ ez = -48) ->
  Zpos mz = Zpos p * 2 ^ (53 - digits2 p) -> digits2 p <= 53 ->
  SFleb (S754_finite false mz (digits2 p + ez - 53)) tol_16_2
  = (Zpos p <=? tol_bound ez).
Proof.
  intros Hez Hv Hd. pose proof (digits2_bounds p) as [B1 B2].
  pose proof (digits2_ge_1 p) as B0.
  unfold SFleb, SFcompare, tol_16_2.
  destruct (Z.compare_spec (digits2 p + ez - 53) (-54)) as [E|E|E].
  - cbv iota. rewrite pos_leb_compare. rewrite Hv.
    destruct Hez as [-> | ->];
      [change (tol_bound (-49)) with 180143985094819
      |change (tol_bound (-48)) with 90071992547409].
    + replace (digits2 p) with 48 by lia. change (2 ^ (53 - 48)) with 32.
      destruct (Z.leb_spec (Zpos p * 32) 5764607523034235),
               (Z.leb_spec (Zpos p) 180143985094819); lia.
    + replace (digits2 p) with 47 by lia. change (2 ^ (53 - 47)) with 64.
      destruct (Z.leb_spec (Zpos p * 64) 5764607523034235),
               (Z.leb_spec (Zpos p) 90071992547409); lia.
  - symmetry. apply Z.leb_le.
    destruct Hez as [-> | ->];
      [change (tol_bound (-49)) with 180143985094819
      |change (tol_bound (-48)) with 90071992547409].
    + assert (2 ^ digits2 p <= 2 ^ 47) by (apply Z.pow_le_mono_r; lia).
      change (2 ^ 47) with 140737488355328 in *. lia.
    + assert (2 ^ digits2 p <= 2 ^ 46) by (apply Z.pow_le_mono_r; lia).
      change (2 ^ 46) with 70368744177664 in *. lia.
  - symmetry. apply Z.leb_gt.
    destruct Hez as [-> | ->];
      [change (tol_bound (-49)) with 180143985094819
      |change (tol_bound (-48)) with 90071992547409].
    + assert (2 ^ 48 <= 2 ^ (digits2 p - 1)) by (apply Z.pow_le_mono_r; lia).
      change (2 ^ 48) with 281474976710656 in *. lia.
    + assert (2 ^ 47 <= 2 ^ (digits2 p - 1)) by (apply Z.pow_le_mono_r; lia).
      change (2 ^ 47) with 140737488355328 in *. lia.
Qed.

Lemma binary_normalize_exact_leb (M ez : Z) :
  (ez = -49 \/ ez = -48) ->
  Z.abs M < 2 ^ 53 ->
  SFleb (SFabs (binary_normalize prec emax M ez false)) tol_16_2
  = (Z.abs M <=? tol_bound ez).
Proof.
  intros Hez HM.
  destruct M as [|p|p]; cbn [binary_normalize Z.abs] in *.
  - destruct Hez as [-> | ->]; reflexivity.
  - assert (Hd : digits2 p <= 53) by (apply digits2_le; lia).
    destruct (binary_round_exact false p ez Hd
                ltac:(pose proof (digits2_ge_1 p); lia)
                ltac:(lia)) as (mz & -> & Hv & Dz).
    cbn [SFabs]. now apply finite_leb_tol.
  - assert (Hd : digits2 p <= 53) by (apply digits2_le; lia).
    destruct (binary_round_exact true p ez Hd
                ltac:(pose proof (digits2_ge_1 p); lia)
                ltac:(lia)) as (mz & -> & Hv & Dz).
    cbn [SFabs]. now apply finite_leb_tol.
Qed.

Lemma within_tol_iff (x : float) :
  valid_binary prec emax x = true ->
  SFleb (SFabs (SFsub prec emax x f16)) tol_16_2
  = SFleb mem_lo x && SFleb x mem_hi.
Proof.
  destruct x as [s|s| |s m e]; intros V.
  1-2: destruct s; reflexivity.
  1: reflexivity.
  cbn [valid_binary] in V.
  destruct (bounded_facts m e V) as (Hd & He & Hn).
  pose proof (digits2_bounds m) as [B1 B2]. pose proof (digits2_ge_1 m) as B0.
  unfold f16. cbn [SFsub].
  set (ez := Z.min e (-48)).
  rewrite (shl_align_down m e ez) by (unfold ez; lia).
  rewrite (shl_align_down 4503599627370496 (-48) ez) by (unfold ez; lia).
  cbn [cond_Zopp].
  destruct s.
  - (* negative *)
    cbn [cond_Zopp].
    rewrite large_not_within.
    + reflexivity.
    + apply (binary_normalize_large _ ez (4 - ez)); [unfold ez; lia| |lia].
      assert (P1 : 0 < 2 ^ (e - ez))
        by (apply Z.pow_pos_nonneg; unfold ez; lia).
      assert (P2 : 4503599627370496 * 2 ^ (-48 - ez) = 2 ^ (4 - ez)).
      { change 4503599627370496 with (2 ^ 52).
        rewrite <- Z.pow_add_r by (unfold ez; lia). f_equal. lia. }
      rewrite P2. 
      assert (0 < 2 ^ (4 - ez)) by (apply Z.pow_pos_nonneg; unfold ez; lia).
      nia.
  - cbn [cond_Zopp].
    destruct (Z_lt_le_dec e (-49)) as [Hlt|Hge];
      [|destruct (Z_le_gt_dec e (-48)) as [Hle|Hgt]].
    + (* below 8 *)
      rewrite large_not_within.
      * unfold SFleb, SFcompare, mem_lo.
        destruct (Z.compare_spec (-49) e); try lia; try reflexivity.
      * assert (ez = e) by (unfold ez; lia).
        apply (binary_normalize_large _ ez (3 - e)); [lia| |lia].
        replace (e - ez) with 0 by lia. rewrite Z.mul_1_r.
        assert (P2 : 4503599627370496 * 2 ^ (-48 - ez) = 2 ^ (4 - e)).
        { change 4503599627370496 with (2 ^ 52).
          rewrite <- Z.pow_add_r by lia. f_equal. lia. }
        rewrite P2.
        replace (4 - e) with (Z.succ (3 - e)) by lia.
        rewrite Z.pow_succ_r by lia.
        assert (2 ^ 53 <= 2 ^ (3 - e)) by (apply Z.pow_le_mono_r; lia).
        assert (Zpos m < 2 ^ 53).
        { apply Z.lt_le_trans with (2 ^ digits2 m); [lia|].
          apply Z.pow_le_mono_r; lia. }
        lia.
    + (* the exact range: e is -49 or -48 *)
      assert (Dm : digits2 m = 53) by (apply Hn; lia).
      rewrite Dm in *. change (2 ^ (53 - 1)) with 4503599627370496 in B1.
      change (2 ^ 53) with 9007199254740992 in B2.
      assert (Hez : ez = e) by (unfold ez; lia).
      rewrite binary_normalize_exact_leb.
      2:{ lia. }
      2:{ rewrite Hez. replace (e - e) with 0 by lia.
          change (2 ^ 0) with 1. change (2 ^ 53) with 9007199254740992.
          assert (e = -49 \/ e = -48) as [-> | ->] by lia;
            [change (2 ^ (-48 - -49)) with 2
            |change (2 ^ (-48 - -48)) with 1]; lia. }
      rewrite Hez. replace (e - e) with 0 by lia.
      change (2 ^ 0) with 1. rewrite Z.mul_1_r.
      unfold SFleb, SFcompare, mem_lo, mem_hi.
      assert (e = -49 \/ e = -48) as [-> | ->] by lia.
      * change (Z.compare (-49) (-49)) with Eq.
        change (Z.compare (-49) (-48)) with Lt.
        cbv iota. rewrite pos_leb_compare, andb_true_r.
        change (tol_bound (-49)) with 180143985094819.
        change (2 ^ (-48 - -49)) with 2.
        destruct (Z.leb_spec (Z.abs (Zpos m - 4503599627370496 * 2))
                             180143985094819),
                 (Z.leb_spec 8827055269646173 (Zpos m)); lia.
      * change (Z.compare (-49) (-48)) with Lt.
        change (Z.compare (-48) (-48)) with Eq.
        cbv iota. rewrite pos_leb_compare. cbn [andb].
        change (tol_bound (-48)) with 90071992547409.
        change (2 ^ (-48 - -48)) with 1.
        destruct (Z.leb_spec (Z.abs (Zpos m - 4503599627370496 * 1))
                             90071992547409),
                 (Z.leb_spec (Zpos m) 4593671619917905); lia.
    + (* 32 and above *)
      assert (Dm : digits2 m = 53) by (apply Hn; lia).
      rewrite Dm in *. change (2 ^ (53 - 1)) with 4503599627370496 in B1.
      rewrite large_not_within.
      * unfold SFleb, SFcompare, mem_lo, mem_hi.
        destruct (Z.compare_spec (-49) e); try lia.
        destruct (Z.compare_spec e (-48)); try lia; try reflexivity.
      * assert (ez = -48) by (unfold ez; lia).
        apply (binary_normalize_large _ ez 52); [lia| |lia].
        replace (-48 - ez) with 0 by lia. rewrite Z.mul_1_r.
        assert (2 ^ 1 <= 2 ^ (e - ez)) by (apply Z.pow_le_mono_r; lia).
        change (2 ^ 1) with 2 in *. change (2 ^ 52) with 4503599627370496.
        nia.
Qed.

Lemma total_mem_within_pct_float (parsed : gmap string pyval) (x : float) :
  parsed !! "total_gib" = Some (PFloat x) ->
  valid_binary prec emax x = true ->
  total_mem_within_pct parsed (PFloat f16) (PFloat f2)
  = Ok (SFleb mem_lo x && SFleb x mem_hi,
        NoteMemTotal (py_or (PFloat x) (PInt 0)) (PFloat f16) (PFloat f2)).
Proof.
  intros Hp V. unfold total_mem_within_pct. rewrite Hp.
  change (default (PInt 0) (Some (PFloat x))) with (PFloat x).
  destruct (float_is_zero x) eqn:Z.
  - destruct x as [s| | |]; try discriminate. destruct s; reflexivity.
  - assert (A : py_or (PFloat x) (PInt 0) = PFloat x).
    { unfold py_or. cbn [truthy]. now rewrite Z. }
    rewrite A. unfold py_sub. cbn [as_num num_to_float bind py_abs].
    change (py_truediv (PFloat f2) (PFloat f100))
      with (Ok (PFloat (SFdiv prec emax f2 f100)) : res pyval).
    cbn [bind]. unfold py_mul. cbn [as_num num_to_float bind].
    rewrite tol_16_2_eq.
    unfold py_le. cbn [as_num bind ok_note].
    replace (num_leb (NFloat (SFabs (SFsub prec emax x f16))) (NFloat tol_16_2))
      with (SFleb (SFabs (SFsub prec emax x f16)) tol_16_2) by reflexivity.
    now rewrite within_tol_iff.
Qed.

(** C7, as the specification states it, fails at the ends of the
    interval: 15.68 is a value [parse_meminfo] produces (for 16441672 kB),
    it lies in the closed interval from 15.68 to 16.32, and the validator
    returns [ok = false] for it, because [15.68 - 16.0] evaluates to a
    float slightly larger in magnitude than [16.0 * (2.0 / 100.0)]. *)
Lemma total_mem_within_pct_claim_counterexample :
  int_truediv 1568 100 = Ok f1568
  /\ parse_meminfo "MemTotal: 16441672 kB"
     = Ok ({[ "total_gib" := PFloat f1568 ]} : gmap string pyval)
  /\ SFleb f1568 f1568 && SFleb f1568 f1632 = true
  /\ exists n,
       total_mem_within_pct {[ "total_gib" := PFloat f1568 ]}
                            (PFloat f16) (PFloat f2)
       = Ok (false, n).
Proof.
  split; [vm_compute; reflexivity|].
  split; [vm_compute; reflexivity|].
  split; [vm_compute; reflexivity|].
  eexists. vm_compute. reflexivity.
Qed.

(** C7 (amended). For every parsed record whose [total_gib] is a float
    [x], [total_mem_within_pct(parsed, 16.0, 2.0)] returns [ok = true]
    exactly when [x] lies in the closed interval from [mem_lo] to
    [mem_hi], the float next above 15.68 and the float next below 16.32:
    the test [abs(x - 16.0) <= 16.0 * (2.0 / 100.0)] is evaluated in
    binary64 arithmetic. In particular it returns [ok = false] at 15.0,
    and also at 15.68 and at 16.32 themselves. *)
Theorem total_mem_within_pct_16_2_interval (parsed : gmap string pyval)
    (x : float) :
  parsed !! "total_gib" = Some (PFloat x) ->
  valid_binary prec emax x = true ->
  (exists n,
     total_mem_within_pct parsed (PFloat f16) (PFloat f2)
     = Ok (SFleb mem_lo x && SFleb x mem_hi, n))
  /\ (int_truediv 1568 100 = Ok f1568 /\ SFsucc prec emax f1568 = mem_lo)
  /\ (int_truediv 1632 100 = Ok f1632 /\ SFpred prec emax f1632 = mem_hi)
  /\ (float_of_Z 15 = Ok f15 /\ SFleb mem_lo f15 && SFleb f15 mem_hi = false)
  /\ SFleb mem_lo f1568 && SFleb f1568 mem_hi = false
  /\ SFleb mem_lo f1632 && SFleb f1632 mem_hi = false.
Proof.
  intros Hp V. split.
  - eexists. apply total_mem_within_pct_float; assumption.
  - repeat split; vm_compute; reflexivity.
Qed.

Lemma total_mem_within_pct_16_2_interval_witness :
  exists n,
    total_mem_within_pct {[ "total_gib" := PFloat f16 ]}
                         (PFloat f16) (PFloat f2)
    = Ok (true, n).
Proof.
  exact (proj1 (total_mem_within_pct_16_2_interval
                  {[ "total_gib" := PFloat f16 ]} f16 eq_refl eq_refl)).
Defined.

(* ===================================================================== *)
(** * Part III. Further properties of the code                            *)
(* ===================================================================== *)

(** ** exec_pool.py: results, events and the patch *)

Lemma execute_steps_ids (env : remote) (host : string) (on_event : bool)
    (l : list ExecStep.t) (n : nat) :
  List.map RawResult.step_id (fst (execute_steps env host on_event n l))
  = List.map ExecStep.id l.
Proof.
  revert n; induction l as [|s l IH]; intros n; simpl; [reflexivity|].
  specialize (IH (S n)).
  destruct (execute_steps env host on_event (S n) l) as [results evs].
  simpl in *. now rewrite IH.
Qed.

Lemma execute_steps_sink_free (env : remote) (host : string)
    (l : list ExecStep.t) (n : nat) :
  fst (execute_steps env host true n l)
  = fst (execute_steps env host false n l)
  /\ snd (execute_steps env host false n l) = [].
Proof.
  revert n; induction l as [|s l IH]; intros n; simpl; [split; reflexivity|].
  destruct (IH (S n)) as [IH1 IH2].
  destruct (execute_steps env host true (S n) l) as [r1 e1].
  destruct (execute_steps env host false (S n) l) as [r2 e2].
  simpl in *. subst. split; reflexivity.
Qed.

Lemma execute_steps_event_log (env : remote) (host : string)
    (l : list ExecStep.t) (n : nat) :
  snd (execute_steps env host true n l)
  = flat_map (fun sr => step_events (fst sr) (snd sr))
             (combine l (fst (execute_steps env host true n l))).
Proof.
  revert n; induction l as [|s l IH]; intros n; simpl; [reflexivity|].
  specialize (IH (S n)).
  destruct (execute_steps env host true (S n) l) as [results evs].
  simpl in *. now rewrite IH.
Qed.

(** X1. [execute_plan] returns one result per step of the plan, in plan
    order, each carrying the id of its step, and the results do not
    depend on whether an event sink is given. *)
Theorem execute_plan_results_aligned (env : remote) (host : string)
    (plan : ExecPlan.t) (on_event : bool) :
  let results := fst (execute_plan env host plan on_event) in
  List.map RawResult.step_id results
  = List.map ExecStep.id (ExecPlan.steps plan)
  /\ length results = length (ExecPlan.steps plan)
  /\ results = fst (execute_plan env host plan false).
Proof.
  unfold execute_plan. split; [apply execute_steps_ids|].
  split; [apply execute_steps_length|].
  destruct on_event; [apply execute_steps_sink_free | reflexivity].
Qed.

(** X2. The events that [execute_plan] hands to its sink are, step by
    step in plan order, the [step_start] of the step followed by the
    [step_result] with the exit code and the duration of the step's
    result, and nothing else; without a sink no event is produced. *)
Theorem execute_plan_event_log (env : remote) (host : string)
    (plan : ExecPlan.t) :
  snd (execute_plan env host plan true)
  = flat_map (fun sr => step_events (fst sr) (snd sr))
             (combine (ExecPlan.steps plan)
                      (fst (execute_plan env host plan true)))
  /\ snd (execute_plan env host plan false) = [].
Proof.
  unfold execute_plan. split; [apply execute_steps_event_log|].
  apply execute_steps_sink_free.
Qed.

Lemma take_str_prefix (n : N) (s : string) :
  exists rest, s = take_str n s ++ rest
               /\ ((len s <= n)%N -> rest = "").
Proof.
  revert n; induction s as [|c s IH]; intros n.
  - exists "". split; [reflexivity | reflexivity].
  - cbn [take_str]. destruct (N.eqb_spec n 0) as [->|Hn].
    + exists (String c s). split; [reflexivity|]. cbn [len]. lia.
    + destruct (IH (N.pred n)) as (rest & E & Hr).
      exists rest. split.
      * change (String c s = String c (take_str (N.pred n) s ++ rest)).
        now rewrite <- E.
      * cbn [len]. intros H. apply Hr. lia.
Qed.

(** X3. [run_cmd] only ever cuts text off at the end: the stored stdout
    and stderr are prefixes of the captured streams, and when [truncated]
    is false both streams are stored whole. *)
Theorem run_cmd_keeps_prefix (exit_status ms : Z) (out err : option string) :
  let rr := run_cmd {| reply := Completed exit_status out err;
                       elapsed_ms := ms |} in
  exists rest_out rest_err,
    default "" out = RawResult.stdout rr ++ rest_out
    /\ default "" err = RawResult.stderr rr ++ rest_err
    /\ (RawResult.truncated rr = false -> rest_out = "" /\ rest_err = "").
Proof.
  cbn [run_cmd reply elapsed_ms RawResult.stdout RawResult.stderr
       RawResult.truncated].
  destruct (take_str_prefix OUTPUT_CAP (default "" out)) as (r1 & E1 & H1).
  destruct (take_str_prefix ERR_CAP (default "" err)) as (r2 & E2 & H2).
  exists r1, r2. split; [exact E1|]. split; [exact E2|].
  intros H. apply orb_false_iff in H as [Ha Hb].
  apply N.ltb_ge in Ha, Hb. split; auto.
Qed.

Lemma py_is_str_iff (v : option pyval) (s : string) :
  py_is_str v s = true <-> v = Some (PStr s).
Proof.
  unfold py_is_str.
  destruct v as [[]|]; try (split; [discriminate|]; intros [=]).
  rewrite String.eqb_eq. split; [now intros -> | now intros [= ->]].
Qed.

Lemma no_fallback_iff (l : list ToDoStep.t) :
  existsb (fun s => String.eqb (ToDoStep.id s) "s_fallback_sysfs") l = false
  <-> forall s, In s l -> ToDoStep.id s <> "s_fallback_sysfs".
Proof.
  induction l as [|x l IH]; simpl.
  - split; [intros _ s [] | reflexivity].
  - rewrite orb_false_iff, IH, String.eqb_neq. split.
    + intros [Hx Hl] s [<-|Hs]; auto.
    + intros H. split; [apply H; now left | intros s Hs; apply H; now right].
Qed.

(** X4. [critic_propose_patch] proposes a patch exactly when the
    context's [component] is ["nic"], the failure's [parser] is
    ["parse_ethtool"], and no step of the DSL has the id
    [s_fallback_sysfs]. *)
Theorem critic_propose_patch_fires_iff (dsl : ToDoDSL.t)
    (failure : gmap string pyval) :
  (exists dsl', critic_propose_patch dsl failure = Some dsl')
  <-> (ToDoDSL.context dsl !! "component" = Some (PStr "nic")
       /\ failure !! "parser" = Some (PStr "parse_ethtool")
       /\ forall s, In s (ToDoDSL.steps dsl) ->
                    ToDoStep.id s <> "s_fallback_sysfs").
Proof.
  unfold critic_propose_patch. cbn [ToDoStep.id].
  destruct (py_is_str (ToDoDSL.context dsl !! "component") "nic") eqn:E1.
  2:{ split; [intros (? & [=])|]. intros (H & _).
      apply py_is_str_iff in H. congruence. }
  destruct (py_is_str (failure !! "parser") "parse_ethtool") eqn:E2.
  2:{ split; [intros (? & [=])|]. intros (_ & H & _).
      apply py_is_str_iff in H. congruence. }
  cbn [andb]. apply py_is_str_iff in E1, E2.
  destruct (existsb _ (ToDoDSL.steps dsl)) eqn:E3; cbn [negb].
  - split; [intros (? & [=])|]. intros (_ & _ & H).
    pose proof (proj2 (no_fallback_iff _) H). congruence.
  - split; [|eauto]. intros _.
    pose proof (proj1 (no_fallback_iff _) E3). auto.
Qed.

Lemma first_nic_iface_none (l : list ToDoStep.t) :
  (forall s, In s l -> startswith (ToDoStep.action s) "read_nic" = false) ->
  first_nic_iface l = PStr "eth0".
Proof.
  induction l as [|x l IH]; intros H; [reflexivity|]. cbn [first_nic_iface].
  rewrite (H x) by now left. apply IH. intros s Hs. apply H. now right.
Qed.

Lemma first_nic_iface_first (l1 l2 : list ToDoStep.t) (s : ToDoStep.t) :
  (forall x, In x l1 -> startswith (ToDoStep.action x) "read_nic" = false) ->
  startswith (ToDoStep.action s) "read_nic" = true ->
  first_nic_iface (l1 ++ s :: l2) = default PNone (ToDoStep.args s !! "iface").
Proof.
  induction l1 as [|x l1 IH]; intros H Hs; cbn [app first_nic_iface].
  - now rewrite Hs.
  - rewrite (H x) by now left. apply IH; [|exact Hs].
    intros y Hy. apply H. now right.
Qed.

(** X5. The DSL that [critic_propose_patch] returns is the given one
    with the fallback step appended; the step reads the interface named
    by the [iface] argument of the first step whose action starts with
    ["read_nic"] ([None] when that step has no such argument), and
    ["eth0"] when there is no such step. *)
Theorem critic_propose_patch_fallback_step (dsl dsl' : ToDoDSL.t)
    (failure : gmap string pyval) :
  critic_propose_patch dsl failure = Some dsl' ->
  exists iface,
    dsl' = with_steps dsl (ToDoDSL.steps dsl ++ [fallback_patch iface])%list
    /\ ((forall s, In s (ToDoDSL.steps dsl) ->
           startswith (ToDoStep.action s) "read_nic" = false) ->
        iface = PStr "eth0")
    /\ (forall l1 s l2,
          ToDoDSL.steps dsl = (l1 ++ s :: l2)%list ->
          (forall x, In x l1 ->
             startswith (ToDoStep.action x) "read_nic" = false) ->
          startswith (ToDoStep.action s) "read_nic" = true ->
          iface = default PNone (ToDoStep.args s !! "iface")).
Proof.
  unfold critic_propose_patch. destruct (_ && _); [|discriminate].
  destruct (negb _); [|discriminate]. intros [= <-].
  exists (first_nic_iface (ToDoDSL.steps dsl)).
  split; [reflexivity|]. split.
  - apply first_nic_iface_none.
  - intros l1 s l2 -> H Hs. now apply first_nic_iface_first.
Qed.

Lemma critic_propose_patch_fallback_step_witness :
  let dsl := sample_dsl {[ "component" := PStr "nic" ]}
               [sample_step "s1" "read_meminfo" None None] in
  let failure : gmap string pyval := {[ "parser" := PStr "parse_ethtool" ]} in
  exists dsl' iface,
    critic_propose_patch dsl failure = Some dsl'
    /\ dsl' = with_steps dsl (ToDoDSL.steps dsl ++ [fallback_patch iface])%list.
Proof.
  intros dsl failure.
  exists (with_steps dsl
            (ToDoDSL.steps dsl ++ [fallback_patch (PStr "eth0")])%list).
  destruct (critic_propose_patch_fallback_step dsl
              (with_steps dsl
                 (ToDoDSL.steps dsl ++ [fallback_patch (PStr "eth0")])%list)
              failure eq_refl) as (iface & E & _).
  exists iface. split; [reflexivity | exact E].
Defined.

(** ** preflight.py: what the gate and the audit look at *)

Lemma policy_gate_step_action (prof : Profile.t) (catalog : Catalog.t)
    (s s' : ToDoStep.t) :
  ToDoStep.action s = ToDoStep.action s' ->
  policy_gate_step prof catalog s = policy_gate_step prof catalog s'.
Proof. unfold policy_gate_step. now intros ->. Qed.

Lemma policy_gate_steps_actions (prof : Profile.t) (catalog : Catalog.t)
    (l l' : list ToDoStep.t) :
  List.map ToDoStep.action l = List.map ToDoStep.action l' ->
  policy_gate_steps prof catalog l = policy_gate_steps prof catalog l'.
Proof.
  revert l'; induction l as [|s l IH]; intros [|s' l'] H; try discriminate.
  - reflexivity.
  - cbn [List.map] in H. injection H as Ha Hl.
    cbn [policy_gate_steps].
    rewrite (policy_gate_step_action _ _ s s' Ha), (IH l' Hl). reflexivity.
Qed.

(** X6. [policy_gate] looks at the profile and at the action names of the
    steps only: two DSLs that agree on these get the same answer, the
    same error included, whatever their arguments, timeouts, parsers,
    validators, target and context are. *)
Theorem policy_gate_depends_on_actions_only (dsl dsl' : ToDoDSL.t)
    (catalog : Catalog.t) :
  ToDoDSL.profile dsl = ToDoDSL.profile dsl' ->
  List.map ToDoStep.action (ToDoDSL.steps dsl)
  = List.map ToDoStep.action (ToDoDSL.steps dsl') ->
  policy_gate dsl catalog = policy_gate dsl' catalog.
Proof.
  intros Hp Ha. unfold policy_gate. rewrite <- Hp.
  destruct (Catalog.profiles catalog !! ToDoDSL.profile dsl); [|reflexivity].
  now apply policy_gate_steps_actions.
Qed.

(** X7. Whether [policy_gate] accepts a DSL does not depend on the order
    of its steps. *)
Theorem policy_gate_order_insensitive (dsl dsl' : ToDoDSL.t)
    (catalog : Catalog.t) :
  ToDoDSL.profile dsl = ToDoDSL.profile dsl' ->
  Permutation (ToDoDSL.steps dsl) (ToDoDSL.steps dsl') ->
  (policy_gate dsl catalog = Ok tt <-> policy_gate dsl' catalog = Ok tt).
Proof.
  intros Hp Hperm. unfold policy_gate. rewrite <- Hp.
  destruct (Catalog.profiles catalog !! ToDoDSL.profile dsl) as [prof|];
    [|reflexivity].
  rewrite !policy_gate_steps_ok. now rewrite Hperm.
Qed.

(** static_audit *)
Lemma static_audit_low (cmd : string) :
  static_audit cmd
  = static_audit_loop (" " ++ lower cmd ++ " ") DENY_PATTERNS.
Proof. unfold static_audit. now rewrite !lower_app. Qed.

(** X8. [static_audit] ignores letter case: two commands with the same
    lower-case form get the same answer, the same error included. *)
Theorem static_audit_ignores_case (c1 c2 : string) :
  lower c1 = lower c2 -> static_audit c1 = static_audit c2.
Proof. intros H. rewrite !static_audit_low. now rewrite H. Qed.

Lemma str_app_assoc (a b c : string) : (a ++ b) ++ c = a ++ (b ++ c).
Proof.
  induction a as [|x a IH]; [reflexivity|].
  change (String x ((a ++ b) ++ c) = String x (a ++ (b ++ c))).
  now rewrite IH.
Qed.

Lemma contains_at_start (p s : string) : contains p (p ++ s) = true.
Proof.
  destruct (p ++ s) eqn:E; cbn [contains]; rewrite <- E;
    now rewrite startswith_self_app.
Qed.

(** X9. A deny-listed word that is guarded by a space in the list is
    also caught at either end of a command: a command whose lower-case
    form starts with [q], for a pattern [" q"], or ends with [q], for a
    pattern ["q "], is rejected. *)
Theorem static_audit_catches_ends (cmd q : string) :
  (In (" " ++ q) DENY_PATTERNS ->
   (exists rest, lower cmd = q ++ rest) -> static_audit cmd <> Ok tt)
  /\ (In (q ++ " ") DENY_PATTERNS ->
      (exists before, lower cmd = before ++ q) -> static_audit cmd <> Ok tt).
Proof.
  split; intros Hin (r & E) Hok; rewrite static_audit_low, E in Hok;
    rewrite static_audit_loop_ok in Hok; specialize (Hok _ Hin).
  - assert (contains (" " ++ q) (" " ++ (q ++ r) ++ " ") = true).
    { replace (" " ++ (q ++ r) ++ " ") with ((" " ++ q) ++ (r ++ " ")).
      - apply contains_at_start.
      - now rewrite !str_app_assoc. }
    congruence.
  - assert (contains (q ++ " ") (" " ++ (r ++ q) ++ " ") = true).
    { replace (" " ++ (r ++ q) ++ " ") with ((" " ++ r) ++ (q ++ " ")).
      - apply contains_suffix.
      - now rewrite !str_app_assoc. }
    congruence.
Qed.

Section CompileFacts.

Variable str_format : string -> gmap string pyval -> res string.
Variable py_repr : string -> string.

Local Abbreviation compile_step' := (compile_step str_format py_repr).
Local Abbreviation compile_steps' := (compile_steps str_format py_repr).
Local Abbreviation compile_plan' := (compile_plan str_format py_repr).
Local Abbreviation submit_job' := (submit_job str_format py_repr).

(** What a step that compiles looks like. *)
Lemma compile_step_ok (dsl : ToDoDSL.t) (catalog : Catalog.t)
    (step : ToDoStep.t) (s : ExecStep.t) :
  compile_step' dsl catalog step = Ok s ->
  exists entry tpl max,
    Catalog.actions catalog !! ToDoStep.action step = Some entry
    /\ CatalogEntry.cmd entry = Some tpl
    /\ str_format tpl (<["host" := PStr (host (ToDoDSL.target dsl))]>
                         (ToDoStep.args step)) = Ok (ExecStep.cmd s)
    /\ profile_max_timeout dsl catalog = Ok max
    /\ s = {| ExecStep.id := ToDoStep.id step;
              ExecStep.cmd := ExecStep.cmd s;
              ExecStep.timeout_s := Z.min (ToDoStep.timeout_s step) max;
              ExecStep.parser :=
                parser_or_default (ToDoStep.parser step)
                                  (CatalogEntry.parser entry);
              ExecStep.validator := ToDoStep.validator step |}.
Proof.
  unfold compile_step.
  destruct (Catalog.actions catalog !! ToDoStep.action step) as [entry|];
    [|discriminate].
  destruct (CatalogEntry.cmd entry) as [tpl|] eqn:Ec; [|discriminate].
  destruct (str_format tpl _) as [cmd|e] eqn:Ef.
  2:{ destruct e; discriminate. }
  cbn [bind].
  destruct (profile_max_timeout dsl catalog) as [max|]; [|discriminate].
  cbn [bind]. intros [= <-]. exists entry, tpl, max.
  split; [reflexivity|]. split; [exact Ec|]. split; [exact Ef|].
  split; reflexivity.
Qed.

Lemma compile_steps_ok (dsl : ToDoDSL.t) (catalog : Catalog.t)
    (l : list ToDoStep.t) (steps : list ExecStep.t) :
  compile_steps' dsl catalog l = Ok steps ->
  Forall2 (fun step s => compile_step' dsl catalog step = Ok s) l steps.
Proof.
  revert steps; induction l as [|step l IH]; intros steps H.
  - injection H as <-. constructor.
  - cbn [compile_steps] in H.
    destruct (compile_step' dsl catalog step) as [s|] eqn:Es; [|discriminate].
    cbn [bind] in H.
    destruct (compile_steps' dsl catalog l) as [rest|]; [|discriminate].
    cbn [bind] in H. injection H as <-. constructor; auto.
Qed.

Lemma compile_plan_steps (dsl : ToDoDSL.t) (catalog : Catalog.t)
    (plan : ExecPlan.t) :
  compile_plan' dsl catalog = Ok plan ->
  Forall2 (fun step s => compile_step' dsl catalog step = Ok s)
          (ToDoDSL.steps dsl) (ExecPlan.steps plan).
Proof.
  unfold compile_plan.
  destruct (compile_steps' dsl catalog (ToDoDSL.steps dsl)) as [steps|] eqn:E;
    [|discriminate].
  cbn [bind]. intros [= <-]. now apply compile_steps_ok.
Qed.

(** X10. A plan that [compile_plan] returns has one step per step of the
    DSL, in the same order, with the same ids and the same validators. *)
Theorem compile_plan_aligned (dsl : ToDoDSL.t) (catalog : Catalog.t)
    (plan : ExecPlan.t) :
  compile_plan' dsl catalog = Ok plan ->
  List.map ExecStep.id (ExecPlan.steps plan)
  = List.map ToDoStep.id (ToDoDSL.steps dsl)
  /\ List.map ExecStep.validator (ExecPlan.steps plan)
     = List.map ToDoStep.validator (ToDoDSL.steps dsl)
  /\ length (ExecPlan.steps plan) = length (ToDoDSL.steps dsl).
Proof.
  intros H. apply compile_plan_steps in H.
  induction H as [|step s l steps Hs _ IH]; [repeat split|].
  destruct IH as (I1 & I2 & I3).
  destruct (compile_step_ok _ _ _ _ Hs)
    as (entry & tpl & max & _ & _ & _ & _ & E).
  rewrite E. cbn [List.map ExecStep.id ExecStep.validator length].
  rewrite I1, I2, I3. repeat split.
Qed.

(** X11. In a compiled plan no step has a longer timeout than the DSL
    asked for, and none has a longer timeout than the [max_timeout_s] of
    the DSL's profile. *)
Theorem compile_plan_timeouts_bounded (dsl : ToDoDSL.t) (catalog : Catalog.t)
    (plan : ExecPlan.t) :
  compile_plan' dsl catalog = Ok plan ->
  Forall2 (fun step s => ExecStep.timeout_s s <= ToDoStep.timeout_s step)
          (ToDoDSL.steps dsl) (ExecPlan.steps plan)
  /\ forall s, In s (ExecPlan.steps plan) ->
       exists prof max,
         Catalog.profiles catalog !! ToDoDSL.profile dsl = Some prof
         /\ Profile.max_timeout_s prof = Some max
         /\ ExecStep.timeout_s s <= max.
Proof.
  intros H. apply compile_plan_steps in H.
  induction H as [|step s l steps Hs _ IH];
    [split; [constructor | intros ? []]|].
  destruct IH as (I1 & I2).
  destruct (compile_step_ok _ _ _ _ Hs)
    as (entry & tpl & max & _ & _ & _ & Hm & E).
  assert (T : ExecStep.timeout_s s = Z.min (ToDoStep.timeout_s step) max)
    by (rewrite E; reflexivity).
  split.
  - constructor; [lia | exact I1].
  - intros x [<-|Hx]; [|now apply I2].
    unfold profile_max_timeout in Hm.
    destruct (Catalog.profiles catalog !! ToDoDSL.profile dsl) as [prof|];
      [|discriminate].
    destruct (Profile.max_timeout_s prof) as [m|] eqn:Em; [|discriminate].
    injection Hm as ->. exists prof, max. repeat split; auto. lia.
Qed.

(** X12. Each command of a compiled plan is the catalog template of the
    step's action, formatted with the step's arguments in which [host]
    is the target host (an argument named [host] is overridden); the
    parser is the step's own when it names a non-empty one, and the
    catalog's otherwise. *)
Theorem compile_plan_rendering (dsl : ToDoDSL.t) (catalog : Catalog.t)
    (plan : ExecPlan.t) :
  compile_plan' dsl catalog = Ok plan ->
  Forall2
    (fun step s =>
       exists entry tpl fmt_vars,
         Catalog.actions catalog !! ToDoStep.action step = Some entry
         /\ CatalogEntry.cmd entry = Some tpl
         /\ str_format tpl fmt_vars = Ok (ExecStep.cmd s)
         /\ fmt_vars !! "host" = Some (PStr (host (ToDoDSL.target dsl)))
         /\ (forall k, k <> "host" ->
               fmt_vars !! k = ToDoStep.args step !! k)
         /\ ExecStep.parser s
            = match ToDoStep.parser step with
              | Some p => if String.eqb p "" then CatalogEntry.parser entry
                          else Some p
              | None => CatalogEntry.parser entry
              end)
    (ToDoDSL.steps dsl) (ExecPlan.steps plan).
Proof.
  intros H. apply compile_plan_steps in H.
  induction H as [|step s l steps Hs _ IH]; constructor; [|exact IH].
  destruct (compile_step_ok _ _ _ _ Hs)
    as (entry & tpl & max & Ha & Hc & Hf & _ & E).
  exists entry, tpl, (<["host" := PStr (host (ToDoDSL.target dsl))]>
                        (ToDoStep.args step)).
  split; [exact Ha|]. split; [exact Hc|]. split; [exact Hf|].
  split; [apply lookup_insert_eq|]. split.
  - intros k Hk. now apply lookup_insert_ne.
  - rewrite E. reflexivity.
Qed.

Lemma compile_steps_first_error (dsl : ToDoDSL.t) (catalog : Catalog.t)
    (l1 l2 : list ToDoStep.t) (step : ToDoStep.t) (e : exn) :
  is_ok (compile_steps' dsl catalog l1) = true ->
  compile_step' dsl catalog step = Raise e ->
  compile_steps' dsl catalog (l1 ++ step :: l2) = Raise e.
Proof.
  intros H1 Hs. induction l1 as [|x l1 IH]; cbn [app compile_steps].
  - now rewrite Hs.
  - cbn [compile_steps] in H1.
    destruct (compile_step' dsl catalog x); [|discriminate]. cbn [bind] in *.
    destruct (compile_steps' dsl catalog l1); [|discriminate].
    rewrite IH by reflexivity. reflexivity.
Qed.

(** X13. [compile_plan] fails at the first step that does not compile:
    with ["Unknown action: <action>"] when the catalog does not have the
    step's action, and with ["Missing arg <key> for action <action>"]
    when formatting the template raises a [KeyError]. *)
Theorem compile_plan_first_error (dsl : ToDoDSL.t) (catalog : Catalog.t)
    (l1 l2 : list ToDoStep.t) (step : ToDoStep.t) :
  ToDoDSL.steps dsl = (l1 ++ step :: l2)%list ->
  is_ok (compile_steps' dsl catalog l1) = true ->
  (Catalog.actions catalog !! ToDoStep.action step = None ->
   compile_plan' dsl catalog
   = Raise (ValueError ("Unknown action: " ++ ToDoStep.action step)))
  /\ (forall entry tpl k,
        Catalog.actions catalog !! ToDoStep.action step = Some entry ->
        CatalogEntry.cmd entry = Some tpl ->
        str_format tpl (<["host" := PStr (host (ToDoDSL.target dsl))]>
                          (ToDoStep.args step)) = Raise (KeyError k) ->
        compile_plan' dsl catalog
        = Raise (ValueError ("Missing arg " ++ py_repr k ++ " for action "
                             ++ ToDoStep.action step))).
Proof.
  intros Hl H1. unfold compile_plan. rewrite Hl. split.
  - intros Ha.
    rewrite (compile_steps_first_error _ _ l1 l2 step
               (ValueError ("Unknown action: " ++ ToDoStep.action step)) H1);
      [reflexivity|].
    unfold compile_step. now rewrite Ha.
  - intros entry tpl k Ha Hc Hf.
    rewrite (compile_steps_first_error _ _ l1 l2 step
               (ValueError ("Missing arg " ++ py_repr k ++ " for action "
                            ++ ToDoStep.action step)) H1);
      [reflexivity|].
    unfold compile_step. now rewrite Ha, Hc, Hf.
Qed.

(** submit_job *)
Lemma audit_steps_ok (l : list ExecStep.t) :
  audit_steps l = Ok tt <->
  Forall (fun s => static_audit (ExecStep.cmd s) = Ok tt) l.
Proof.
  induction l as [|s l IH]; cbn [audit_steps].
  - split; [constructor | reflexivity].
  - destruct (static_audit (ExecStep.cmd s)) as [[]|e] eqn:E; cbn [bind].
    + rewrite IH. split; [now constructor | now inversion 1].
    + split; [discriminate|]. inversion 1; congruence.
Qed.

Lemma static_audit_ok_clean (cmd p : string) :
  static_audit cmd = Ok tt -> In p DENY_PATTERNS -> contains p cmd = false.
Proof.
  intros Hok Hp. destruct (contains p cmd) eqn:E; [|reflexivity].
  unfold static_audit in Hok.
  pose proof (proj1 (static_audit_loop_ok _ _) Hok p Hp) as Hn.
  pose proof (contains_padded_lower cmd p Hp E) as Hy.
  rewrite Hn in Hy. discriminate.
Qed.

(** X14. [submit_job] accepts a job only after every check: the id it
    answers is the DSL's job id, the id was free, the policy gate passed,
    the plan compiled and is what the store now holds for the job (with
    no result yet), and no command of the plan contains a deny-listed
    substring. *)
Theorem submit_job_accepts_only_checked (catalog : Catalog.t)
    (JOBS JOBS' : gmap string Job.t) (dsl : ToDoDSL.t) (j : string) :
  submit_job' catalog JOBS dsl = (Accepted j, JOBS') ->
  j = ToDoDSL.job_id dsl
  /\ JOBS !! j = None
  /\ policy_gate dsl catalog = Ok tt
  /\ exists plan,
       compile_plan' dsl catalog = Ok plan
       /\ JOBS' = <[j := new_job dsl plan]> JOBS
       /\ get_result JOBS' j = NotReady
       /\ forall s p, In s (ExecPlan.steps plan) -> In p DENY_PATTERNS ->
            contains p (ExecStep.cmd s) = false.
Proof.
  unfold submit_job.
  destruct (policy_gate dsl catalog) as [[]|]; [|discriminate].
  destruct (compile_plan' dsl catalog) as [plan|]; [|discriminate].
  destruct (audit_steps (ExecPlan.steps plan)) as [[]|] eqn:Ea; [|discriminate].
  destruct (JOBS !! ToDoDSL.job_id dsl) eqn:Ej; [discriminate|].
  intros [= <- <-]. repeat split; auto.
  exists plan. repeat split.
  - unfold get_result. now rewrite lookup_insert_eq.
  - intros s p Hs Hp. apply audit_steps_ok in Ea.
    rewrite Forall_forall in Ea.
    apply static_audit_ok_clean; [|exact Hp].
    apply Ea. now apply list_elem_of_In.
Qed.

(** X15. A rejected submission leaves the job store as it was, with
    status 400 or 409; an accepted one changes the entry of its own job
    id only. A submission whose job id is already in the store is never
    accepted and never overwrites the stored job. *)
Theorem submit_job_store_discipline (catalog : Catalog.t)
    (JOBS : gmap string Job.t) (dsl : ToDoDSL.t) :
  match submit_job' catalog JOBS dsl with
  | (Aborted code stage e, JOBS') =>
      JOBS' = JOBS /\ (code = 400 \/ code = 409)
  | (Accepted j, JOBS') =>
      forall k, k <> j -> JOBS' !! k = JOBS !! k
  end
  /\ (forall b, JOBS !! ToDoDSL.job_id dsl = Some b ->
      snd (submit_job' catalog JOBS dsl) = JOBS
      /\ forall j, fst (submit_job' catalog JOBS dsl) <> Accepted j).
Proof.
  unfold submit_job.
  destruct (policy_gate dsl catalog) as [[]|];
    [|split; [auto|intros; split; [reflexivity | discriminate]]].
  destruct (compile_plan' dsl catalog) as [plan|];
    [|split; [auto|intros; split; [reflexivity | discriminate]]].
  destruct (audit_steps (ExecPlan.steps plan)) as [[]|];
    [|split; [auto|intros; split; [reflexivity | discriminate]]].
  destruct (JOBS !! ToDoDSL.job_id dsl) eqn:Ej.
  - split; [auto|]. intros; split; [reflexivity | discriminate].
  - split; [|discriminate]. intros k Hk. now apply lookup_insert_ne.
Qed.

(** X16. Submitting an accepted DSL a second time is answered with 409
    ["job_id already exists"] and leaves the stored job untouched. *)
Theorem submit_job_twice_conflicts (catalog : Catalog.t)
    (JOBS JOBS' : gmap string Job.t) (dsl : ToDoDSL.t) (j : string) :
  submit_job' catalog JOBS dsl = (Accepted j, JOBS') ->
  submit_job' catalog JOBS' dsl
  = (Aborted 409 "job_id already exists" None, JOBS')
  /\ exists plan, JOBS' !! j = Some (new_job dsl plan).
Proof.
  unfold submit_job.
  destruct (policy_gate dsl catalog) as [[]|]; [|discriminate].
  destruct (compile_plan' dsl catalog) as [plan|]; [|discriminate].
  destruct (audit_steps (ExecPlan.steps plan)) as [[]|]; [|discriminate].
  destruct (JOBS !! ToDoDSL.job_id dsl) eqn:Ej; [discriminate|].
  intros [= <- <-]. rewrite lookup_insert_eq. split; [reflexivity|].
  exists plan. reflexivity.
Qed.

End CompileFacts.

Lemma policy_gate_depends_on_actions_only_witness :
  policy_gate (sample_dsl ∅ [sample_step "s1" "read_meminfo" None None])
              sample_catalog
  = policy_gate
      (sample_dsl {[ "component" := PStr "nic" ]}
         [sample_step "probe" "read_meminfo" (Some "parse_dmesg")
                      (Some "no_critical_logs")])
      sample_catalog.
Proof.
  apply policy_gate_depends_on_actions_only; reflexivity.
Defined.

Lemma policy_gate_order_insensitive_witness :
  let a := sample_step "s1" "read_meminfo" None None in
  let b := sample_step "s2" "read_nic" None None in
  policy_gate (sample_dsl ∅ [a; b]) sample_catalog = Ok tt
  <-> policy_gate (sample_dsl ∅ [b; a]) sample_catalog = Ok tt.
Proof.
  intros a b. apply policy_gate_order_insensitive; [reflexivity|].
  apply perm_swap.
Defined.

Lemma static_audit_ignores_case_witness :
  static_audit "Cat /Proc/MemInfo" = static_audit "cat /proc/meminfo".
Proof. apply static_audit_ignores_case. reflexivity. Defined.

Lemma compile_plan_aligned_witness :
  let dsl := sample_dsl ∅ [sample_step "s1" "read_meminfo" None None] in
  let plan := {| ExecPlan.steps := [sample_exec_step None] |} in
  List.map ExecStep.id (ExecPlan.steps plan)
  = List.map ToDoStep.id (ToDoDSL.steps dsl)
  /\ List.map ExecStep.validator (ExecPlan.steps plan)
     = List.map ToDoStep.validator (ToDoDSL.steps dsl)
  /\ length (ExecPlan.steps plan) = length (ToDoDSL.steps dsl).
Proof.
  intros dsl plan.
  apply (compile_plan_aligned sample_format sample_repr dsl sample_catalog).
  vm_compute. reflexivity.
Defined.

Lemma compile_plan_timeouts_bounded_witness :
  let dsl := sample_dsl ∅ [sample_step "s1" "read_meminfo" None None] in
  let plan := {| ExecPlan.steps := [sample_exec_step None] |} in
  Forall2 (fun step s => ExecStep.timeout_s s <= ToDoStep.timeout_s step)
          (ToDoDSL.steps dsl) (ExecPlan.steps plan).
Proof.
  intros dsl plan.
  apply (compile_plan_timeouts_bounded sample_format sample_repr dsl
           sample_catalog).
  vm_compute. reflexivity.
Defined.

Lemma compile_plan_rendering_witness :
  let dsl := sample_dsl ∅ [sample_step "s1" "read_meminfo" None None] in
  let plan := {| ExecPlan.steps := [sample_exec_step None] |} in
  length (ToDoDSL.steps dsl) = length (ExecPlan.steps plan).
Proof.
  intros dsl plan.
  assert (H : compile_plan sample_format sample_repr dsl sample_catalog
              = Ok plan) by (vm_compute; reflexivity).
  apply (Forall2_length _ _ _
           (compile_plan_rendering sample_format sample_repr dsl
              sample_catalog plan H)).
Defined.

Lemma compile_plan_first_error_witness :
  let good := sample_step "s1" "read_meminfo" None None in
  let bad := sample_step "s2" "flash_bios" None None in
  compile_plan sample_format sample_repr (sample_dsl ∅ [good; bad])
               sample_catalog
  = Raise (ValueError "Unknown action: flash_bios").
Proof.
  intros good bad.
  assert (H : is_ok (compile_steps sample_format sample_repr
                       (sample_dsl ∅ [good; bad]) sample_catalog [good])
              = true) by (vm_compute; reflexivity).
  apply (proj1 (compile_plan_first_error sample_format sample_repr
                  (sample_dsl ∅ [good; bad]) sample_catalog [good] [] bad
                  eq_refl H)).
  vm_compute. reflexivity.
Defined.

Lemma submit_job_accepts_only_checked_witness :
  let dsl := sample_dsl ∅ [sample_step "s1" "read_meminfo" None None] in
  let JOBS' := snd (submit_job sample_format sample_repr sample_catalog
                      ∅ dsl) in
  policy_gate dsl sample_catalog = Ok tt
  /\ exists plan,
       compile_plan sample_format sample_repr dsl sample_catalog = Ok plan
       /\ get_result JOBS' "j1" = NotReady.
Proof.
  intros dsl JOBS'.
  assert (H : submit_job sample_format sample_repr sample_catalog ∅ dsl
              = (Accepted "j1", JOBS')) by (vm_compute; reflexivity).
  destruct (submit_job_accepts_only_checked sample_format sample_repr
              sample_catalog ∅ JOBS' dsl "j1" H)
    as (_ & _ & G & plan & E & _ & R & _).
  split; [exact G|]. exists plan. split; [exact E | exact R].
Defined.

Lemma submit_job_twice_conflicts_witness :
  let dsl := sample_dsl ∅ [sample_step "s1" "read_meminfo" None None] in
  let JOBS' := snd (submit_job sample_format sample_repr sample_catalog
                      ∅ dsl) in
  submit_job sample_format sample_repr sample_catalog JOBS' dsl
  = (Aborted 409 "job_id already exists" None, JOBS').
Proof.
  intros dsl JOBS'.
  apply (submit_job_twice_conflicts sample_format sample_repr sample_catalog
           ∅ JOBS' dsl "j1").
  vm_compute. reflexivity.
Defined.

(** ** runner.py: the life of a job *)

Section RunnerMore.

Variable other_parser : string -> string -> res (gmap string pyval).
Variable other_validator :
  string -> gmap string pyval -> list pyval -> res (bool * note).
Variable py_float : string -> option float.

Local Abbreviation run_job' := (run_job other_parser other_validator py_float).
Local Abbreviation judge' := (judge other_parser other_validator py_float).
Local Abbreviation run_validator' :=
  (run_validator other_validator py_float).
Local Abbreviation thread' :=
  (_run_job_thread other_parser other_validator py_float).

Lemma run_validator_id (ctx : gmap string pyval) (step : ExecStep.t)
    (parsed : gmap string pyval) (p : PerStep.t) :
  run_validator' ctx step parsed = Ok p -> PerStep.id p = ExecStep.id step.
Proof.
  unfold run_validator.
  destruct (String.eqb _ ""); [now intros [= <-]|].
  destruct (_parse_validator_spec py_float _) as [[v_name args]|];
    [|discriminate].
  cbn [bind]. destruct (VALIDATORS other_validator v_name) as [vfn|];
    [|now intros [= <-]].
  destruct (default_args ctx v_name args) as [args'|]; [|discriminate].
  cbn [bind]. destruct (vfn parsed args') as [[ok n]|]; [|discriminate].
  cbn [bind]. now intros [= <-].
Qed.

Lemma judge_ids (ctx : gmap string pyval) (steps : list ExecStep.t)
    (raw : list RawResult.t) (ps : list PerStep.t) :
  length raw = length steps ->
  judge' ctx steps raw = Ok ps ->
  List.map PerStep.id ps = List.map ExecStep.id steps.
Proof.
  revert raw ps; induction steps as [|s steps IH]; intros raw ps Hl H.
  - destruct raw; [|discriminate]. injection H as <-. reflexivity.
  - destruct raw as [|rr raw]; [discriminate|]. cbn [judge] in H.
    unfold judge_step in H.
    destruct (run_parser other_parser s rr) as [parsed|]; [|discriminate].
    cbn [bind] in H.
    destruct (run_validator' ctx s parsed) as [p|] eqn:Ep; [|discriminate].
    cbn [bind] in H.
    destruct (judge' ctx steps raw) as [ps'|] eqn:Ej; [|discriminate].
    cbn [bind] in H. injection H as <-. cbn [List.map].
    rewrite (run_validator_id _ _ _ _ Ep).
    f_equal. apply (IH raw); [now injection Hl | exact Ej].
Qed.

(** X17. The result of a job that runs to completion has one [per_step]
    entry per step of the plan, in plan order and under the step's id. *)
Theorem completed_job_per_step_aligned (env : remote) (dsl : ToDoDSL.t)
    (plan : ExecPlan.t) (b' : Job.t) :
  run_job' env (new_job dsl plan) = (b', None) ->
  exists r, Job.result b' = Some r
            /\ List.map PerStep.id (VerificationResult.per_step r)
               = List.map ExecStep.id (ExecPlan.steps plan).
Proof.
  intros H. pose proof (run_job_cases other_parser other_validator py_float
                          env dsl plan) as C. cbv zeta in C.
  destruct (judge' _ _ _) as [per_step|e] eqn:Ej.
  - destruct C as (st & su & r & E & Hp & _). rewrite E in H.
    injection H as <-. exists r. split; [reflexivity|]. rewrite Hp.
    apply (judge_ids _ _ _ _ (execute_steps_length _ _ _ _ _) Ej).
  - rewrite C in H. discriminate.
Qed.

(** X18. The result of a completed job has status ["SUCCESS"] exactly
    when every [per_step] entry is ok, and ["FAILED"] otherwise (never
    ["PARTIAL"]); the verdict event, the last of the queue, carries the
    status and the summary of the stored result. *)
Theorem completed_job_status_consistent (env : remote) (dsl : ToDoDSL.t)
    (plan : ExecPlan.t) (b' : Job.t) :
  run_job' env (new_job dsl plan) = (b', None) ->
  exists r,
    Job.result b' = Some r
    /\ (VerificationResult.status r = "SUCCESS"
        <-> forall p, In p (VerificationResult.per_step r) ->
                      PerStep.ok p = true)
    /\ (VerificationResult.status r = "SUCCESS"
        \/ VerificationResult.status r = "FAILED")
    /\ last (Job.events b')
       = Some (verdict (VerificationResult.status r)
                       (VerificationResult.summary r)).
Proof.
  intros H. unfold run_job in H. cbn [new_job Job.dsl Job.plan Job.events] in H.
  destruct (execute_plan env _ plan true) as [raw evs].
  destruct (judge' _ _ raw) as [per_step|e]; [|discriminate].
  injection H as <-.
  eexists. split; [reflexivity|].
  cbn [VerificationResult.status VerificationResult.per_step
       VerificationResult.summary with_events with_result Job.events].
  split; [|split].
  - destruct (forallb PerStep.ok per_step) eqn:F.
    + split; [|reflexivity]. intros _ p Hp.
      rewrite forallb_forall in F. now apply F.
    + split; [discriminate|]. intros A.
      assert (forallb PerStep.ok per_step = true)
        by (apply forallb_forall; exact A).
      congruence.
  - destruct (forallb PerStep.ok per_step); [now left | now right].
  - apply last_snoc.
Qed.

Lemma judge_plain (ctx : gmap string pyval) (steps : list ExecStep.t)
    (raw : list RawResult.t) :
  Forall (fun s => ExecStep.parser s = None /\ ExecStep.validator s = None)
         steps ->
  exists ps, judge' ctx steps raw = Ok ps /\ forallb PerStep.ok ps = true.
Proof.
  intros H. revert raw. induction H as [|s steps [Hp Hv] _ IH]; intros raw.
  - exists []. destruct raw; split; reflexivity.
  - destruct raw as [|rr raw]; [exists []; split; reflexivity|].
    destruct (IH raw) as (ps & E & F).
    cbn [judge]. unfold judge_step, run_parser, run_validator.
    rewrite Hp, Hv. cbn [bind default].
    change (String.eqb (default "" None) "") with true. cbv iota.
    cbn [bind]. rewrite E. cbn [bind].
    eexists. split; [reflexivity|]. cbn [forallb PerStep.ok]. exact F.
Qed.

(** X19. A plan whose steps name no parser and no validator always runs
    to completion with status ["SUCCESS"], whatever the remote side
    answers: exit codes, timeouts and connection failures are not
    judged. *)
Theorem unvalidated_plan_succeeds (env : remote) (dsl : ToDoDSL.t)
    (plan : ExecPlan.t) :
  Forall (fun s => ExecStep.parser s = None /\ ExecStep.validator s = None)
         (ExecPlan.steps plan) ->
  exists b' r,
    run_job' env (new_job dsl plan) = (b', None)
    /\ Job.result b' = Some r
    /\ VerificationResult.status r = "SUCCESS"
    /\ Forall (fun p => PerStep.ok p = true) (VerificationResult.per_step r).
Proof.
  intros H. pose proof (run_job_cases other_parser other_validator py_float
                          env dsl plan) as C. cbv zeta in C.
  destruct (judge_plain (ToDoDSL.context dsl) _
              (fst (execute_plan env (host (ToDoDSL.target dsl)) plan true)) H)
    as (ps & E & F).
  rewrite E in C. destruct C as (st & su & r & Er & Hp & Hst & Hst').
  eexists _, r. split; [exact Er|]. split; [reflexivity|].
  split; [rewrite Hst, Hst', F; reflexivity|].
  rewrite Hp. apply Forall_forall. intros p Hin.
  rewrite forallb_forall in F. apply F. now apply list_elem_of_In.
Qed.

Lemma run_validator_unknown (ctx : gmap string pyval) (step : ExecStep.t)
    (parsed : gmap string pyval) (name : string) :
  ExecStep.validator step = Some name ->
  name <> "" -> contains "(" name = false ->
  VALIDATORS other_validator name = None ->
  run_validator' ctx step parsed
  = Ok {| PerStep.id := ExecStep.id step; PerStep.ok := false;
          PerStep.notes := NoteUnknownValidator name |}.
Proof.
  intros Hv Hn Hc Hr. unfold run_validator. rewrite Hv.
  change (default "" (Some name)) with name.
  apply String.eqb_neq in Hn. rewrite Hn.
  unfold _parse_validator_spec. rewrite Hc. cbn [negb bind].
  now rewrite Hr.
Qed.

Lemma judge_lookup (ctx : gmap string pyval) (steps : list ExecStep.t)
    (raw : list RawResult.t) (ps : list PerStep.t) (i : nat)
    (step : ExecStep.t) :
  length raw = length steps ->
  judge' ctx steps raw = Ok ps ->
  steps !! i = Some step ->
  exists p parsed,
    ps !! i = Some p /\ run_validator' ctx step parsed = Ok p.
Proof.
  revert raw ps i; induction steps as [|s steps IH]; intros raw ps i Hl H Hi;
    [discriminate|].
  destruct raw as [|rr raw]; [discriminate|]. cbn [judge] in H.
  unfold judge_step in H.
  destruct (run_parser other_parser s rr) as [parsed|]; [|discriminate].
  cbn [bind] in H.
  destruct (run_validator' ctx s parsed) as [p|] eqn:Ep; [|discriminate].
  cbn [bind] in H.
  destruct (judge' ctx steps raw) as [ps'|] eqn:Ej; [|discriminate].
  cbn [bind] in H. injection H as <-.
  destruct i as [|i]; cbn in Hi.
  - injection Hi as <-. exists p, parsed. split; [reflexivity | exact Ep].
  - apply (IH raw ps' i); [now injection Hl | exact Ej | exact Hi].
Qed.

(** X20. A step whose validator is a bare name that the registry does
    not have is judged not ok, with the note ["Unknown validator
    <name>"], and a job that completes with such a step is ["FAILED"]. *)
Theorem unknown_validator_fails_job (env : remote) (dsl : ToDoDSL.t)
    (plan : ExecPlan.t) (b' : Job.t) (i : nat) (step : ExecStep.t)
    (name : string) :
  ExecPlan.steps plan !! i = Some step ->
  ExecStep.validator step = Some name ->
  name <> "" -> contains "(" name = false ->
  VALIDATORS other_validator name = None ->
  run_job' env (new_job dsl plan) = (b', None) ->
  exists r,
    Job.result b' = Some r
    /\ VerificationResult.per_step r !! i
       = Some {| PerStep.id := ExecStep.id step; PerStep.ok := false;
                 PerStep.notes := NoteUnknownValidator name |}
    /\ VerificationResult.status r = "FAILED".
Proof.
  intros Hi Hv Hn Hc Hr H.
  pose proof (run_job_cases other_parser other_validator py_float
                env dsl plan) as C. cbv zeta in C.
  destruct (judge' _ _ _) as [per_step|e] eqn:Ej.
  2:{ rewrite C in H. discriminate. }
  destruct C as (st & su & r & E & Hp & Hst & Hst'). rewrite E in H.
  injection H as <-. exists r. split; [reflexivity|].
  destruct (judge_lookup _ _ _ _ i step (execute_steps_length _ _ _ _ _)
              Ej Hi) as (p & parsed & Hpi & Hrun).
  rewrite (run_validator_unknown _ _ _ name Hv Hn Hc Hr) in Hrun.
  injection Hrun as <-. rewrite Hp. split; [exact Hpi|].
  rewrite Hst, Hst'.
  replace (forallb PerStep.ok per_step) with false; [reflexivity|].
  symmetry. apply not_true_is_false. intros F.
  rewrite forallb_forall in F.
  apply list_elem_of_lookup_2, list_elem_of_In in Hpi.
  specialize (F _ Hpi). discriminate.
Qed.

(** the thread and the store *)
Lemma thread_other_slots (env : remote) (JOBS : gmap string Job.t)
    (j k : string) :
  k <> j -> fst (thread' env JOBS j) !! k = JOBS !! k.
Proof.
  intros Hk. unfold _run_job_thread.
  destruct (JOBS !! j) as [bundle|]; [|reflexivity].
  destruct (run_job' env bundle) as [b' e]. cbn [fst].
  now apply lookup_insert_ne.
Qed.

(** X21. [_run_job_thread] touches the entry of its own job only: every
    other entry of the store is left as it was, the job's DSL and plan
    are kept, and for a job id that is not in the store the thread ends
    with a [KeyError] and the store unchanged. *)
Theorem thread_writes_only_its_job (env : remote)
    (JOBS : gmap string Job.t) (j : string) :
  (forall k, k <> j -> fst (thread' env JOBS j) !! k = JOBS !! k)
  /\ (JOBS !! j = None ->
      thread' env JOBS j = (JOBS, Some (KeyError j)))
  /\ (forall b, JOBS !! j = Some b ->
      exists b', fst (thread' env JOBS j) !! j = Some b'
                 /\ Job.dsl b' = Job.dsl b /\ Job.plan b' = Job.plan b).
Proof.
  split; [intros k Hk; now apply thread_other_slots|]. split.
  - intros H. unfold _run_job_thread. now rewrite H.
  - intros b H. unfold _run_job_thread. rewrite H.
    destruct (run_job' env b) as [b' e] eqn:E. cbn [fst].
    exists b'. split; [apply lookup_insert_eq|].
    unfold run_job in E.
    destruct (execute_plan env _ (Job.plan b) true) as [raw evs].
    destruct (judge' _ _ raw); injection E as <- <-; split; reflexivity.
Qed.

(** X22. [get_result] answers "not ready" for a stored job before its
    thread has run. Once the thread has ended it answers with the result
    if the thread completed; if the thread died of an exception it keeps
    answering "not ready", and the event stream of the job yields no
    verdict and blocks. *)
Theorem job_result_lifecycle (env : remote) (JOBS : gmap string Job.t)
    (j : string) (dsl : ToDoDSL.t) (plan : ExecPlan.t) :
  JOBS !! j = Some (new_job dsl plan) ->
  get_result JOBS j = NotReady
  /\ match snd (thread' env JOBS j) with
     | None =>
         exists r, get_result (fst (thread' env JOBS j)) j = Ready r
     | Some e =>
         get_result (fst (thread' env JOBS j)) j = NotReady
         /\ exists ys JOBS',
              stream_events (fst (thread' env JOBS j)) j
              = Some (ys, JOBS', Blocked)
              /\ no_verdict ys
     end.
Proof.
  intros H. split; [unfold get_result; now rewrite H|].
  unfold _run_job_thread. rewrite H.
  pose proof (run_job_cases other_parser other_validator py_float
                env dsl plan) as C. cbv zeta in C.
  pose proof (execute_steps_no_verdict env (host (ToDoDSL.target dsl)) true
                (ExecPlan.steps plan) 0) as NV.
  fold (execute_plan env (host (ToDoDSL.target dsl)) plan true) in NV.
  destruct (judge' _ _ _) as [per_step|e].
  - destruct C as (st & su & r & -> & _). cbn [fst snd].
    exists r. unfold get_result. now rewrite lookup_insert_eq.
  - rewrite C. cbn [fst snd]. split.
    + unfold get_result. now rewrite lookup_insert_eq.
    + unfold stream_events, stream_job. rewrite lookup_insert_eq.
      cbn [Job.events Job.plan]. rewrite (drain_no_verdict _ NV).
      eexists _, _. split; [reflexivity|].
      constructor; [reflexivity | exact NV].
Qed.

(** X23. Events are consumed by the reader: after the thread of a job has
    completed and one client has read the stream to the verdict, a second
    client receives only the plan preview and then blocks, although the
    result stays available. *)
Theorem second_stream_blocks (env : remote) (JOBS JOBS1 : gmap string Job.t)
    (j : string) (dsl : ToDoDSL.t) (plan : ExecPlan.t) :
  JOBS !! j = Some (new_job dsl plan) ->
  thread' env JOBS j = (JOBS1, None) ->
  exists ys JOBS2 JOBS3,
    stream_events JOBS1 j = Some (ys, JOBS2, Disconnected)
    /\ stream_events JOBS2 j
       = Some ([plan_preview (ExecPlan.steps plan)], JOBS3, Blocked)
    /\ get_result JOBS2 j = get_result JOBS1 j.
Proof.
  intros H Ht. unfold _run_job_thread in Ht. rewrite H in Ht.
  pose proof (run_job_cases other_parser other_validator py_float
                env dsl plan) as C. cbv zeta in C.
  pose proof (execute_steps_no_verdict env (host (ToDoDSL.target dsl)) true
                (ExecPlan.steps plan) 0) as NV.
  fold (execute_plan env (host (ToDoDSL.target dsl)) plan true) in NV.
  destruct (judge' _ _ _) as [per_step|e].
  2:{ rewrite C in Ht. discriminate. }
  destruct C as (st & su & r & E & _). rewrite E in Ht.
  injection Ht as <-.
  unfold stream_events, stream_job. rewrite lookup_insert_eq.
  cbn [Job.events Job.plan Job.dsl Job.result].
  rewrite (drain_until_verdict _ [] st su NV).
  eexists _, _, _. split; [reflexivity|].
  rewrite lookup_insert_eq. cbn [Job.events Job.plan drain]. split.
  - reflexivity.
  - unfold get_result. now rewrite !lookup_insert_eq.
Qed.

End RunnerMore.

Lemma completed_job_per_step_aligned_witness :
  let plan := {| ExecPlan.steps := [sample_exec_step None] |} in
  let b' := fst (run_job sample_parser sample_validator sample_float
                   (sample_remote "MemTotal: 16777216 kB")
                   (new_job (sample_dsl ∅ []) plan)) in
  exists r, Job.result b' = Some r
            /\ List.map PerStep.id (VerificationResult.per_step r)
               = List.map ExecStep.id (ExecPlan.steps plan).
Proof.
  intros plan b'.
  apply (completed_job_per_step_aligned sample_parser sample_validator
           sample_float (sample_remote "MemTotal: 16777216 kB")
           (sample_dsl ∅ []) plan b').
  vm_compute. reflexivity.
Defined.

Lemma completed_job_status_consistent_witness :
  let plan := {| ExecPlan.steps := [sample_exec_step None] |} in
  let b' := fst (run_job sample_parser sample_validator sample_float
                   (sample_remote "MemTotal: 16777216 kB")
                   (new_job (sample_dsl ∅ []) plan)) in
  exists r, Job.result b' = Some r
            /\ last (Job.events b')
               = Some (verdict (VerificationResult.status r)
                               (VerificationResult.summary r)).
Proof.
  intros plan b'.
  assert (H : run_job sample_parser sample_validator sample_float
                (sample_remote "MemTotal: 16777216 kB")
                (new_job (sample_dsl ∅ []) plan) = (b', None))
    by (vm_compute; reflexivity).
  destruct (completed_job_status_consistent sample_parser sample_validator
              sample_float (sample_remote "MemTotal: 16777216 kB")
              (sample_dsl ∅ []) plan b' H)
    as (r & E & _ & _ & L).
  exists r. split; [exact E | exact L].
Defined.

Lemma unvalidated_plan_succeeds_witness :
  let step := {| ExecStep.id := "s1"; ExecStep.cmd := "uptime";
                 ExecStep.timeout_s := 5; ExecStep.parser := None;
                 ExecStep.validator := None |} in
  let env : remote :=
    fun _ _ _ _ => {| reply := TimedOut; elapsed_ms := 5000 |} in
  exists b' r,
    run_job sample_parser sample_validator sample_float env
      (new_job (sample_dsl ∅ []) {| ExecPlan.steps := [step] |})
    = (b', None)
    /\ Job.result b' = Some r
    /\ VerificationResult.status r = "SUCCESS"
    /\ Forall (fun p => PerStep.ok p = true) (VerificationResult.per_step r).
Proof.
  intros step env.
  apply (unvalidated_plan_succeeds sample_parser sample_validator
           sample_float env (sample_dsl ∅ [])
           {| ExecPlan.steps := [step] |}).
  repeat constructor.
Defined.

Lemma unknown_validator_fails_job_witness :
  let step := sample_exec_step (Some "no_such_check") in
  let plan := {| ExecPlan.steps := [step] |} in
  let b' := fst (run_job sample_parser sample_validator sample_float
                   (sample_remote "MemTotal: 16777216 kB")
                   (new_job (sample_dsl ∅ []) plan)) in
  exists r,
    Job.result b' = Some r
    /\ VerificationResult.per_step r !! 0%nat
       = Some {| PerStep.id := ExecStep.id step; PerStep.ok := false;
                 PerStep.notes := NoteUnknownValidator "no_such_check" |}
    /\ VerificationResult.status r = "FAILED".
Proof.
  intros step plan b'.
  apply (unknown_validator_fails_job sample_parser sample_validator
           sample_float (sample_remote "MemTotal: 16777216 kB")
           (sample_dsl ∅ []) plan b' 0 step "no_such_check");
    [reflexivity | reflexivity | discriminate | reflexivity | reflexivity
    | vm_compute; reflexivity].
Defined.

Lemma job_result_lifecycle_witness :
  let plan := {| ExecPlan.steps := [sample_exec_step None] |} in
  let JOBS : gmap string Job.t :=
    {[ "j1" := new_job (sample_dsl ∅ []) plan ]} in
  get_result JOBS "j1" = NotReady.
Proof.
  intros plan JOBS.
  apply (job_result_lifecycle sample_parser sample_validator sample_float
           (sample_remote "MemTotal: 16777216 kB") JOBS "j1"
           (sample_dsl ∅ []) plan).
  vm_compute. reflexivity.
Defined.

Lemma second_stream_blocks_witness :
  let plan := {| ExecPlan.steps := [sample_exec_step None] |} in
  let JOBS : gmap string Job.t :=
    {[ "j1" := new_job (sample_dsl ∅ []) plan ]} in
  let JOBS1 := fst (_run_job_thread sample_parser sample_validator
                      sample_float (sample_remote "MemTotal: 16777216 kB")
                      JOBS "j1") in
  exists ys JOBS2 JOBS3,
    stream_events JOBS1 "j1" = Some (ys, JOBS2, Disconnected)
    /\ stream_events JOBS2 "j1"
       = Some ([plan_preview (ExecPlan.steps plan)], JOBS3, Blocked)
    /\ get_result JOBS2 "j1" = get_result JOBS1 "j1".
Proof.
  intros plan JOBS JOBS1.
  apply (second_stream_blocks sample_parser sample_validator sample_float
           (sample_remote "MemTotal: 16777216 kB") JOBS JOBS1 "j1"
           (sample_dsl ∅ []) plan);
    vm_compute; reflexivity.
Defined.

(** ** runner.py: [_parse_validator_spec] *)

Lemma str_app_nil_r (s : string) : s ++ "" = s.
Proof.
  induction s as [|c s IH]; [reflexivity|].
  change (String c (s ++ "") = String c s). now rewrite IH.
Qed.

Lemma str_app_snoc (a b : string) (c : ascii) :
  (a ++ String c "") ++ b = a ++ String c b.
Proof.
  induction a as [|x a IH]; [reflexivity|].
  change (String x ((a ++ String c "") ++ b) = String x (a ++ String c b)).
  now rewrite IH.
Qed.


Lemma digit_char_facts (c : ascii) :
  is_digit c = true ->
  is_space c = false /\ Ascii.eqb c "," = false
  /\ Ascii.eqb ")" c = false /\ is_digit_char c = true.
Proof.
  destruct c as [[] [] [] [] [] [] [] []]; intros H;
    try discriminate H; repeat split.
Qed.

Lemma split_first_app (sep : ascii) (name rest : string) :
  all_chars (fun c => negb (Ascii.eqb c sep)) name = true ->
  split_first sep (name ++ String sep rest) = (name, rest).
Proof.
  induction name as [|c name IH]; intros H.
  - change ("" ++ String sep rest) with (String sep rest).
    cbn [split_first]. now rewrite Ascii.eqb_refl.
  - cbn [all_chars] in H. apply andb_true_iff in H as [Hc H].
    apply negb_true_iff in Hc.
    change (String c name ++ String sep rest)
      with (String c (name ++ String sep rest)).
    cbn [split_first]. rewrite Hc, (IH H). reflexivity.
Qed.

Lemma no_paren_chars (name : string) :
  contains "(" name = false ->
  all_chars (fun c => negb (Ascii.eqb c "(")) name = true.
Proof.
  induction name as [|c name IH]; intros H; [reflexivity|].
  cbn [contains] in H. apply orb_false_iff in H as [H1 H2].
  cbn [all_chars]. rewrite (IH H2), andb_true_r.
  cbn [startswith] in H1. rewrite andb_true_r in H1.
  rewrite Ascii.eqb_sym. now rewrite H1.
Qed.

Lemma rstrip_by_keep (drop : ascii -> bool) (s : string) :
  all_chars (fun c => negb (drop c)) s = true -> rstrip_by drop s = s.
Proof.
  induction s as [|c s IH]; intros H; [reflexivity|].
  cbn [all_chars] in H. apply andb_true_iff in H as [Hc H].
  apply negb_true_iff in Hc. cbn [rstrip_by]. rewrite (IH H).
  destruct s; [now rewrite Hc | reflexivity].
Qed.

Lemma rstrip_by_snoc (drop : ascii -> bool) (s : string) (c : ascii) :
  drop c = true -> rstrip_by drop (s ++ String c "") = rstrip_by drop s.
Proof.
  intros Hc. induction s as [|x s IH].
  - change ("" ++ String c "") with (String c ""). cbn [rstrip_by].
    now rewrite Hc.
  - change (String x s ++ String c "") with (String x (s ++ String c "")).
    cbn [rstrip_by]. now rewrite IH.
Qed.

Lemma lstrip_keep (s : string) :
  all_chars (fun c => negb (is_space c)) s = true -> lstrip s = s.
Proof.
  destruct s as [|c s]; [reflexivity|]. cbn [all_chars lstrip].
  intros H. apply andb_true_iff in H as [Hc _].
  apply negb_true_iff in Hc. now rewrite Hc.
Qed.

Lemma strip_keep (s : string) :
  all_chars (fun c => negb (is_space c)) s = true -> strip s = s.
Proof.
  intros H. unfold strip. rewrite (lstrip_keep s H).
  now apply rstrip_by_keep.
Qed.

Lemma all_chars_impl (p q : ascii -> bool) (s : string) :
  (forall c, p c = true -> q c = true) ->
  all_chars p s = true -> all_chars q s = true.
Proof.
  intros Hpq. induction s as [|c s IH]; [reflexivity|]. cbn [all_chars].
  intros H. apply andb_true_iff in H as [Hc H].
  now rewrite (Hpq c Hc), (IH H).
Qed.

Lemma all_chars_app (p : ascii -> bool) (s t : string) :
  all_chars p (s ++ t) = all_chars p s && all_chars p t.
Proof.
  induction s as [|c s IH]; [reflexivity|].
  change (String c s ++ t) with (String c (s ++ t)). cbn [all_chars].
  now rewrite IH, andb_assoc.
Qed.

Lemma split_on_run (sep : ascii) (cur d s : string) :
  all_chars (fun c => negb (Ascii.eqb c sep)) d = true ->
  split_on sep cur (d ++ s) = split_on sep (cur ++ d) s.
Proof.
  revert cur; induction d as [|c d IH]; intros cur H.
  - now rewrite str_app_nil_r.
  - cbn [all_chars] in H. apply andb_true_iff in H as [Hc H].
    apply negb_true_iff in Hc.
    change (String c d ++ s) with (String c (d ++ s)).
    cbn [split_on]. rewrite Hc, (IH _ H). now rewrite str_app_snoc.
Qed.

Lemma split_on_concat (sep : ascii) (d : string) (ds : list string) :
  Forall (fun d => all_chars (fun c => negb (Ascii.eqb c sep)) d = true)
         (d :: ds) ->
  split_on sep "" (String.concat (String sep "") (d :: ds)) = d :: ds.
Proof.
  revert d; induction ds as [|d' ds IH]; intros d H.
  - cbn [String.concat]. inversion H as [|? ? Hd _]; subst.
    pose proof (split_on_run sep "" d "" Hd) as X.
    rewrite str_app_nil_r in X. rewrite X. reflexivity.
  - inversion H as [|? ? Hd Hds]; subst.
    change (String.concat (String sep "") (d :: d' :: ds))
      with (d ++ String sep "" ++ String.concat (String sep "") (d' :: ds)).
    rewrite (split_on_run sep "" d _ Hd).
    change (String sep "" ++ String.concat (String sep "") (d' :: ds))
      with (String sep (String.concat (String sep "") (d' :: ds))).
    cbn [split_on]. rewrite Ascii.eqb_refl. now rewrite (IH d' Hds).
Qed.

Lemma concat_chars (p : ascii -> bool) (sep : ascii) (ds : list string) :
  p sep = true -> Forall (fun d => all_chars p d = true) ds ->
  all_chars p (String.concat (String sep "") ds) = true.
Proof.
  intros Hs H. induction H as [|d ds Hd Hds IH]; [reflexivity|].
  destruct ds as [|d' ds]; [exact Hd|].
  change (String.concat (String sep "") (d :: d' :: ds))
    with (d ++ String sep (String.concat (String sep "") (d' :: ds))).
  rewrite all_chars_app, Hd. cbn [all_chars andb]. now rewrite Hs, IH.
Qed.

Section SpecFacts.

Variable py_float : string -> option float.

Lemma cast_args_digits (ds : list string) :
  Forall (fun d => d <> "" /\ all_chars is_digit d = true) ds ->
  cast_args py_float ds
  = Ok (List.map (fun d => PInt (int_of_digits d)) ds).
Proof.
  induction 1 as [|d ds [Hne Hd] _ IH]; [reflexivity|].
  cbn [cast_args List.map]. unfold cast_arg, isdigit, py_int.
  apply String.eqb_neq in Hne. rewrite Hne, Hd.
  rewrite (all_chars_impl is_digit is_digit_char d
             (fun c H => proj2 (proj2 (proj2 (digit_char_facts c H)))) Hd).
  cbn [negb andb bind]. now rewrite IH.
Qed.

(** X24. [_parse_validator_spec] reads ["name(d1,...,dk)"], for a [name]
    without an opening parenthesis and non-empty runs of the digits 0..9
    (of at most 4300 digits, the limit of [int] on strings), as [name]
    with the [k] integers written by the runs; ["name()"] gives no
    argument. *)
Theorem parse_validator_spec_int_args (name : string) (ds : list string) :
  contains "(" name = false ->
  Forall (fun d => d <> "" /\ all_chars is_digit d = true
                   /\ (len d <= 4300)%N) ds ->
  _parse_validator_spec py_float
    (name ++ "(" ++ String.concat "," ds ++ ")")
  = Ok (name, List.map (fun d => PInt (int_of_digits d)) ds).
Proof.
  intros Hn Hds'.
  assert (Hds : Forall (fun d => d <> "" /\ all_chars is_digit d = true) ds).
  { eapply Forall_impl; [exact Hds'|]. intros d (H1 & H2 & _). now split. }
  clear Hds'. unfold _parse_validator_spec.
  rewrite (contains_middle "(" name (String.concat "," ds ++ ")")).
  cbn [negb].
  change (name ++ "(" ++ String.concat "," ds ++ ")")
    with (name ++ String "(" (String.concat "," ds ++ ")")).
  rewrite (split_first_app "(" name _ (no_paren_chars name Hn)).
  rewrite (rstrip_by_snoc (Ascii.eqb ")") (String.concat "," ds) ")" eq_refl).
  rewrite rstrip_by_keep.
  2:{ apply concat_chars; [reflexivity|].
      eapply Forall_impl; [exact Hds|]. intros d [_ Hd]. cbn beta.
      apply (all_chars_impl is_digit); [|exact Hd].
      intros c Hc. destruct (digit_char_facts c Hc) as (_ & _ & -> & _).
      reflexivity. }
  assert (E : List.filter (fun a => negb (String.eqb a ""))
                (List.map strip (split_on "," "" (String.concat "," ds)))
              = ds).
  { destruct ds as [|d ds]; [reflexivity|].
    rewrite split_on_concat.
    2:{ eapply Forall_impl; [exact Hds|]. intros x [_ Hx]. cbn beta.
        apply (all_chars_impl is_digit); [|exact Hx].
        intros c Hc. destruct (digit_char_facts c Hc) as (_ & -> & _).
        reflexivity. }
    induction Hds as [|x l [Hne Hx] _ IH]; [reflexivity|].
    cbn [List.map List.filter]. rewrite strip_keep.
    2:{ apply (all_chars_impl is_digit); [|exact Hx].
        intros c Hc. destruct (digit_char_facts c Hc) as (-> & _).
        reflexivity. }
    apply String.eqb_neq in Hne. rewrite Hne. cbn [negb]. now rewrite IH. }
  rewrite E, (cast_args_digits ds Hds). reflexivity.
Qed.

End SpecFacts.

Lemma parse_validator_spec_int_args_witness :
  _parse_validator_spec sample_float "total_mem_within_pct(16,2)"
  = Ok ("total_mem_within_pct", [PInt 16; PInt 2]).
Proof.
  apply (parse_validator_spec_int_args sample_float "total_mem_within_pct"
           ["16"; "2"]); [reflexivity|].
  repeat constructor; try discriminate.
Defined.

(** ** parsers.py: [parse_meminfo] without a [MemTotal] line *)

Lemma match_memtotal_here_prefix (s : string) :
  startswith s "MemTotal:" = false -> match_memtotal_here s = None.
Proof. intros H. unfold match_memtotal_here. now rewrite H. Qed.

Lemma search_memtotal_absent (text : string) :
  contains "MemTotal:" text = false -> search_memtotal text = None.
Proof.
  induction text as [|c text IH]; intros H.
  - reflexivity.
  - cbn [contains] in H. apply orb_false_iff in H as [H1 H2].
    cbn [search_memtotal]. rewrite (match_memtotal_here_prefix _ H1).
    now apply IH.
Qed.

(** X25. On an output in which ["MemTotal:"] does not occur,
    [parse_meminfo] reports 0.0 GiB, which [total_mem_within_pct] reads
    as 0 and rejects against 16 GiB within 2 percent, with the defaults
    as well as with the arguments of ["total_mem_within_pct(16,2)"]. *)
Theorem parse_meminfo_without_memtotal (text : string) :
  contains "MemTotal:" text = false ->
  parse_meminfo text = Ok {[ "total_gib" := PFloat (S754_zero false) ]}
  /\ (parsed <~ parse_meminfo text ;;
      total_mem_within_pct parsed (PFloat f16) (PFloat f2))
     = Ok (false, NoteMemTotal (PInt 0) (PFloat f16) (PFloat f2))
  /\ (parsed <~ parse_meminfo text ;;
      total_mem_within_pct parsed (PInt 16) (PInt 2))
     = Ok (false, NoteMemTotal (PInt 0) (PInt 16) (PInt 2)).
Proof.
  intros H.
  assert (E : parse_meminfo text
              = Ok {[ "total_gib" := PFloat (S754_zero false) ]}).
  { unfold parse_meminfo. now rewrite (search_memtotal_absent _ H). }
  rewrite E. split; [reflexivity|].
  split; vm_compute; reflexivity.
Qed.

(** ** validators.py: [all_expected_dimms] on raw records *)

Lemma have_keys_in (ds : list pyval) (have : list dimm_key) :
  have_keys ds = Ok have ->
  forall k, In k have <->
            exists d, In d ds /\ truthy d = true /\ have_key d = Ok k.
Proof.
  revert have; induction ds as [|d ds IH]; intros have H k.
  - injection H as <-. split; [intros [] | intros (? & [] & _)].
  - cbn [have_keys] in H. destruct (truthy d) eqn:Et.
    + destruct (have_key d) as [k0|] eqn:Ek; [|discriminate].
      cbn [bind] in H.
      destruct (have_keys ds) as [ks|] eqn:Eks; [|discriminate].
      cbn [bind] in H. injection H as <-. split.
      * intros [<-|Hin].
        -- exists d. repeat split; auto. now left.
        -- destruct (proj1 (IH ks eq_refl k) Hin) as (x & Hx & Hy).
           exists x. split; [now right | exact Hy].
      * intros (x & [<-|Hx] & Ht & Hk).
        -- left. congruence.
        -- right. apply (IH ks eq_refl k). eauto.
    + rewrite (IH have H k). split.
      * intros (x & Hx & Hy). exists x. split; [now right | exact Hy].
      * intros (x & [<-|Hx] & Ht & Hk); [congruence|eauto].
Qed.

Lemma missing_slots_monotone (have have' : list dimm_key) (es : list pyval) :
  (forall k, In k have -> In k have') ->
  missing_slots have es = Ok [] ->
  missing_slots have' es = Ok [].
Proof.
  intros Hsub. induction es as [|e es IH]; intros H; [reflexivity|].
  cbn [missing_slots] in *.
  destruct (expected_key e) as [tup|]; [|discriminate]. cbn [bind] in *.
  destruct (existsb (dimm_key_eqb tup) have) eqn:Ex; cbn [negb] in H.
  - apply existsb_exists in Ex as (k & Hk & Heq).
    replace (existsb (dimm_key_eqb tup) have') with true.
    + cbn [negb]. now apply IH.
    + symmetry. apply existsb_exists. exists k.
      split; [now apply Hsub | exact Heq].
  - destruct (py_getitem e "slot"); [|discriminate]. cbn [bind] in H.
    destruct (missing_slots have es); discriminate.
Qed.

(** X26. [all_expected_dimms] is monotone in the inventory: when it is
    satisfied by a list of parsed DIMMs, it is satisfied by every list
    that contains them, in any order and with repetitions, on which it
    returns at all (a malformed additional entry makes it raise). *)
Theorem all_expected_dimms_monotone (parsed parsed' : gmap string pyval)
    (ds ds' : list pyval) (es : pyval) (n : note) :
  parsed !! "dimms" = Some (PList ds) ->
  parsed' !! "dimms" = Some (PList ds') ->
  (forall d, In d ds -> In d ds') ->
  all_expected_dimms parsed es = Ok (true, n) ->
  is_ok (all_expected_dimms parsed' es) = true ->
  all_expected_dimms parsed' es = Ok (true, NoteAllDimmsPresent).
Proof.
  intros Hp Hp' Hsub H Hok. unfold all_expected_dimms in *.
  rewrite Hp in H. rewrite Hp' in Hok |- *.
  change (default (PList []) (Some (PList ds))) with (PList ds) in H.
  change (default (PList []) (Some (PList ds'))) with (PList ds') in Hok |- *.
  cbn [py_iter bind] in *.
  destruct (have_keys ds) as [have|] eqn:Eh; [|discriminate].
  destruct (have_keys ds') as [have'|] eqn:Eh'; [|discriminate].
  cbn [bind] in *.
  destruct (py_iter es) as [esl|]; [|discriminate]. cbn [bind] in *.
  destruct (missing_slots have esl) as [missing|] eqn:Em; [|discriminate].
  cbn [bind] in H. destruct missing; [|discriminate].
  rewrite (missing_slots_monotone have have' esl); [reflexivity| |exact Em].
  intros k Hk.
  destruct (proj1 (have_keys_in ds have Eh k) Hk) as (d & Hd & Ht & Hkd).
  apply (have_keys_in ds' have' Eh' k). exists d. auto.
Qed.

Section ValidatorDefaults.

Variable other_validator :
  string -> gmap string pyval -> list pyval -> res (bool * note).
Variable py_float : string -> option float.

Local Abbreviation run_validator' :=
  (run_validator other_validator py_float).

(** X27. A step validated by the bare name [all_expected_dimms], in a job
    whose context has no [expected_dimms], is judged ok whatever DIMMs
    were parsed, also when the parsed record has no [dimms] at all: the
    expectation defaults to the empty list. *)
Theorem bare_all_expected_dimms_without_expectation_passes
    (ctx parsed : gmap string pyval) (step : ExecStep.t) :
  ExecStep.validator step = Some "all_expected_dimms" ->
  ctx !! "expected_dimms" = None ->
  (parsed !! "dimms" = None
   \/ exists ds, parsed = inventory ds) ->
  run_validator' ctx step parsed
  = Ok {| PerStep.id := ExecStep.id step; PerStep.ok := true;
          PerStep.notes := NoteAllDimmsPresent |}.
Proof.
  intros Hv Hc Hp. unfold run_validator. rewrite Hv.
  change (default "" (Some "all_expected_dimms")) with "all_expected_dimms".
  change (String.eqb "all_expected_dimms" "") with false. cbv iota.
  change (_parse_validator_spec py_float "all_expected_dimms")
    with (Ok ("all_expected_dimms", @nil pyval)).
  cbn [bind].
  change (VALIDATORS other_validator "all_expected_dimms")
    with (Some call_all_expected_dimms).
  cbv iota. unfold default_args.
  change (String.eqb "all_expected_dimms" "total_mem_within_pct") with false.
  change (String.eqb "all_expected_dimms" "all_expected_dimms") with true.
  cbn [andb bind length Nat.eqb]. rewrite Hc.
  change (default (PList []) None) with (PList []).
  cbn [bind call_all_expected_dimms]. unfold all_expected_dimms.
  destruct Hp as [Hn|(ds & ->)].
  - rewrite Hn. reflexivity.
  - replace (default (PList []) (inventory ds !! "dimms"))
      with (PList (List.map parsed_dimm_val ds)) by reflexivity.
    cbn [py_iter bind]. rewrite have_keys_parsed. reflexivity.
Qed.

End ValidatorDefaults.

Lemma parse_meminfo_without_memtotal_witness :
  parse_meminfo "cat: /proc/meminfo: Permission denied"
  = Ok {[ "total_gib" := PFloat (S754_zero false) ]}.
Proof.
  apply (parse_meminfo_without_memtotal
           "cat: /proc/meminfo: Permission denied").
  reflexivity.
Defined.

Lemma all_expected_dimms_monotone_witness :
  let dimm slot := {| ParsedDimm.slot := slot;
                      ParsedDimm.size_gib := Some f16;
                      ParsedDimm.speed_mt := Some 3200;
                      ParsedDimm.type := "DDR4"; ParsedDimm.ecc := true |} in
  let want := {| ExpectedDimm.slot := "DIMM_A1";
                 ExpectedDimm.size_gib := NInt 16;
                 ExpectedDimm.speed_mt := Some 3200;
                 ExpectedDimm.ecc := None |} in
  all_expected_dimms (inventory [dimm "DIMM_B1"; dimm "DIMM_A1"])
    (PList [expected_dimm_val want])
  = Ok (true, NoteAllDimmsPresent).
Proof.
  intros dimm want.
  apply (all_expected_dimms_monotone (inventory [dimm "DIMM_A1"])
           (inventory [dimm "DIMM_B1"; dimm "DIMM_A1"])
           [parsed_dimm_val (dimm "DIMM_A1")]
           [parsed_dimm_val (dimm "DIMM_B1"); parsed_dimm_val (dimm "DIMM_A1")]
           (PList [expected_dimm_val want]) NoteAllDimmsPresent).
  - reflexivity.
  - reflexivity.
  - intros d [<-|[]]. right. left. reflexivity.
  - vm_compute. reflexivity.
  - vm_compute. reflexivity.
Defined.

Lemma bare_all_expected_dimms_without_expectation_passes_witness :
  run_validator sample_validator sample_float ∅
    (sample_exec_step (Some "all_expected_dimms")) {[ "raw_len" := PInt 3 ]}
  = Ok {| PerStep.id := "s1"; PerStep.ok := true;
          PerStep.notes := NoteAllDimmsPresent |}.
Proof.
  apply (bare_all_expected_dimms_without_expectation_passes
           sample_validator sample_float ∅ {[ "raw_len" := PInt 3 ]}
           (sample_exec_step (Some "all_expected_dimms")));
    [reflexivity | reflexivity | left; reflexivity].
Defined.

(** ** parsers.py: line splitting *)

(** A word without the character [c] cannot start across [c]. *)
Lemma startswith_across (w a b : string) (c : ascii) :
  all_chars (fun x => negb (Ascii.eqb x c)) w = true ->
  w <> "" ->
  startswith (a ++ String c b) w = startswith a w.
Proof.
  revert a; induction w as [|x w IH]; intros a Hw Hne; [congruence|].
  cbn [all_chars] in Hw. apply andb_true_iff in Hw as [Hx Hw].
  apply negb_true_iff in Hx.
  destruct a as [|d a].
  - change ("" ++ String c b) with (String c b). cbn [startswith].
    now rewrite Hx.
  - change (String d a ++ String c b) with (String d (a ++ String c b)).
    cbn [startswith]. destruct w as [|y w'].
    + reflexivity.
    + rewrite (IH a Hw); [reflexivity | discriminate].
Qed.

(** ... and so occurs on one side of [c] or on the other. *)
Lemma contains_across (w a b : string) (c : ascii) :
  all_chars (fun x => negb (Ascii.eqb x c)) w = true ->
  w <> "" ->
  contains w (a ++ String c b) = contains w a || contains w b.
Proof.
  intros Hw Hne. induction a as [|d a IH].
  - pose proof (startswith_across w "" b c Hw Hne) as X.
    change ("" ++ String c b) with (String c b) in *. cbn [contains].
    rewrite X. destruct w; [congruence | reflexivity].
  - change (String d a ++ String c b) with (String d (a ++ String c b)).
    cbn [contains].
    change (String d (a ++ String c b)) with (String d a ++ String c b).
    rewrite (startswith_across w (String d a) b c Hw Hne), IH.
    now rewrite !orb_assoc.
Qed.

Lemma lower_char_linebreak (c : ascii) :
  is_linebreak (lower_char c) = is_linebreak c.
Proof. destruct c as [[] [] [] [] [] [] [] []]; reflexivity. Qed.

Lemma no_linebreak_not (w : string) (c : ascii) :
  all_chars (fun x => negb (is_linebreak x)) w = true ->
  is_linebreak c = true ->
  all_chars (fun x => negb (Ascii.eqb x c)) w = true.
Proof.
  intros Hw Hc. induction w as [|x w IH]; [reflexivity|].
  cbn [all_chars] in *. apply andb_true_iff in Hw as [Hx Hw].
  rewrite (IH Hw), andb_true_r. apply negb_true_iff.
  destruct (Ascii.eqb_spec x c) as [->|]; [|reflexivity].
  rewrite Hc in Hx. discriminate.
Qed.

(** A word without line boundaries occurs in a text exactly when it occurs
    in one of its lines. *)
Lemma splitlines_from_contains (w : string) :
  w <> "" ->
  all_chars (fun x => negb (is_linebreak x)) w = true ->
  forall (n : nat) (s cur : string),
    (String.length s <= n)%nat ->
    existsb (fun l => contains w (lower l)) (splitlines_from cur s)
    = contains w (lower (cur ++ s)).
Proof.
  intros Hne Hw.
  assert (E0 : contains w "" = false) by (destruct w; [congruence|reflexivity]).
  induction n as [|n IH]; intros s cur Hn.
  - destruct s; [|cbn in Hn; lia]. cbn [splitlines_from].
    rewrite str_app_nil_r.
    destruct (String.eqb_spec cur "") as [->|]; cbn [existsb lower].
    + now rewrite E0.
    + now rewrite orb_false_r.
  - destruct s as [|c s].
    { cbn [splitlines_from]. rewrite str_app_nil_r.
      destruct (String.eqb_spec cur "") as [->|]; cbn [existsb lower].
      - now rewrite E0.
      - now rewrite orb_false_r. }
    cbn [String.length] in Hn. cbn [splitlines_from].
    destruct (is_linebreak c) eqn:Ec.
    + assert (Hc : all_chars (fun x => negb (Ascii.eqb x (lower_char c))) w
                   = true).
      { apply no_linebreak_not; [exact Hw|]. now rewrite lower_char_linebreak. }
      rewrite lower_app. cbn [lower existsb].
      rewrite (contains_across w _ _ _ Hc Hne). f_equal.
      destruct s as [|c' s']; [cbn [existsb lower]; now rewrite E0|].
      destruct (Ascii.eqb c "013" && Ascii.eqb c' "010") eqn:Ecr.
      * apply andb_true_iff in Ecr as [_ Ec']. apply Ascii.eqb_eq in Ec'.
        subst c'. rewrite (IH s' ""); [|cbn [String.length] in Hn; lia].
        change ("" ++ s') with s'. cbn [lower].
        assert (Hc' : all_chars
                        (fun x => negb (Ascii.eqb x (lower_char "010"))) w
                      = true)
          by (apply no_linebreak_not; [exact Hw | reflexivity]).
        pose proof (contains_across w "" (lower s') _ Hc' Hne) as X.
        change ("" ++ String (lower_char "010") (lower s'))
          with (String (lower_char "010") (lower s')) in X.
        rewrite X, E0. reflexivity.
      * rewrite (IH (String c' s') ""); [reflexivity|lia].
    + rewrite (IH s (cur ++ String c "")); [|lia].
      now rewrite str_app_snoc.
Qed.

Lemma splitlines_contains (w text : string) :
  w <> "" ->
  all_chars (fun x => negb (is_linebreak x)) w = true ->
  existsb (fun l => contains w (lower l)) (splitlines text)
  = contains w (lower text).
Proof.
  intros Hne Hw. unfold splitlines.
  now rewrite (splitlines_from_contains w Hne Hw (String.length text) text "").
Qed.

Lemma existsb_swap {A B} (f : A -> B -> bool) (la : list A) (lb : list B) :
  existsb (fun a => existsb (fun b => f a b) lb) la
  = existsb (fun b => existsb (fun a => f a b) la) lb.
Proof.
  induction la as [|a la IH]; cbn [existsb].
  - induction lb as [|b lb IHb]; [reflexivity|]. cbn [existsb].
    now rewrite <- IHb.
  - rewrite IH. clear IH. induction lb as [|b lb IHb]; [reflexivity|].
    cbn [existsb]. rewrite <- IHb.
    destruct (f a b), (existsb (fun a0 => f a0 b) la),
      (existsb (f a) lb),
      (existsb (fun b0 => existsb (fun a0 => f a0 b0) la) lb);
      reflexivity.
Qed.

Lemma search_critical_lines (text : string) :
  existsb search_critical (splitlines text) = search_critical text.
Proof.
  unfold search_critical.
  rewrite (existsb_swap (fun l w => contains w (lower l))).
  unfold CRITICAL_WORDS. cbn [existsb].
  rewrite !splitlines_contains by (discriminate || reflexivity).
  reflexivity.
Qed.

Lemma filter_nil_existsb {A} (f : A -> bool) (l : list A) :
  (length (List.filter f l) =? 0)%nat = negb (existsb f l).
Proof.
  induction l as [|x l IH]; [reflexivity|]. cbn [List.filter existsb].
  destruct (f x); [reflexivity | exact IH].
Qed.

(** X28. [no_critical_logs] applied to what [parse_dmesg] returns is ok
    exactly when none of the words [fatal], [panic], [mce] and
    [uncorrected] occurs anywhere in the text, letter case ignored: the
    splitting into lines cannot hide an occurrence. Otherwise the note
    counts the lines that contain one. *)
Theorem no_critical_logs_whole_text (text : string) :
  let hits := List.filter search_critical (splitlines text) in
  (parsed <~ parse_dmesg text ;; no_critical_logs parsed)
  = Ok (negb (search_critical text),
        if search_critical text then NoteCriticalLines (length hits)
        else NoteNoCritical).
Proof.
  cbv zeta. unfold parse_dmesg, no_critical_logs. cbn [bind].
  rewrite lookup_singleton_eq.
  set (hits := List.filter search_critical (splitlines text)).
  change (default (PList []) (Some (PList (PStr <$> hits))))
    with (PList (PStr <$> hits)).
  cbn [py_len bind]. rewrite length_fmap.
  unfold hits at 1 2. rewrite filter_nil_existsb, search_critical_lines.
  destruct (search_critical text); reflexivity.
Qed.

(** X29. [parse_ipmi_psu] reports [psu_ok] exactly when ["fail"] occurs
    nowhere in the text, letter case ignored. *)
Theorem parse_ipmi_psu_whole_text (text : string) :
  parse_ipmi_psu text
  = Ok {[ "psu_ok" := PBool (negb (contains "fail" (lower text))) ]}.
Proof.
  unfold parse_ipmi_psu.
  rewrite splitlines_contains by (discriminate || reflexivity).
  reflexivity.
Qed.

(** ** From submission to result *)

Section Pipeline.

Variable str_format : string -> gmap string pyval -> res string.
Variable py_repr : string -> string.
Variable other_parser : string -> string -> res (gmap string pyval).
Variable other_validator :
  string -> gmap string pyval -> list pyval -> res (bool * note).
Variable py_float : string -> option float.

Lemma compile_plan_ids (dsl : ToDoDSL.t) (catalog : Catalog.t)
    (plan : ExecPlan.t) :
  compile_plan str_format py_repr dsl catalog = Ok plan ->
  List.map ExecStep.id (ExecPlan.steps plan)
  = List.map ToDoStep.id (ToDoDSL.steps dsl).
Proof.
  intros H. apply compile_plan_steps in H.
  induction H as [|step s l steps Hs _ IH]; [reflexivity|].
  destruct (compile_step_ok _ _ _ _ _ _ Hs)
    as (entry & tpl & max & _ & _ & _ & _ & E).
  rewrite E. cbn [List.map ExecStep.id]. now rewrite IH.
Qed.

(** X30. From submission to result: when [submit_job] accepts a DSL and
    the thread of the job then runs to completion, [get_result] returns a
    result with one [per_step] entry per step of the DSL, in order and
    under the step's id; its status is ["SUCCESS"] exactly when every
    entry is ok; and no other job of the store was touched. *)
Theorem accepted_job_reports_every_step (catalog : Catalog.t) (env : remote)
    (JOBS JOBS1 JOBS2 : gmap string Job.t) (dsl : ToDoDSL.t) (j : string) :
  submit_job str_format py_repr catalog JOBS dsl = (Accepted j, JOBS1) ->
  _run_job_thread other_parser other_validator py_float env JOBS1 j
  = (JOBS2, None) ->
  exists r,
    get_result JOBS2 j = Ready r
    /\ List.map PerStep.id (VerificationResult.per_step r)
       = List.map ToDoStep.id (ToDoDSL.steps dsl)
    /\ (VerificationResult.status r = "SUCCESS"
        <-> Forall (fun p => PerStep.ok p = true)
                   (VerificationResult.per_step r))
    /\ forall k, k <> j -> JOBS2 !! k = JOBS !! k.
Proof.
  unfold submit_job.
  destruct (policy_gate dsl catalog) as [[]|]; [|discriminate].
  destruct (compile_plan str_format py_repr dsl catalog) as [plan|] eqn:Ec;
    [|discriminate].
  destruct (audit_steps (ExecPlan.steps plan)) as [[]|]; [|discriminate].
  destruct (JOBS !! ToDoDSL.job_id dsl) eqn:Ej; [discriminate|].
  intros [= <- <-]. unfold _run_job_thread. rewrite lookup_insert_eq.
  pose proof (run_job_cases other_parser other_validator py_float
                env dsl plan) as C. cbv zeta in C.
  destruct (judge other_parser other_validator py_float _ _ _)
    as [per_step|e] eqn:Ejudge.
  2:{ rewrite C. discriminate. }
  destruct C as (st & su & r & -> & Hp & Hst & Hst').
  intros [= <-]. exists r. split; [|split; [|split]].
  - unfold get_result. now rewrite lookup_insert_eq.
  - rewrite Hp.
    rewrite (judge_ids other_parser other_validator py_float _ _ _ _
               (execute_steps_length _ _ _ _ _) Ejudge).
    exact (compile_plan_ids dsl catalog plan Ec).
  - rewrite Hp, Hst, Hst'. rewrite Forall_forall.
    destruct (forallb PerStep.ok per_step) eqn:F.
    + split; [|reflexivity]. intros _ p Hin.
      rewrite forallb_forall in F. apply F. now apply list_elem_of_In.
    + split; [discriminate|]. intros A.
      assert (forallb PerStep.ok per_step = true).
      { apply forallb_forall. intros p Hin. apply A.
        now apply list_elem_of_In. }
      congruence.
  - intros k Hk. now rewrite !lookup_insert_ne by congruence.
Qed.

End Pipeline.

Lemma accepted_job_reports_every_step_witness :
  let dsl := sample_dsl ∅ [sample_step "s1" "read_meminfo" None None] in
  let JOBS1 := snd (submit_job sample_format sample_repr sample_catalog
                      ∅ dsl) in
  let JOBS2 := fst (_run_job_thread sample_parser sample_validator
                      sample_float (sample_remote "MemTotal: 16777216 kB")
                      JOBS1 "j1") in
  exists r,
    get_result JOBS2 "j1" = Ready r
    /\ List.map PerStep.id (VerificationResult.per_step r) = ["s1"].
Proof.
  intros dsl JOBS1 JOBS2.
  assert (H1 : submit_job sample_format sample_repr sample_catalog ∅ dsl
               = (Accepted "j1", JOBS1)) by (vm_compute; reflexivity).
  assert (H2 : _run_job_thread sample_parser sample_validator sample_float
                 (sample_remote "MemTotal: 16777216 kB") JOBS1 "j1"
               = (JOBS2, None)) by (vm_compute; reflexivity).
  destruct (accepted_job_reports_every_step sample_format sample_repr
              sample_parser sample_validator sample_float sample_catalog
              (sample_remote "MemTotal: 16777216 kB") ∅ JOBS1 JOBS2 dsl "j1"
              H1 H2) as (r & G & I & _).
  exists r. split; [exact G | exact I].
Defined.
